(** * Verification of the dnd_db derivation engine (src/dnd_db)

    A shallow embedding of the ingest loaders, the raw-entity upsert,
    the snapshot differ and the level-up prerequisite evaluator.

    Conventions.
    - A Python [str] is a Rocq [string]; every character is read as the
      Unicode code point of its byte (the Latin-1 range).
    - A JSON value read by [json.loads] is [json]; Python [None] is [JNull]
      (also what [dict.get] returns for a missing key); a Python [float] is
      kept as its [repr] text.
    - A raised Python exception is [Err msg] in the [result] monad.
    - A table is a list of rows in storage order; a SELECT without
      ORDER BY returns them in that order. *)

From Stdlib Require Import ZArith Ascii String List Bool Lia.
From stdpp Require Import base list gmap strings sorting.

Open Scope Z_scope.
#[local] Set Warnings "-register-all".

(* ------------------------------------------------------------------ *)
(** ** Results: Python exceptions as an error monad *)

Inductive result (A : Type) : Type :=
| Ok (a : A)
| Err (e : string).
Arguments Ok {A} a.
Arguments Err {A} e.

#[global] Instance result_ret : MRet result := fun A a => Ok a.
#[global] Instance result_bind : MBind result :=
  fun A B (k : A -> result B) (m : result A) =>
    match m with Ok a => k a | Err e => Err e end.

Lemma bind_Ok {A B} (m : result A) (k : A -> result B) b :
  (m ≫= k) = Ok b -> exists a, m = Ok a /\ k a = Ok b.
Proof. destruct m; simpl; [eauto|discriminate]. Qed.

(* ------------------------------------------------------------------ *)
(** ** JSON values *)

Inductive json : Type :=
| JNull
| JBool (b : bool)
| JInt (z : Z)
| JFloat (r : string)
| JStr (s : string)
| JArr (l : list json)
| JObj (kvs : list (string * json)).

(** Structural induction with the nested lists. *)
Section json_ind2.
Variable P : json -> Prop.
Hypothesis HNull : P JNull.
Hypothesis HBool : forall b, P (JBool b).
Hypothesis HInt : forall z, P (JInt z).
Hypothesis HFloat : forall r, P (JFloat r).
Hypothesis HStr : forall s, P (JStr s).
Hypothesis HArr : forall l, Forall P l -> P (JArr l).
Hypothesis HObj : forall kvs, Forall (fun kv => P (snd kv)) kvs -> P (JObj kvs).

Fixpoint json_ind2 (j : json) : P j :=
  match j with
  | JNull => HNull
  | JBool b => HBool b
  | JInt z => HInt z
  | JFloat r => HFloat r
  | JStr s => HStr s
  | JArr l =>
      HArr l ((fix go (l : list json) : Forall P l :=
                 match l with
                 | [] => @List.Forall_nil _ P
                 | x :: r => @List.Forall_cons _ P x r (json_ind2 x) (go r)
                 end) l)
  | JObj kvs =>
      HObj kvs ((fix go (l : list (string * json))
                   : Forall (fun kv => P (snd kv)) l :=
                   match l with
                   | [] => @List.Forall_nil _ _
                   | kv :: r => @List.Forall_cons _ (fun kv => P (snd kv)) kv r (json_ind2 (snd kv)) (go r)
                   end) kvs)
  end.
End json_ind2.

(* ------------------------------------------------------------------ *)
(** ** Python builtins on strings *)

Definition code (c : ascii) : Z := Z.of_nat (nat_of_ascii c).
Definition chr (n : Z) : ascii := ascii_of_nat (Z.to_nat n).

(** [str.isspace] on the Latin-1 range. *)
Definition py_isspace (c : ascii) : bool :=
  let n := code c in
  ((9 <=? n) && (n <=? 13)) || ((28 <=? n) && (n <=? 32)) || (n =? 133) || (n =? 160).

(** [str.lower] on the Latin-1 range. *)
Definition lower_char (c : ascii) : ascii :=
  let n := code c in
  if ((65 <=? n) && (n <=? 90)) || ((192 <=? n) && (n <=? 222) && negb (n =? 215))
  then chr (n + 32) else c.

Fixpoint py_lower (s : string) : string :=
  match s with
  | EmptyString => EmptyString
  | String c r => String (lower_char c) (py_lower r)
  end.

Fixpoint lstrip_by (p : ascii -> bool) (s : string) : string :=
  match s with
  | EmptyString => EmptyString
  | String c r => if p c then lstrip_by p r else s
  end.

Definition strip_by (p : ascii -> bool) (s : string) : string :=
  String.rev (lstrip_by p (String.rev (lstrip_by p s))).

(** [str.strip()] and [str.strip("-")]. *)
Definition py_strip (s : string) : string := strip_by py_isspace s.
Definition strip_dash (s : string) : string :=
  strip_by (fun c => Ascii.eqb c "-"%char) s.

Fixpoint prefixb (p s : string) : bool :=
  match p, s with
  | EmptyString, _ => true
  | String a p', String b s' => Ascii.eqb a b && prefixb p' s'
  | String _ _, EmptyString => false
  end.

(** [needle in hay] for strings. *)
Fixpoint py_in (needle hay : string) : bool :=
  prefixb needle hay ||
  match hay with
  | EmptyString => false
  | String _ r => py_in needle r
  end.

Fixpoint py_join (sep : string) (l : list string) : string :=
  match l with
  | [] => ""
  | [x] => x
  | x :: r => x +:+ sep +:+ py_join sep r
  end.

Definition digit_char (d : Z) : ascii := chr (48 + d).
Definition hex_char (d : Z) : ascii :=
  if d <? 10 then chr (48 + d) else chr (87 + d).

Fixpoint nat_digits (fuel : nat) (n : Z) (acc : string) : string :=
  match fuel with
  | O => acc
  | S f =>
      let acc' := String (digit_char (n mod 10)) acc in
      if n <? 10 then acc' else nat_digits f (n / 10) acc'
  end.

(** [str(n)] for an int. *)
Definition z_to_dec (z : Z) : string :=
  let fuel := S (Z.to_nat (Z.log2 (Z.abs z + 1))) in
  if z <? 0 then "-" +:+ nat_digits fuel (- z) "" else nat_digits fuel z "".

Definition is_digit (c : ascii) : bool := (48 <=? code c) && (code c <=? 57).
Definition is_alnum_ascii (c : ascii) : bool :=
  let n := code c in
  is_digit c || ((65 <=? n) && (n <=? 90)) || ((97 <=? n) && (n <=? 122)).

(* ------------------------------------------------------------------ *)
(** ** Python builtins on JSON values *)

Definition float_is_zero (r : string) : bool :=
  String.eqb r "0.0" || String.eqb r "-0.0".

(** Truthiness ([bool(v)]). *)
Definition truthy (v : json) : bool :=
  match v with
  | JNull => false
  | JBool b => b
  | JInt z => negb (z =? 0)
  | JFloat r => negb (float_is_zero r)
  | JStr s => negb (String.eqb s "")
  | JArr l => negb (length l =? 0)%nat
  | JObj kvs => negb (length kvs =? 0)%nat
  end.

(** [d.get(k)] on a dict; [None] when the key is absent. *)
Definition dget (kvs : list (string * json)) (k : string) : json :=
  match find (fun kv => String.eqb kv.1 k) kvs with
  | Some kv => kv.2
  | None => JNull
  end.

(** [k in d]. *)
Definition dhas (kvs : list (string * json)) (k : string) : bool :=
  existsb (fun kv => String.eqb kv.1 k) kvs.

Definition as_str (v : json) : option string :=
  match v with JStr s => Some s | _ => None end.

(** Python's [a or b] on optional strings ([None] and [""] are falsy). *)
Definition ostr_or (a b : option string) : option string :=
  match a with Some s => if String.eqb s "" then b else a | None => b end.

(** Outcomes of the builtin [int(v)]. *)
Inductive int_outcome :=
| IntOk (z : Z)
| IntValueError
| IntTypeError
| IntOverflow.

Fixpoint digits_us (s : string) (acc : Z) (prev_digit : bool) : option Z :=
  match s with
  | EmptyString => if prev_digit then Some acc else None
  | String c r =>
      if is_digit c then digits_us r (acc * 10 + (code c - 48)) true
      else if Ascii.eqb c "_"%char && prev_digit then digits_us r acc false
      else None
  end.

(** [int(s)] for a [str] (base 10: surrounding white space, a sign,
    digits with single underscores between them). *)
Definition parse_int_str (s : string) : option Z :=
  match py_strip s with
  | String c r =>
      if Ascii.eqb c "-"%char then option_map Z.opp (digits_us r 0 false)
      else if Ascii.eqb c "+"%char then digits_us r 0 false
      else digits_us (String c r) 0 false
  | EmptyString => None
  end.

Fixpoint digits_count (s : string) (acc : Z) (n : Z) : Z * Z * string :=
  match s with
  | String c r => if is_digit c then digits_count r (acc * 10 + (code c - 48)) (n + 1)
                  else (acc, n, s)
  | EmptyString => (acc, n, s)
  end.

(** [int(x)] for a finite float given by its [repr]
    ([D.F], [D.Fe+E], [De-E]): truncation toward zero. *)
Definition float_trunc (r : string) : Z :=
  let '(neg, r1) := match r with
                    | String "-"%char t => (true, t)
                    | _ => (false, r)
                    end in
  let '(d, _, r2) := digits_count r1 0 0 in
  let '(f, nf, r3) := match r2 with
                      | String "."%char t => digits_count t 0 0
                      | _ => (0, 0, r2)
                      end in
  let e := match r3 with
           | String "e"%char (String "-"%char t) => - (digits_count t 0 0).1.1
           | String "e"%char (String "+"%char t) => (digits_count t 0 0).1.1
           | String "e"%char t => (digits_count t 0 0).1.1
           | _ => 0
           end in
  let m := d * 10 ^ nf + f in
  let sh := e - nf in
  let v := if 0 <=? sh then m * 10 ^ sh else Z.quot m (10 ^ (- sh)) in
  if neg then - v else v.

Definition py_int (v : json) : int_outcome :=
  match v with
  | JBool b => IntOk (if b then 1 else 0)
  | JInt z => IntOk z
  | JFloat r =>
      if String.eqb r "nan" then IntValueError
      else if String.eqb r "inf" || String.eqb r "-inf" then IntOverflow
      else IntOk (float_trunc r)
  | JStr s => match parse_int_str s with Some z => IntOk z | None => IntValueError end
  | _ => IntTypeError
  end.

(** [_coerce_int] (load_choices.py): [None] stays [None], [int(value)]
    with [TypeError] and [ValueError] caught. *)
Definition _coerce_int (v : json) : result (option Z) :=
  match v with
  | JNull => Ok None
  | _ => match py_int v with
         | IntOk z => Ok (Some z)
         | IntValueError | IntTypeError => Ok None
         | IntOverflow => Err "OverflowError: cannot convert float infinity to integer"
         end
  end.

(** Python's [a or b] on the optional ints returned by [_coerce_int]. *)
Definition oint_or (a b : option Z) : option Z :=
  match a with Some z => if z =? 0 then b else a | None => b end.

(** The double-quote character. *)
Definition dq : ascii := "034"%char.

Definition hex2 (n : Z) : string :=
  String (hex_char (n / 16)) (String (hex_char (n mod 16)) "").

(** [repr] of a [str]. *)
Definition py_repr_string (s : string) : string :=
  let q := if py_in "'" s && negb (py_in (String dq "") s) then dq else "'"%char in
  let fix esc (s : string) : string :=
      match s with
      | EmptyString => EmptyString
      | String c r =>
          let n := code c in
          let e :=
            if Ascii.eqb c "\"%char then "\\"
            else if Ascii.eqb c q then String "\"%char (String q "")
            else if n =? 9 then "\t"
            else if n =? 10 then "\n"
            else if n =? 13 then "\r"
            else if (n <? 32) || ((127 <=? n) && (n <=? 160)) || (n =? 173)
            then "\x" +:+ hex2 n
            else String c "" in
          e +:+ esc r
      end in
  String q (esc s +:+ String q "").

(** [repr(v)] and [str(v)] of a JSON value. *)
Fixpoint py_repr (v : json) : string :=
  match v with
  | JNull => "None"
  | JBool true => "True"
  | JBool false => "False"
  | JInt z => z_to_dec z
  | JFloat r => r
  | JStr s => py_repr_string s
  | JArr l => "[" +:+ py_join ", " (map py_repr l) +:+ "]"
  | JObj kvs =>
      "{" +:+ py_join ", " (map (fun kv => py_repr_string kv.1 +:+ ": " +:+ py_repr kv.2) kvs)
      +:+ "}"
  end.

Definition py_str (v : json) : string :=
  match v with JStr s => s | _ => py_repr v end.

(* ------------------------------------------------------------------ *)
(** ** [json.dumps(v, sort_keys=True, separators=(",", ":"))] *)

(** String literal with the default [ensure_ascii=True] escaping. *)
Definition json_quote (s : string) : string :=
  let fix esc (s : string) : string :=
      match s with
      | EmptyString => EmptyString
      | String c r =>
          let n := code c in
          let e :=
            if Ascii.eqb c dq then String "\"%char (String dq "")
            else if Ascii.eqb c "\"%char then "\\"
            else if n =? 10 then "\n"
            else if n =? 13 then "\r"
            else if n =? 9 then "\t"
            else if n =? 8 then "\b"
            else if n =? 12 then "\f"
            else if (32 <=? n) && (n <=? 126) then String c ""
            else "\u00" +:+ hex2 n in
          e +:+ esc r
      end in
  String dq (esc s +:+ String dq "").

(** Items are ordered by key; [sorted(d.items())] orders a dict's items
    by key, keys being unique. *)
Definition item_le (a b : string * string) : Prop := String.le a.1 b.1.
#[global] Instance item_le_dec : RelDecision item_le :=
  fun a b => String.le_dec a.1 b.1.

Fixpoint dumps (v : json) : string :=
  match v with
  | JNull => "null"
  | JBool true => "true"
  | JBool false => "false"
  | JInt z => z_to_dec z
  | JFloat r =>
      if String.eqb r "inf" then "Infinity"
      else if String.eqb r "-inf" then "-Infinity"
      else if String.eqb r "nan" then "NaN" else r
  | JStr s => json_quote s
  | JArr l => "[" +:+ py_join "," (map dumps l) +:+ "]"
  | JObj kvs =>
      let items := map (fun kv => (kv.1, dumps kv.2)) kvs in
      "{" +:+ py_join "," (map (fun it => json_quote it.1 +:+ ":" +:+ it.2)
                              (merge_sort item_le items)) +:+ "}"
  end.

(* ------------------------------------------------------------------ *)
(** ** SHA-256 ([hashlib.sha256(...).hexdigest()]) *)

Module Sha256.
Definition mask : Z := 4294967295.
Definition add (a b : Z) : Z := (a + b) mod 4294967296.
Definition rotr (x : Z) (n : Z) : Z :=
  Z.land (Z.lor (Z.shiftr x n) (Z.shiftl x (32 - n))) mask.
Definition ch (x y z : Z) : Z := Z.lxor (Z.land x y) (Z.land (Z.lxor x mask) z).
Definition maj (x y z : Z) : Z :=
  Z.lxor (Z.land x y) (Z.lxor (Z.land x z) (Z.land y z)).
Definition bsig0 (x : Z) : Z := Z.lxor (rotr x 2) (Z.lxor (rotr x 13) (rotr x 22)).
Definition bsig1 (x : Z) : Z := Z.lxor (rotr x 6) (Z.lxor (rotr x 11) (rotr x 25)).
Definition ssig0 (x : Z) : Z := Z.lxor (rotr x 7) (Z.lxor (rotr x 18) (Z.shiftr x 3)).
Definition ssig1 (x : Z) : Z := Z.lxor (rotr x 17) (Z.lxor (rotr x 19) (Z.shiftr x 10)).

(** The constants of FIPS 180-4, section 4.2.2 and 5.3.3: the first 32
    bits of the fractional parts of the cube roots (for [K]) and of the
    square roots (for [H0]) of the first primes. *)
Definition is_prime (n : Z) : bool :=
  (1 <? n) && forallb (fun d => negb (Z.eqb (n mod d) 0))
                      (map Z.of_nat (seq 2 (Z.to_nat (Z.sqrt n) - 1))).

Definition primes (k : nat) : list Z :=
  firstn k (filter is_prime (map Z.of_nat (seq 2 400))).

(** The integer cube root, by bisection on [lo^3 <= n < hi^3]. *)
Fixpoint cbrt_search (fuel : nat) (lo hi n : Z) : Z :=
  match fuel with
  | O => lo
  | S f =>
      if hi - lo <=? 1 then lo
      else let m := (lo + hi) / 2 in
           if m * m * m <=? n then cbrt_search f m hi n else cbrt_search f lo m n
  end.

Definition cbrt (n : Z) : Z := cbrt_search 64 0 (2 ^ 48) n.

Definition K : list Z :=
  Eval vm_compute in map (fun p => Z.land (cbrt (p * 2 ^ 96)) mask) (primes 64).

Definition H0 : list Z :=
  Eval vm_compute in map (fun p => Z.land (Z.sqrt (p * 2 ^ 64)) mask) (primes 8).

Definition pad (msg : list Z) : list Z :=
  let l := Z.of_nat (length msg) in
  let k := Z.to_nat ((55 - l) mod 64) in
  let bits := 8 * l in
  msg ++ [128] ++ repeat 0 k ++
      map (fun i => Z.land (Z.shiftr bits (8 * (7 - i))) 255) [0; 1; 2; 3; 4; 5; 6; 7].

Fixpoint words (fuel : nat) (b : list Z) : list Z :=
  match fuel, b with
  | S f, b0 :: b1 :: b2 :: b3 :: r =>
      (b0 * 16777216 + b1 * 65536 + b2 * 256 + b3) :: words f r
  | _, _ => []
  end.

(** Message schedule, most recent word first. *)
Fixpoint extend (n : nat) (wr : list Z) : list Z :=
  match n with
  | O => wr
  | S n' =>
      let w := add (add (ssig1 (nth 1 wr 0)) (nth 6 wr 0))
                   (add (ssig0 (nth 14 wr 0)) (nth 15 wr 0)) in
      extend n' (w :: wr)
  end.

Definition round (st : list Z) (kw : Z * Z) : list Z :=
  match st with
  | [a; b; c; d; e; f; g; h] =>
      let t1 := add (add (add h (bsig1 e)) (add (ch e f g) kw.1)) kw.2 in
      let t2 := add (bsig0 a) (maj a b c) in
      [add t1 t2; a; b; c; add d t1; e; f; g]
  | _ => st
  end.

Definition compress (hs : list Z) (block : list Z) : list Z :=
  let w := rev (extend 48 (rev (words 16 block))) in
  let st := fold_left round (combine K w) hs in
  zip_with add hs st.

Fixpoint blocks (fuel : nat) (b : list Z) : list (list Z) :=
  match fuel with
  | O => []
  | S f => match b with [] => [] | _ => firstn 64 b :: blocks f (skipn 64 b) end
  end.

Definition hex_word (w : Z) : string :=
  fold_right (fun i acc => String (hex_char (Z.land (Z.shiftr w (4 * (7 - i))) 15)) acc)
             "" [0; 1; 2; 3; 4; 5; 6; 7].

Definition hexdigest (msg : list Z) : string :=
  let p := pad msg in
  let hs := fold_left compress (blocks (length p) p) H0 in
  fold_right (fun w acc => hex_word w +:+ acc) "" hs.
End Sha256.

Fixpoint string_bytes (s : string) : list Z :=
  match s with
  | EmptyString => []
  | String c r => code c :: string_bytes r
  end.

(** [.encode("utf-8")] of a string whose characters are all ASCII, as
    [json.dumps] output is. *)
Definition encode_ascii (s : string) : list Z := string_bytes s.

(** upsert.py: [canonical_json_hash]. *)
Definition canonical_json_hash (payload : json) : string :=
  Sha256.hexdigest (encode_ascii (dumps payload)).

Example sha256_abc :
  Sha256.hexdigest (string_bytes "abc")
  = "ba7816bf8f01cfea414140de5dae2223b00361a396177a9cb410ff61f20015ad".
Proof. vm_compute. reflexivity. Qed.

Example sha256_empty :
  Sha256.hexdigest []
  = "e3b0c44298fc1c149afbf4c8996fb92427ae41e4649b934ca495991b7852b855".
Proof. vm_compute. reflexivity. Qed.

Example dumps_sorted :
  dumps (JObj [("b", JInt 2); ("a", JArr [JNull; JBool true; JStr "x"])])
  = "{" +:+ String dq "a" +:+ String dq ":[null,true," +:+ String dq "x" +:+ String dq "]," +:+ String dq "b" +:+ String dq ":2}".
Proof. vm_compute. reflexivity. Qed.

Example sha256_two_blocks :
  Sha256.hexdigest (string_bytes "abcdbcdecdefdefgefghfghighijhijkijkljklmklmnlmnomnopnopq")
  = "248d6a61d20638b8e5c026930c3e6039a33ce45964ff2167f6ecedd419db06c1".
Proof. vm_compute. reflexivity. Qed.

(** Two JSON values that are equal up to the order of the keys of their
    objects, at any depth. *)
Inductive jeq : json -> json -> Prop :=
| jeq_null : jeq JNull JNull
| jeq_bool b : jeq (JBool b) (JBool b)
| jeq_int z : jeq (JInt z) (JInt z)
| jeq_float r : jeq (JFloat r) (JFloat r)
| jeq_str s : jeq (JStr s) (JStr s)
| jeq_arr l1 l2 : Forall2 jeq l1 l2 -> jeq (JArr l1) (JArr l2)
| jeq_obj k1 k' k2 :
    Forall2 (fun a b => a.1 = b.1 /\ jeq a.2 b.2) k1 k' ->
    k' ≡ₚ k2 -> jeq (JObj k1) (JObj k2).

(** A value [json.loads] can return: the keys of each object are distinct. *)
Fixpoint json_wf (v : json) : Prop :=
  match v with
  | JArr l => (fix go (l : list json) : Prop :=
                 match l with [] => True | x :: r => json_wf x /\ go r end) l
  | JObj kvs => NoDup (map fst kvs) /\
      (fix go (l : list (string * json)) : Prop :=
         match l with [] => True | kv :: r => json_wf kv.2 /\ go r end) kvs
  | _ => True
  end.

(* ------------------------------------------------------------------ *)
(** ** Facts about the canonical serialization *)

#[global] Instance item_le_trans : Transitive item_le.
Proof. intros a b c Hab Hbc. unfold item_le in *. by etrans. Qed.
#[global] Instance item_le_total : Total item_le.
Proof. intros a b. unfold item_le. apply String.le_total. Qed.

Lemma NoDup_fst_eq {B} (l : list (string * B)) x y :
  NoDup (map fst l) -> In x l -> In y l -> x.1 = y.1 -> x = y.
Proof.
  induction l as [|a l IH]; intros Hn Hx Hy He; [destruct Hx|].
  simpl in Hn. apply NoDup_cons in Hn as [Hna Hn].
  destruct Hx as [<-|Hx], Hy as [<-|Hy]; auto.
  - exfalso. apply Hna. rewrite He. apply list_elem_of_In, (in_map fst). exact Hy.
  - exfalso. apply Hna. rewrite <- He. apply list_elem_of_In, (in_map fst). exact Hx.
Qed.

Lemma merge_sort_items_unique (m1 m2 : list (string * string)) :
  NoDup (map fst m1) -> m1 ≡ₚ m2 ->
  merge_sort item_le m1 = merge_sort item_le m2.
Proof.
  intros Hn Hp.
  apply (Sorted_unique_strong item_le).
  - intros x1 x2 Hx1 Hx2 H12 H21.
    assert (x1.1 = x2.1) as Hk.
    { unfold item_le in *. by apply (anti_symm String.le). }
    rewrite merge_sort_Permutation in Hx1.
    rewrite merge_sort_Permutation, <- Hp in Hx2.
    apply list_elem_of_In in Hx1, Hx2.
    exact (NoDup_fst_eq m1 x1 x2 Hn Hx1 Hx2 Hk).
  - apply Sorted_merge_sort, item_le_total.
  - apply Sorted_merge_sort, item_le_total.
  - by rewrite !merge_sort_Permutation.
Qed.

Lemma dumps_obj kvs :
  dumps (JObj kvs) =
  "{" +:+ py_join "," (map (fun it => json_quote it.1 +:+ ":" +:+ it.2)
        (merge_sort item_le (map (fun kv => (kv.1, dumps kv.2)) kvs))) +:+ "}".
Proof. reflexivity. Qed.

Lemma json_wf_arr l : json_wf (JArr l) <-> Forall json_wf l.
Proof.
  simpl. induction l as [|x l IH]; [split; auto|].
  rewrite Forall_cons, <- IH. tauto.
Qed.

Lemma json_wf_obj kvs :
  json_wf (JObj kvs) <-> NoDup (map fst kvs) /\ Forall (fun kv => json_wf kv.2) kvs.
Proof.
  simpl. apply and_iff_compat_l.
  induction kvs as [|kv kvs IH]; [split; auto|].
  rewrite Forall_cons, <- IH. tauto.
Qed.

(** Serialization does not see the order of object keys. *)
Lemma dumps_jeq (p : json) :
  forall q, json_wf p -> jeq p q -> dumps p = dumps q.
Proof.
  induction p as [| | | | |l IH|kvs IH] using json_ind2; intros q Hwf Hj;
    inversion Hj; subst; try reflexivity.
  - (* arrays *)
    apply json_wf_arr in Hwf.
    match goal with H : Forall2 jeq l _ |- _ => rename H into H2 end.
    assert (map dumps l = map dumps l2) as Hm.
    { clear Hj. revert IH Hwf.
      induction H2 as [|x y r r2 Hxy _ IH2]; intros IH Hwf; [done|].
      apply Forall_cons in IH as [IHx IH]; apply Forall_cons in Hwf as [Hx Hwf].
      simpl. f_equal; auto. }
    simpl. by rewrite Hm.
  - (* objects *)
    apply json_wf_obj in Hwf as [Hnd Hwf].
    match goal with H : Forall2 _ kvs k' |- _ => rename H into H2 end.
    assert (map (fun kv => (kv.1, dumps kv.2)) kvs = map (fun kv => (kv.1, dumps kv.2)) k')
      as Hm.
    { clear - H2 IH Hwf. revert IH Hwf.
      induction H2 as [|x y r r' [Hk Hxy] _ IH2]; intros IH Hwf; [done|].
      apply Forall_cons in IH as [IHx IH]; apply Forall_cons in Hwf as [Hx Hwf].
      simpl. f_equal; [|auto]. rewrite Hk. f_equal. auto. }
    rewrite !dumps_obj, Hm.
    do 4 f_equal.
    apply merge_sort_items_unique.
    + rewrite <- Hm, map_map. simpl. exact Hnd.
    + by apply Permutation_map.
Qed.

(** Structural equality of JSON values, the one SQLAlchemy's change
    tracking applies to a JSON column. *)
Fixpoint json_eqb (a b : json) : bool :=
  match a, b with
  | JNull, JNull => true
  | JBool x, JBool y => Bool.eqb x y
  | JInt x, JInt y => Z.eqb x y
  | JFloat x, JFloat y => String.eqb x y
  | JStr x, JStr y => String.eqb x y
  | JArr xs, JArr ys =>
      (fix go (xs ys : list json) : bool :=
         match xs, ys with
         | [], [] => true
         | x :: xs', y :: ys' => json_eqb x y && go xs' ys'
         | _, _ => false
         end) xs ys
  | JObj xs, JObj ys =>
      (fix go (xs ys : list (string * json)) : bool :=
         match xs, ys with
         | [], [] => true
         | x :: xs', y :: ys' => String.eqb x.1 y.1 && json_eqb x.2 y.2 && go xs' ys'
         | _, _ => false
         end) xs ys
  | _, _ => false
  end.

Lemma json_eqb_eq (a : json) : forall b, json_eqb a b = true <-> a = b.
Proof.
  induction a as [|x|x|x|x|l IH|kvs IH] using json_ind2; intros [|y|y|y|y|l'|kvs'];
    simpl; try (split; [discriminate|congruence]); try tauto.
  - rewrite Bool.eqb_true_iff. split; congruence.
  - rewrite Z.eqb_eq. split; congruence.
  - rewrite String.eqb_eq. split; congruence.
  - rewrite String.eqb_eq. split; congruence.
  - revert l'. induction IH as [|x r Hx Hr IHr]; intros [|y r']; simpl;
      try (split; [discriminate|congruence]); try tauto.
    rewrite andb_true_iff, Hx, IHr. split; [intros [-> Hl]; congruence|].
    intros Heq; injection Heq; intros; subst; auto.
  - revert kvs'. induction IH as [|[k v] r Hx Hr IHr]; intros [|[k' v'] r']; simpl;
      try (split; [discriminate|congruence]); try tauto.
    simpl in Hx. rewrite !andb_true_iff, String.eqb_eq, Hx, IHr.
    split; [intros [[-> ->] Hl]; congruence|].
    intros Heq; injection Heq; intros; subst; auto.
Qed.

#[global] Instance json_eq_dec : EqDecision json.
Proof.
  intros a b. destruct (json_eqb a b) eqn:E.
  - left. by apply json_eqb_eq.
  - right. intros H. apply json_eqb_eq in H. congruence.
Defined.

(* ------------------------------------------------------------------ *)
(** ** Rows of the relational store (models/) *)

(** [Result.one_or_none()]. *)
Definition one_or_none {A} (rows : list A) : result (option A) :=
  match rows with
  | [] => Ok None
  | [x] => Ok (Some x)
  | _ => Err "MultipleResultsFound: Multiple rows were found when one or none was required"
  end.

Record Source := mkSource { src_id : Z; src_name : string }.

(** models/raw_entity.py: [RawEntity]; timestamps are instants as [Z]. *)
Record RawEntity := mkRawEntity {
  re_id : Z;
  re_source_id : Z;
  re_entity_type : string;
  re_source_key : string;
  re_name : option string;
  re_srd : option bool;
  re_url : option string;
  re_raw_json : json;
  re_raw_hash : string;
  re_retrieved_at : Z;
  re_created_at : Z;
  re_updated_at : Z }.

#[global] Instance RawEntity_eq_dec : EqDecision RawEntity.
Proof. intros [] []; unfold Decision; solve_decision. Defined.

(** A normalized entity (class, subclass, feature, spell, item,
    condition, monster) as the loaders read it; only features carry a
    [level] attribute, [ent_level] is [None] for the others. *)
Record Entity := mkEntity {
  ent_id : Z;
  ent_source_id : Z;
  ent_source_key : string;
  ent_name : string;
  ent_level : option Z;
  ent_raw_entity_id : option Z }.

(** models/choices.py: [ChoiceGroup], with its columns and no others
    (timestamps left out): the model declares no [label] and no
    [source_key]. *)
Record ChoiceGroup := mkChoiceGroup {
  cg_id : Z;
  cg_source_id : Z;
  cg_owner_type : string;
  cg_owner_id : Z;
  cg_choice_type : string;
  cg_choose_n : Z;
  cg_level : option Z;
  cg_notes : option string }.

(** models/choices.py: [ChoiceOption]; it declares no [feature_id]. *)
Record ChoiceOption := mkChoiceOption {
  co_id : Z;
  co_group_id : Z;
  co_option_type : string;
  co_option_source_key : string;
  co_option_ref_id : option Z;
  co_label : string }.

Record Prerequisite := mkPrerequisite {
  pr_applies_to_type : string;
  pr_applies_to_id : Z;
  pr_prereq_type : string;
  pr_key : string;
  pr_operator : string;
  pr_value : string;
  pr_notes : option string }.

Record GrantProficiency := mkGrantProficiency {
  gp_source_id : Z;
  gp_owner_type : string;
  gp_owner_id : Z;
  gp_proficiency_type : string;
  gp_proficiency_key : string;
  gp_label : string }.

Record GrantSpell := mkGrantSpell {
  gs_source_id : Z;
  gs_owner_type : string;
  gs_owner_id : Z;
  gs_spell_source_key : string;
  gs_label : string;
  gs_spell_id : option Z }.

Record GrantFeature := mkGrantFeature {
  gf_source_id : Z;
  gf_owner_type : string;
  gf_owner_id : Z;
  gf_feature_source_key : string;
  gf_label : string;
  gf_feature_id : option Z }.

Record ClassFeatureLink := mkClassFeatureLink {
  cfl_source_id : Z; cfl_class_id : Z; cfl_feature_id : Z; cfl_level : option Z }.
Record SubclassFeatureLink := mkSubclassFeatureLink {
  sfl_source_id : Z; sfl_subclass_id : Z; sfl_feature_id : Z; sfl_level : option Z }.
Record SpellClassLink := mkSpellClassLink {
  scl_source_id : Z; scl_spell_id : Z; scl_class_id : Z }.

(** The tables the engine reads and writes. *)
Record DB := mkDB {
  db_sources : list Source;
  db_raw : list RawEntity;
  db_classes : list Entity;
  db_subclasses : list Entity;
  db_features : list Entity;
  db_spells : list Entity;
  db_items : list Entity;
  db_conditions : list Entity;
  db_monsters : list Entity;
  db_groups : list ChoiceGroup;
  db_options : list ChoiceOption;
  db_prereqs : list Prerequisite;
  db_grant_profs : list GrantProficiency;
  db_grant_spells : list GrantSpell;
  db_grant_features : list GrantFeature;
  db_class_features : list ClassFeatureLink;
  db_subclass_features : list SubclassFeatureLink;
  db_spell_classes : list SpellClassLink }.

(** A database with every table empty. *)
Definition empty_db : DB :=
  mkDB [] [] [] [] [] [] [] [] [] [] [] [] [] [] [] [] [] [].

Definition max_id (ids : list Z) : Z := fold_right Z.max 0 ids.
(** The primary key SQLite gives a new row. *)
Definition fresh_id (ids : list Z) : Z := max_id ids + 1.

(** [_source_or_raise] (the three loaders' variants differ only in the
    message). *)
Definition source_or_raise (db : DB) (source_name : string) (msg : string)
  : result Source :=
  o ← one_or_none (filter (fun s => String.eqb (src_name s) source_name) (db_sources db));
  match o with Some s => Ok s | None => Err ("ValueError: " +:+ msg) end.

(* ------------------------------------------------------------------ *)
(** ** upsert.py: [upsert_raw_entity] *)

(** The ORM flush of a loaded row after the code assigned some of its
    attributes.  [retrieved_at] is always among them, assigned the aware
    [_utc_now()]; the row was loaded from SQLite, which hands
    [DateTime(timezone=True)] columns back naive, and a naive and an
    aware datetime never compare equal, so the flush always issues an
    UPDATE.  Its [onupdate=_utc_now] hook (models/raw_entity.py) then sets
    [updated_at] to the flush instant unless the code assigned
    [updated_at] itself. *)
Definition flush_update (new : RawEntity) (updated_at_assigned : bool) (flush_now : Z)
  : RawEntity :=
  if updated_at_assigned then new
  else {| re_id := re_id new; re_source_id := re_source_id new;
          re_entity_type := re_entity_type new; re_source_key := re_source_key new;
          re_name := re_name new; re_srd := re_srd new; re_url := re_url new;
          re_raw_json := re_raw_json new; re_raw_hash := re_raw_hash new;
          re_retrieved_at := re_retrieved_at new; re_created_at := re_created_at new;
          re_updated_at := flush_now |}.

Definition replace_row (old new : RawEntity) (rows : list RawEntity) : list RawEntity :=
  map (fun r => if Z.eqb (re_id r) (re_id old) then new else r) rows.

(** The [where] clause of the lookup. *)
Definition raw_scope (source_id : Z) (entity_type source_key : string) (r : RawEntity) : bool :=
  Z.eqb (re_source_id r) source_id && String.eqb (re_entity_type r) entity_type
  && String.eqb (re_source_key r) source_key.

(** [now] is the function's [_utc_now()], [flush_now] the instant the
    ORM's [onupdate] hook reads at commit. Returns the table after the
    commit and [(entity, created, updated)]. *)
Definition upsert_raw_entity (rows : list RawEntity) (now flush_now : Z)
    (source_id : Z) (entity_type source_key : string) (payload : json)
    (name : option string) (srd : option bool) (url : option string)
  : result (list RawEntity * (RawEntity * bool * bool)) :=
  let raw_hash := canonical_json_hash payload in
  existing ← one_or_none (filter (raw_scope source_id entity_type source_key) rows);
  match existing with
  | None =>
      let entity := {| re_id := fresh_id (map re_id rows); re_source_id := source_id;
                       re_entity_type := entity_type; re_source_key := source_key;
                       re_name := name; re_srd := srd; re_url := url;
                       re_raw_json := payload; re_raw_hash := raw_hash;
                       re_retrieved_at := now; re_created_at := now;
                       re_updated_at := now |} in
      Ok (rows ++ [entity], (entity, true, false))
  | Some e =>
      if String.eqb (re_raw_hash e) raw_hash then
        let e1 := {| re_id := re_id e; re_source_id := re_source_id e;
                     re_entity_type := re_entity_type e; re_source_key := re_source_key e;
                     re_name := re_name e; re_srd := re_srd e; re_url := re_url e;
                     re_raw_json := re_raw_json e; re_raw_hash := re_raw_hash e;
                     re_retrieved_at := now; re_created_at := re_created_at e;
                     re_updated_at := re_updated_at e |} in
        let e2 := flush_update e1 false flush_now in
        Ok (replace_row e e2 rows, (e2, false, false))
      else
        let e1 := {| re_id := re_id e; re_source_id := re_source_id e;
                     re_entity_type := re_entity_type e; re_source_key := re_source_key e;
                     re_name := name; re_srd := srd; re_url := url;
                     re_raw_json := payload; re_raw_hash := raw_hash;
                     re_retrieved_at := now; re_created_at := re_created_at e;
                     re_updated_at := now |} in
        let e2 := flush_update e1 true flush_now in
        Ok (replace_row e e2 rows, (e2, false, true))
  end.

(* ------------------------------------------------------------------ *)
(** ** Helpers shared by the loaders (load_choices.py, load_prereqs.py,
       load_grants.py) *)

(** [re.sub(r"[^a-zA-Z0-9]+", "-", s)]: every maximal run of other
    characters becomes one dash. *)
Fixpoint slug_runs (s : string) (in_run : bool) : string :=
  match s with
  | EmptyString => EmptyString
  | String c r =>
      if is_alnum_ascii c then String c (slug_runs r false)
      else if in_run then slug_runs r true
      else String "-"%char (slug_runs r true)
  end.

Definition _slugify (value : string) : string :=
  let base := py_lower (py_strip value) in
  let slug := strip_dash (slug_runs base false) in
  if String.eqb slug "" then base else slug.

(** [s in ("a", "b", ...)] and [s in {"a", "b", ...}]. *)
Definition py_in_list (s : string) (l : list string) : bool := existsb (String.eqb s) l.

(** Python's [a or b] on JSON values. *)
Definition json_or (a b : json) : json := if truthy a then a else b.

(** Truthiness of an optional string. *)
Definition ostr_truthy (o : option string) : bool :=
  match o with Some s => negb (String.eqb s "") | None => false end.

(** Truthiness of an optional int. *)
Definition oint_truthy (o : option Z) : bool :=
  match o with Some z => negb (z =? 0) | None => false end.

(** [a or <rest>] where [a] is an already evaluated [_coerce_int] result
    and [<rest>] is only evaluated when [a] is falsy. *)
Definition or_coerce (a : option Z) (rest : result (option Z)) : result (option Z) :=
  if oint_truthy a then Ok a else rest.

(** [payload.get(k)]: only a dict has [get]. *)
Definition payload_get (payload : json) (k : string) : result json :=
  match payload with
  | JObj kvs => Ok (dget kvs k)
  | _ => Err "AttributeError: object has no attribute 'get'"
  end.

(** The [{entry.source_key: entry for entry in rows}] dicts: the last row
    of a repeated key wins. *)
Definition by_key_get (rows : list Entity) (k : string) : option Entity :=
  find (fun e => String.eqb (ent_source_key e) k) (rev rows).

Definition of_source (src : Z) (rows : list Entity) : list Entity :=
  filter (fun e => Z.eqb (ent_source_id e) src) rows.

(** [str(v)] for [" ".join(entry for entry in value if isinstance(entry, str))]. *)
Definition str_entries (l : list json) : list string :=
  flat_map (fun v => match v with JStr s => [s] | _ => [] end) l.

(* ------------------------------------------------------------------ *)
(** ** load_choices.py: the pure helpers *)

Definition _is_choice_like (node : list (string * json)) : bool :=
  (dhas node "choose" || dhas node "choose_n" || dhas node "count")
  && (dhas node "from" || dhas node "options" || dhas node "option_set").

(** [_collect_choice_nodes]: pre-order walk, a dict before its values. *)
Fixpoint collect_visit (node : json) : list (list (string * json)) :=
  match node with
  | JObj kvs =>
      (if _is_choice_like kvs then [kvs] else [])
      ++ (fix go (l : list (string * json)) :=
            match l with [] => [] | kv :: r => collect_visit kv.2 ++ go r end) kvs
  | JArr l =>
      (fix go (l : list json) :=
         match l with [] => [] | x :: r => collect_visit x ++ go r end) l
  | _ => []
  end.

Definition _collect_choice_nodes (payload : json) : list (list (string * json)) :=
  collect_visit payload.

Definition _extract_options (node : list (string * json)) : list json :=
  let options_value := dget node "options" in
  let from_value := dget node "from" in
  let option_set_value := dget node "option_set" in
  let ov1 :=
    match from_value with
    | JObj f =>
        if dhas f "options" then dget f "options"
        else if dhas f "from" then dget f "from" else options_value
    | JArr _ => match options_value with JNull => from_value | _ => options_value end
    | _ => options_value
    end in
  let ov2 :=
    match option_set_value with
    | JObj o => if dhas o "options" then dget o "options" else ov1
    | _ => ov1
    end in
  let ov3 :=
    match ov2 with
    | JObj o => if dhas o "options" then dget o "options" else ov2
    | _ => ov2
    end in
  match ov3 with JArr l => l | _ => [] end.

Definition _normalize_option_type (value : json) : string :=
  if negb (truthy value) then "string"
  else
    let candidate := py_lower (py_strip (py_str value)) in
    if py_in_list candidate ["feature"; "class_feature"; "subclass_feature"] then "feature"
    else if py_in_list candidate ["spell"; "spells"] then "spell"
    else "string".

(** [isinstance(d.get(k), str)] with its value. *)
Definition get_str (d : list (string * json)) (k : string) : option string :=
  as_str (dget d k).

Definition _extract_label (opt : list (string * json)) : option string :=
  match get_str opt "name" with Some s => Some s | None =>
  match get_str opt "string" with Some s => Some s | None =>
  match get_str opt "label" with Some s => Some s | None =>
  match dget opt "item" with
  | JObj item => get_str item "name"
  | _ => None
  end end end end.

Definition _extract_source_key (opt : list (string * json)) : option string :=
  match get_str opt "index" with Some s => Some s | None =>
  match get_str opt "source_key" with Some s => Some s | None =>
  match dget opt "item" with
  | JObj item => get_str item "index"
  | _ => None
  end end end.

Definition _extract_reference_type (opt : list (string * json)) : option string :=
  let from_item :=
    match dget opt "item" with
    | JObj item =>
        match get_str item "type" with
        | Some t => Some (Some t)
        | None =>
            match get_str item "url" with
            | Some u => if py_in "/api/spells/" u then Some (Some "spell") else None
            | None => None
            end
        end
    | _ => None
    end in
  match from_item with
  | Some r => r
  | None =>
      match get_str opt "url" with
      | Some u => if py_in "/api/spells/" u then Some "spell" else None
      | None => None
      end
  end.

(** [_parse_option]: [(option_type, source_key, label)]. *)
Definition _parse_option (opt : json) (default_type : string) : string * string * string :=
  match opt with
  | JStr label => (default_type, _slugify label, label)
  | JObj o =>
      let option_type := json_or (json_or (dget o "option_type") (dget o "type"))
                                 (JStr default_type) in
      let ref_type := _extract_reference_type o in
      let option_type :=
        if decide (option_type = JStr "reference")
        then JStr (match ostr_or ref_type (Some default_type) with
                   | Some t => t | None => default_type end)
        else option_type in
      let label := _extract_label o in
      let source_key := _extract_source_key o in
      let label := if negb (ostr_truthy label) && ostr_truthy source_key
                   then source_key else label in
      let source_key := if negb (ostr_truthy source_key) && ostr_truthy label
                        then option_map _slugify label else source_key in
      let label := match label with
                   | Some l => if ostr_truthy label then l
                               else match ostr_or source_key (Some "unknown") with
                                    | Some k => k | None => "unknown" end
                   | None => match ostr_or source_key (Some "unknown") with
                             | Some k => k | None => "unknown" end
                   end in
      let source_key := match source_key with
                        | Some k => if ostr_truthy source_key then k else _slugify label
                        | None => _slugify label
                        end in
      (py_str option_type, source_key, label)
  | _ => (default_type, _slugify (py_str opt), py_str opt)
  end.

Definition _choice_notes (choice_node : list (string * json)) : option string :=
  let fix go (keys : list string) : option string :=
    match keys with
    | [] => None
    | key :: rest =>
        match dget choice_node key with
        | JStr v => Some v
        | JArr l =>
            let text := py_join " " (str_entries l) in
            if String.eqb text "" then go rest else Some text
        | _ => go rest
        end
    end in
  go ["name"; "desc"; "notes"].

Definition _choice_label (choice_node : list (string * json)) : option string :=
  match get_str choice_node "name" with Some s => Some s | None =>
  match get_str choice_node "label" with Some s => Some s | None =>
  get_str choice_node "title" end end.

(** [" ".join(token for token in [owner_name or "", owner_key or ""] if token).lower()]. *)
Definition _owner_text (owner_name owner_key : option string) : string :=
  let toks := [match ostr_or owner_name (Some "") with Some t => t | None => "" end;
               match ostr_or owner_key (Some "") with Some t => t | None => "" end] in
  py_lower (py_join " " (filter (fun t => negb (String.eqb t "")) toks)).

Definition _infer_fighting_style (choice_node : list (string * json)) (options : list json)
    (owner_name owner_key : option string) : bool :=
  let type_value := py_lower (py_str (json_or (dget choice_node "type") (JStr ""))) in
  let name_value := py_lower (py_str (json_or (dget choice_node "name") (JStr ""))) in
  if py_in "fighting" type_value && py_in "style" type_value then true
  else if py_in "fighting" name_value && py_in "style" name_value then true
  else
    let owner_text := _owner_text owner_name owner_key in
    if py_in "fighting style" owner_text || py_in "fighting-style" owner_text then true
    else
      existsb (fun option =>
        let '(label, source_key) :=
          match option with
          | JObj o => (_extract_label o, _extract_source_key o)
          | _ => (Some (py_str option), None)
          end in
        let option_text :=
          py_lower (py_join " "
            [match ostr_or label (Some "") with Some t => t | None => "" end;
             match ostr_or source_key (Some "") with Some t => t | None => "" end]) in
        py_in "fighting style" option_text || py_in "fighting-style" option_text)
      options.

Definition _choice_text (choice_node : list (string * json)) : string :=
  let parts := flat_map (fun key =>
                 match dget choice_node key with
                 | JStr v => [v]
                 | JArr l => str_entries l
                 | _ => []
                 end) ["type"; "name"; "label"; "title"; "desc"] in
  py_lower (py_join " " parts).

Definition _choice_keys_text (choice_node : list (string * json)) : string :=
  py_lower (py_join " " (map fst choice_node)).

Definition _options_have_spell_reference (options : list json) : bool :=
  existsb (fun option =>
    match option with
    | JObj o =>
        let option_type := json_or (dget o "option_type") (dget o "type") in
        match option_type with
        | JStr t => py_in "spell" (py_lower t)
        | _ => false
        end
        || match _extract_reference_type o with
           | Some r => String.eqb (py_lower r) "spell"
           | None => false
           end
        || match dget o "item" with
           | JObj item =>
               match get_str item "url" with
               | Some u => py_in "/api/spells/" u
               | None => false
               end
           | _ => false
           end
    | JStr s => py_in "spell" (py_lower s)
    | _ => false
    end) options.

Definition _infer_choice_type (choice_node : list (string * json)) (options : list json)
    (owner_name owner_key : option string) : string :=
  if _infer_fighting_style choice_node options owner_name owner_key then "fighting_style"
  else
    let choice_text := _choice_text choice_node in
    let key_text := _choice_keys_text choice_node in
    let owner_text := _owner_text owner_name owner_key in
    if py_in "invocation" choice_text || py_in "invocation" owner_text then "invocation"
    else if py_in "expertise" choice_text || py_in "expertise" owner_text then "expertise"
    else if py_in "spell" choice_text || py_in "cantrip" choice_text
            || py_in "spell" key_text || py_in "cantrip" key_text
            || py_in "spell" owner_text || py_in "cantrip" owner_text
            || _options_have_spell_reference options
    then "spell"
    else "generic".

Definition _build_choice_source_key (owner_type owner_key choice_type : string)
    (level : option Z) (label : option string) : string :=
  let level_token := match level with Some l => z_to_dec l | None => "na" end in
  let label_token := match label with
                     | Some l => if ostr_truthy label then _slugify l else "choice"
                     | None => "choice"
                     end in
  owner_type +:+ ":" +:+ owner_key +:+ ":" +:+ choice_type +:+ ":"
  +:+ level_token +:+ ":" +:+ label_token.

(* ------------------------------------------------------------------ *)
(** ** A [for] loop whose body may raise *)

Fixpoint foldM {A S : Type} (f : S -> A -> result S) (s : S) (l : list A) : result S :=
  match l with
  | [] => Ok s
  | x :: r => s' ← f s x; foldM f s' r
  end.

(** A second run of a loop over the same items, started from what the
    first run knew at its end, repeats no step that changes the state. *)
Section Settle.
Context {A S : Type} (f : S -> A -> result S).
(** [le s t]: [t] knows at least what [s] knows. *)
Variable le : S -> S -> Prop.
Context `{!PreOrder le}.
(** [same t t']: [t'] differs from [t] at most in bookkeeping that no
    step reads (counters of unresolved references). *)
Variable same : S -> S -> Prop.
Context `{!Equivalence same}.
Hypothesis le_same : forall s t t', le s t -> same t t' -> le s t'.
Hypothesis grow : forall s x s', f s x = Ok s' -> le s s'.
Hypothesis settle : forall s x s' t, f s x = Ok s' -> le s' t ->
  exists t', f t x = Ok t' /\ same t t'.

Lemma foldM_grow (l : list A) : forall s s', foldM f s l = Ok s' -> le s s'.
Proof.
  induction l as [|x r IH]; simpl; intros s s' H.
  - injection H as <-. reflexivity.
  - destruct (f s x) as [s1|e] eqn:E; simpl in H; [|discriminate].
    transitivity s1; [exact (grow _ _ _ E) | exact (IH _ _ H)].
Qed.

Lemma foldM_settle (l : list A) : forall s s' t, foldM f s l = Ok s' -> le s' t ->
  exists t', foldM f t l = Ok t' /\ same t t'.
Proof.
  induction l as [|x r IH]; simpl; intros s s' t H Hle.
  - exists t. split; reflexivity.
  - destruct (f s x) as [s1|e] eqn:E; simpl in H; [|discriminate].
    assert (Hle1 : le s1 t) by (transitivity s'; [exact (foldM_grow _ _ _ H) | exact Hle]).
    destruct (settle _ _ _ _ E Hle1) as [t1 [Ht1 Hs1]].
    rewrite Ht1. simpl.
    destruct (IH _ _ t1 H (le_same _ _ _ Hle Hs1)) as [t2 [Ht2 Hs2]].
    exists t2. split; [exact Ht2 | etransitivity; eassumption].
Qed.
End Settle.

(** The same, when the second run's loop body [g] may differ from the
    first one's [f] wherever a step changes nothing. *)
Lemma foldM_settle_to {A S : Type} (f g : S -> A -> result S) (le same : S -> S -> Prop)
    `{!PreOrder le} `{!Equivalence same} :
  (forall s t t', le s t -> same t t' -> le s t') ->
  (forall s x s', f s x = Ok s' -> le s s') ->
  (forall s x s' t, f s x = Ok s' -> le s' t -> exists t', g t x = Ok t' /\ same t t') ->
  forall l s s' t, foldM f s l = Ok s' -> le s' t ->
    exists t', foldM g t l = Ok t' /\ same t t'.
Proof.
  intros le_same grow settle l. induction l as [|x r IH]; simpl; intros s s' t H Hle.
  - exists t. split; reflexivity.
  - destruct (f s x) as [s1|e] eqn:E; simpl in H; [|discriminate].
    assert (Hle1 : le s1 t)
      by (transitivity s'; [exact (foldM_grow f le grow _ _ _ H) | exact Hle]).
    destruct (settle _ _ _ _ E Hle1) as [t1 [Ht1 Hs1]].
    rewrite Ht1. simpl.
    destruct (IH _ _ t1 H (le_same _ _ _ Hle Hs1)) as [t2 [Ht2 Hs2]].
    exists t2. split; [exact Ht2 | etransitivity; eassumption].
Qed.

(** A loop invariant. *)
Lemma foldM_inv {A S : Type} (f : S -> A -> result S) (P : S -> Prop) :
  (forall s x s', P s -> f s x = Ok s' -> P s') ->
  forall l s s', P s -> foldM f s l = Ok s' -> P s'.
Proof.
  intros Hstep l. induction l as [|x r IH]; simpl; intros s s' Hs H.
  - congruence.
  - destruct (f s x) as [s1|e] eqn:E; simpl in H; [|discriminate]. eauto.
Qed.

(* ------------------------------------------------------------------ *)
(** ** load_choices.py: [load_choices] *)

(** The key of [group_lookup]: source id, owner type, owner id, choice
    type, level and the [source_key] built for the node. *)
Definition GroupKey : Type := Z * string * Z * string * option Z * string.

(** The key of [option_keys]. *)
Definition option_key (o : ChoiceOption) : Z * string * string * string :=
  (co_group_id o, co_option_type o, co_option_source_key o, co_label o).

Definition no_source_key_attr : string :=
  "AttributeError: 'ChoiceGroup' object has no attribute 'source_key'".

(** [group_lookup] as the loop over [existing_groups] fills it: the key
    reads [group.source_key], an attribute [ChoiceGroup] does not have
    (models/choices.py), so the first existing group of the source raises;
    with none the dict starts empty. *)
Definition group_lookup_init (existing : list ChoiceGroup)
  : result (list (GroupKey * ChoiceGroup)) :=
  match existing with
  | [] => Ok []
  | _ :: _ => Err no_source_key_attr
  end.

(** [group_lookup.get(key)]. *)
Definition group_lookup_get (lookup : list (GroupKey * ChoiceGroup)) (key : GroupKey)
  : option ChoiceGroup :=
  option_map snd (find (fun p => bool_decide (p.1 = key)) lookup).

(** The join [ChoiceOption.choice_group_id == ChoiceGroup.id] restricted
    to the source. *)
Definition option_in_source (groups : list ChoiceGroup) (src : Z) (o : ChoiceOption) : bool :=
  existsb (fun g => Z.eqb (cg_id g) (co_group_id o) && Z.eqb (cg_source_id g) src) groups.

(** The columns of [uq_choice_groups_owner_choice] when none is NULL:
    SQLite lets rows with a NULL in a column of a UNIQUE constraint
    coexist, so only rows with a level and notes can collide. *)
Definition group_uq_key (g : ChoiceGroup) : option (Z * string * Z * string * Z * Z * string) :=
  match cg_level g, cg_notes g with
  | Some level, Some notes =>
      Some (cg_source_id g, cg_owner_type g, cg_owner_id g, cg_choice_type g,
            cg_choose_n g, level, notes)
  | _, _ => None
  end.

(** Inserting [g] violates [uq_choice_groups_owner_choice] because of the
    stored row [g']. *)
Definition group_conflict (g g' : ChoiceGroup) : bool :=
  match group_uq_key g with
  | Some k => bool_decide (group_uq_key g' = Some k)
  | None => false
  end.

Definition groups_uq_error : string :=
  "IntegrityError: UNIQUE constraint failed: choice_groups.source_id, choice_groups.owner_type, choice_groups.owner_id, choice_groups.choice_type, choice_groups.choose_n, choice_groups.level, choice_groups.notes".

(** [uq_choice_options_group_option] covers the four columns of
    [option_key], none of them nullable. *)
Definition options_uq_error : string :=
  "IntegrityError: UNIQUE constraint failed: choice_options.choice_group_id, choice_options.option_type, choice_options.option_source_key, choice_options.label".

(** The session's view during the run: the two tables with the rows the
    run added, [group_lookup], the set [option_keys], whether an option
    added since the last flush collides with a stored option, and the
    three counters. *)
Record ChoicesSt := mkChoicesSt {
  cs_groups : list ChoiceGroup;
  cs_options : list ChoiceOption;
  cs_lookup : list (GroupKey * ChoiceGroup);
  cs_option_keys : list (Z * string * string * string);
  cs_pending_conflict : bool;
  cs_group_created : Z;
  cs_option_created : Z;
  cs_missing : Z }.

Definition default_option_type (choice_type : string) : string :=
  if py_in_list choice_type ["fighting_style"; "invocation"] then "feature"
  else if String.eqb choice_type "spell" then "spell"
  else "string".

(** The body of [for option in options].  The [feature_id] passed to
    [ChoiceOption] is not a field of the model and SQLModel drops it:
    the row's [option_ref_id] stays NULL, only the missing-reference
    counter sees the lookup.  The INSERT waits for the next flush. *)
Definition choice_option_step (features : list Entity) (group : ChoiceGroup)
    (choice_type : string) (s : ChoicesSt) (option : json) : result ChoicesSt :=
  let '(option_type_raw, option_source_key, label) :=
    _parse_option option (default_option_type choice_type) in
  let option_type := _normalize_option_type (JStr option_type_raw) in
  let key := (cg_id group, option_type, option_source_key, label) in
  if bool_decide (key ∈ cs_option_keys s) then Ok s
  else
    let missing :=
      if String.eqb option_type "feature" then
        match by_key_get features option_source_key with
        | Some _ => 0
        | None => 1
        end
      else 0 in
    let row := {| co_id := fresh_id (map co_id (cs_options s));
                  co_group_id := cg_id group; co_option_type := option_type;
                  co_option_source_key := option_source_key; co_option_ref_id := None;
                  co_label := label |} in
    Ok {| cs_groups := cs_groups s; cs_options := cs_options s ++ [row];
          cs_lookup := cs_lookup s;
          cs_option_keys := cs_option_keys s ++ [key];
          cs_pending_conflict :=
            cs_pending_conflict s || bool_decide (key ∈ map option_key (cs_options s));
          cs_group_created := cs_group_created s;
          cs_option_created := cs_option_created s + 1;
          cs_missing := cs_missing s + missing |}.

(** The label a choice group gets when the node has none. *)
Definition default_choice_label (choice_type : string) (label : option string) : option string :=
  let label := if String.eqb choice_type "fighting_style" && negb (ostr_truthy label)
               then Some "Fighting Style" else label in
  let label := if String.eqb choice_type "expertise" && negb (ostr_truthy label)
               then Some "Expertise" else label in
  let label := if String.eqb choice_type "invocation" && negb (ostr_truthy label)
               then Some "Invocations" else label in
  if String.eqb choice_type "spell" && negb (ostr_truthy label)
  then Some "Spell Choice" else label.

(** [choose_n = _coerce_int(choose) or _coerce_int(choose_n) or _coerce_int(count)]. *)
Definition choice_choose_n (choice : list (string * json)) : result (option Z) :=
  c1 ← _coerce_int (dget choice "choose");
  or_coerce c1 (c2 ← _coerce_int (dget choice "choose_n");
                or_coerce c2 (_coerce_int (dget choice "count"))).

(** [level = _coerce_int(choice.get("level")) or _coerce_int(payload.get("level"))],
    then the owner's [level] attribute when that is [None]. *)
Definition choice_level (choice : list (string * json)) (payload : json) (owner : Entity)
  : result (option Z) :=
  l1 ← _coerce_int (dget choice "level");
  level ← or_coerce l1 (p ← payload_get payload "level"; _coerce_int p);
  match level with
  | None => Ok (ent_level owner)
  | Some _ => Ok level
  end.

(** A new group, its [session.add] and [session.flush()]: the flush
    INSERTs the group, then the options added since the last flush (the
    foreign key puts [choice_groups] first); a UNIQUE violation raises.
    The [label] and [source_key] passed to [ChoiceGroup] are not fields
    of the model and SQLModel drops them. *)
Definition add_group (s : ChoicesSt) (key : GroupKey) (group : ChoiceGroup) : result ChoicesSt :=
  if existsb (group_conflict group) (cs_groups s) then Err groups_uq_error
  else if cs_pending_conflict s then Err options_uq_error
  else Ok {| cs_groups := cs_groups s ++ [group]; cs_options := cs_options s;
             cs_lookup := cs_lookup s ++ [(key, group)];
             cs_option_keys := cs_option_keys s;
             cs_pending_conflict := false;
             cs_group_created := cs_group_created s + 1;
             cs_option_created := cs_option_created s;
             cs_missing := cs_missing s |}.

(** The body of [for choice in choices]. *)
Definition choice_step (src : Z) (features : list Entity) (owner_type : string)
    (owner : Entity) (payload : json) (s : ChoicesSt) (choice : list (string * json))
  : result ChoicesSt :=
  choose_n ← choice_choose_n choice;
  match choose_n with
  | None => Ok s
  | Some n =>
      level ← choice_level choice payload owner;
      let notes := _choice_notes choice in
      let options := _extract_options choice in
      let choice_type := _infer_choice_type choice options
                           (Some (ent_name owner)) (Some (ent_source_key owner)) in
      let label := default_choice_label choice_type (_choice_label choice) in
      let source_key := _build_choice_source_key owner_type (ent_source_key owner)
                          choice_type level label in
      let key : GroupKey := (src, owner_type, ent_id owner, choice_type, level, source_key) in
      p ← match group_lookup_get (cs_lookup s) key with
          | Some group => Ok (group, s)
          | None =>
              let group := {| cg_id := fresh_id (map cg_id (cs_groups s));
                              cg_source_id := src; cg_owner_type := owner_type;
                              cg_owner_id := ent_id owner; cg_choice_type := choice_type;
                              cg_choose_n := n; cg_level := level; cg_notes := notes |} in
              s1 ← add_group s key group;
              Ok (group, s1)
          end;
      let '(group, s1) := p in
      foldM (choice_option_step features group choice_type) s1 options
  end.

(** [raw_entity.raw_json or {}]. *)
Definition raw_payload (r : RawEntity) : json := json_or (re_raw_json r) (JObj []).

(** The body of [for raw_entity in raw_entities]. *)
Definition choices_raw_step (src : Z) (classes features : list Entity)
    (s : ChoicesSt) (r : RawEntity) : result ChoicesSt :=
  let payload := raw_payload r in
  let owner_type := re_entity_type r in
  let owner := if String.eqb owner_type "class" then by_key_get classes (re_source_key r)
               else by_key_get features (re_source_key r) in
  match owner with
  | None => Ok s
  | Some owner => foldM (choice_step src features owner_type owner payload) s
                        (_collect_choice_nodes payload)
  end.

Definition raw_of_types (src : Z) (types : list string) (rows : list RawEntity) : list RawEntity :=
  filter (fun r => Z.eqb (re_source_id r) src && py_in_list (re_entity_type r) types) rows.

Definition set_choices (db : DB) (groups : list ChoiceGroup) (options : list ChoiceOption) : DB :=
  {| db_sources := db_sources db; db_raw := db_raw db; db_classes := db_classes db;
     db_subclasses := db_subclasses db; db_features := db_features db;
     db_spells := db_spells db; db_items := db_items db;
     db_conditions := db_conditions db; db_monsters := db_monsters db;
     db_groups := groups; db_options := options; db_prereqs := db_prereqs db;
     db_grant_profs := db_grant_profs db; db_grant_spells := db_grant_spells db;
     db_grant_features := db_grant_features db;
     db_class_features := db_class_features db;
     db_subclass_features := db_subclass_features db;
     db_spell_classes := db_spell_classes db |}.

Definition groups_of_source (src : Z) (groups : list ChoiceGroup) : list ChoiceGroup :=
  filter (fun g => Z.eqb (cg_source_id g) src) groups.

(** The state the loop starts from. *)
Definition choices_init (db : DB) (src : Z) (lookup : list (GroupKey * ChoiceGroup))
  : ChoicesSt :=
  {| cs_groups := db_groups db; cs_options := db_options db; cs_lookup := lookup;
     cs_option_keys := map option_key (filter (option_in_source (db_groups db) src)
                                              (db_options db));
     cs_pending_conflict := false;
     cs_group_created := 0; cs_option_created := 0; cs_missing := 0 |}.

(** [load_choices]: the committed tables and the returned summary; an
    exception rolls back ([Err]).  The commit in [finally] flushes the
    options still pending. *)
Definition load_choices (db : DB) (source_name : string) : result (DB * list (string * Z)) :=
  source ← source_or_raise db source_name "Source not found. Run importers first.";
  let src := src_id source in
  let classes := of_source src (db_classes db) in
  let features := of_source src (db_features db) in
  group_lookup ← group_lookup_init (groups_of_source src (db_groups db));
  s ← foldM (choices_raw_step src classes features) (choices_init db src group_lookup)
            (raw_of_types src ["class"; "feature"] (db_raw db));
  if cs_pending_conflict s then Err options_uq_error
  else
    Ok (set_choices db (cs_groups s) (cs_options s),
        [("choice_groups_created", cs_group_created s);
         ("choice_options_created", cs_option_created s);
         ("unresolved_feature_refs", cs_missing s)]).

(* ------------------------------------------------------------------ *)
(** ** load_grants.py *)

Definition _extract_ref (item : json) : string * string :=
  let fallback := let label := py_str item in (_slugify label, label) in
  match item with
  | JObj d =>
      let label := as_str (dget d "name") in
      let key := as_str (json_or (dget d "index") (dget d "source_key")) in
      match label, key with
      | Some l, Some k => (k, l)
      | Some l, None => (_slugify l, l)
      | None, Some k => (k, k)
      | None, None => fallback
      end
  | JStr s => (_slugify s, s)
  | _ => fallback
  end.

Definition _extract_list (payload : json) (keys : list string) : result (list json) :=
  let fix go (keys : list string) : result (list json) :=
    match keys with
    | [] => Ok []
    | key :: rest =>
        value ← payload_get payload key;
        match value with JArr l => Ok l | _ => go rest end
    end in
  go keys.

Definition _extract_nested_list (payload : json) (parent_key child_key : string)
  : result (list json) :=
  parent ← payload_get payload parent_key;
  match parent with
  | JObj p => match dget p child_key with JArr l => Ok l | _ => Ok [] end
  | _ => Ok []
  end.

Definition proficiency_keys : list string :=
  ["proficiencies"; "starting_proficiencies"; "armor_proficiencies";
   "weapon_proficiencies"; "tool_proficiencies"; "skill_proficiencies"].

Definition _collect_proficiency_grants (payload : json)
  : result (list (string * string * string)) :=
  let fix go (keys : list string) : result (list (string * string * string)) :=
    match keys with
    | [] => Ok []
    | key :: rest =>
        items ← _extract_list payload [key];
        later ← go rest;
        Ok (map (fun item => let '(k, l) := _extract_ref item in (key, k, l)) items ++ later)
    end in
  go proficiency_keys.

Definition _collect_spell_grants (payload : json) : result (list (string * string)) :=
  top ← _extract_list payload ["spells"];
  nested ← _extract_nested_list payload "spellcasting" "spells";
  Ok (map _extract_ref top ++ map _extract_ref nested).

Definition _collect_feature_grants (payload : json) : result (list (string * string)) :=
  items ← _extract_list payload ["features"; "granted_features"];
  Ok (map _extract_ref items).

Definition prof_key (g : GrantProficiency) : Z * string * Z * string * string * string :=
  (gp_source_id g, gp_owner_type g, gp_owner_id g, gp_proficiency_type g,
   gp_proficiency_key g, gp_label g).
Definition spell_grant_key (g : GrantSpell) : Z * string * Z * string * string :=
  (gs_source_id g, gs_owner_type g, gs_owner_id g, gs_spell_source_key g, gs_label g).
Definition feature_grant_key (g : GrantFeature) : Z * string * Z * string * string :=
  (gf_source_id g, gf_owner_type g, gf_owner_id g, gf_feature_source_key g, gf_label g).

Record GrantsSt := mkGrantsSt {
  gr_profs : list GrantProficiency;
  gr_spells : list GrantSpell;
  gr_features : list GrantFeature;
  gr_prof_keys : list (Z * string * Z * string * string * string);
  gr_spell_keys : list (Z * string * Z * string * string);
  gr_feature_keys : list (Z * string * Z * string * string);
  gr_prof_created : Z;
  gr_spell_created : Z;
  gr_feature_created : Z;
  gr_missing : Z }.

(** The body of the proficiency loop. *)
Definition prof_step (src : Z) (owner_type : string) (owner_id : Z) (s : GrantsSt)
    (g : string * string * string) : result GrantsSt :=
  let '(prof_type, pkey, label) := g in
  let key := (src, owner_type, owner_id, prof_type, pkey, label) in
  if bool_decide (key ∈ gr_prof_keys s) then Ok s
  else
    let row := {| gp_source_id := src; gp_owner_type := owner_type; gp_owner_id := owner_id;
                  gp_proficiency_type := prof_type; gp_proficiency_key := pkey;
                  gp_label := label |} in
    Ok {| gr_profs := gr_profs s ++ [row]; gr_spells := gr_spells s;
          gr_features := gr_features s; gr_prof_keys := gr_prof_keys s ++ [key];
          gr_spell_keys := gr_spell_keys s; gr_feature_keys := gr_feature_keys s;
          gr_prof_created := gr_prof_created s + 1; gr_spell_created := gr_spell_created s;
          gr_feature_created := gr_feature_created s; gr_missing := gr_missing s |}.

(** The body of the spell-grant loop. *)
Definition spell_grant_step (src : Z) (spells : list Entity) (owner_type : string)
    (owner_id : Z) (s : GrantsSt) (g : string * string) : result GrantsSt :=
  let '(spell_key, label) := g in
  let key := (src, owner_type, owner_id, spell_key, label) in
  if bool_decide (key ∈ gr_spell_keys s) then Ok s
  else
    let '(spell_id, missing) :=
      match by_key_get spells spell_key with
      | Some spell => (Some (ent_id spell), 0)
      | None => (None, 1)
      end in
    let row := {| gs_source_id := src; gs_owner_type := owner_type; gs_owner_id := owner_id;
                  gs_spell_source_key := spell_key; gs_label := label;
                  gs_spell_id := spell_id |} in
    Ok {| gr_profs := gr_profs s; gr_spells := gr_spells s ++ [row];
          gr_features := gr_features s; gr_prof_keys := gr_prof_keys s;
          gr_spell_keys := gr_spell_keys s ++ [key]; gr_feature_keys := gr_feature_keys s;
          gr_prof_created := gr_prof_created s; gr_spell_created := gr_spell_created s + 1;
          gr_feature_created := gr_feature_created s; gr_missing := gr_missing s + missing |}.

(** The body of the feature-grant loop. *)
Definition feature_grant_step (src : Z) (features : list Entity) (owner_type : string)
    (owner_id : Z) (s : GrantsSt) (g : string * string) : result GrantsSt :=
  let '(feature_key, label) := g in
  let key := (src, owner_type, owner_id, feature_key, label) in
  if bool_decide (key ∈ gr_feature_keys s) then Ok s
  else
    let '(feature_id, missing) :=
      match by_key_get features feature_key with
      | Some feature => (Some (ent_id feature), 0)
      | None => (None, 1)
      end in
    let row := {| gf_source_id := src; gf_owner_type := owner_type; gf_owner_id := owner_id;
                  gf_feature_source_key := feature_key; gf_label := label;
                  gf_feature_id := feature_id |} in
    Ok {| gr_profs := gr_profs s; gr_spells := gr_spells s;
          gr_features := gr_features s ++ [row]; gr_prof_keys := gr_prof_keys s;
          gr_spell_keys := gr_spell_keys s; gr_feature_keys := gr_feature_keys s ++ [key];
          gr_prof_created := gr_prof_created s; gr_spell_created := gr_spell_created s;
          gr_feature_created := gr_feature_created s + 1;
          gr_missing := gr_missing s + missing |}.

(** The body of [for raw_entity in raw_entities]. *)
Definition grants_raw_step (src : Z) (classes subclasses features spells : list Entity)
    (s : GrantsSt) (r : RawEntity) : result GrantsSt :=
  let payload := raw_payload r in
  let owner_type := re_entity_type r in
  let owner :=
    if String.eqb owner_type "class" then by_key_get classes (re_source_key r)
    else if String.eqb owner_type "subclass" then by_key_get subclasses (re_source_key r)
    else by_key_get features (re_source_key r) in
  match owner with
  | None => Ok s
  | Some owner =>
      profs ← _collect_proficiency_grants payload;
      s1 ← foldM (prof_step src owner_type (ent_id owner)) s profs;
      spell_grants ← _collect_spell_grants payload;
      s2 ← foldM (spell_grant_step src spells owner_type (ent_id owner)) s1 spell_grants;
      feature_grants ← _collect_feature_grants payload;
      foldM (feature_grant_step src features owner_type (ent_id owner)) s2 feature_grants
  end.

Definition set_grants (db : DB) (profs : list GrantProficiency) (spells : list GrantSpell)
    (features : list GrantFeature) : DB :=
  {| db_sources := db_sources db; db_raw := db_raw db; db_classes := db_classes db;
     db_subclasses := db_subclasses db; db_features := db_features db;
     db_spells := db_spells db; db_items := db_items db;
     db_conditions := db_conditions db; db_monsters := db_monsters db;
     db_groups := db_groups db; db_options := db_options db; db_prereqs := db_prereqs db;
     db_grant_profs := profs; db_grant_spells := spells; db_grant_features := features;
     db_class_features := db_class_features db;
     db_subclass_features := db_subclass_features db;
     db_spell_classes := db_spell_classes db |}.

Definition grants_init (db : DB) (src : Z) : GrantsSt :=
  {| gr_profs := db_grant_profs db; gr_spells := db_grant_spells db;
     gr_features := db_grant_features db;
     gr_prof_keys := map prof_key
       (filter (fun g => Z.eqb (gp_source_id g) src) (db_grant_profs db));
     gr_spell_keys := map spell_grant_key
       (filter (fun g => Z.eqb (gs_source_id g) src) (db_grant_spells db));
     gr_feature_keys := map feature_grant_key
       (filter (fun g => Z.eqb (gf_source_id g) src) (db_grant_features db));
     gr_prof_created := 0; gr_spell_created := 0; gr_feature_created := 0;
     gr_missing := 0 |}.

Definition load_grants (db : DB) (source_name : string) : result (DB * list (string * Z)) :=
  source ← source_or_raise db source_name "Source not found. Run importers first.";
  let src := src_id source in
  let classes := of_source src (db_classes db) in
  let features := of_source src (db_features db) in
  let subclasses := of_source src (db_subclasses db) in
  let spells := of_source src (db_spells db) in
  s ← foldM (grants_raw_step src classes subclasses features spells) (grants_init db src)
            (raw_of_types src ["class"; "feature"; "subclass"] (db_raw db));
  Ok (set_grants db (gr_profs s) (gr_spells s) (gr_features s),
      [("grant_proficiencies_created", gr_prof_created s);
       ("grant_spells_created", gr_spell_created s);
       ("grant_features_created", gr_feature_created s);
       ("missing_refs", gr_missing s)]).

(* ------------------------------------------------------------------ *)
(** ** load_grants: a second run writes nothing *)

Definition gr_le (s t : GrantsSt) : Prop :=
  (forall k, k ∈ gr_prof_keys s -> k ∈ gr_prof_keys t) /\
  (forall k, k ∈ gr_spell_keys s -> k ∈ gr_spell_keys t) /\
  (forall k, k ∈ gr_feature_keys s -> k ∈ gr_feature_keys t).

#[global] Instance gr_le_preorder : PreOrder gr_le.
Proof.
  split.
  - intros s. repeat split; auto.
  - intros s t u (H1 & H2 & H3) (H4 & H5 & H6). repeat split; auto.
Qed.

Lemma gr_le_eq s t t' : gr_le s t -> t = t' -> gr_le s t'.
Proof. intros H <-. exact H. Qed.

(** Every key of a set is the key of a row of the source in its table. *)
Definition gr_inv (src : Z) (s : GrantsSt) : Prop :=
  (forall k, k ∈ gr_prof_keys s ->
     exists g, In g (gr_profs s) /\ prof_key g = k /\ gp_source_id g = src) /\
  (forall k, k ∈ gr_spell_keys s ->
     exists g, In g (gr_spells s) /\ spell_grant_key g = k /\ gs_source_id g = src) /\
  (forall k, k ∈ gr_feature_keys s ->
     exists g, In g (gr_features s) /\ feature_grant_key g = k /\ gf_source_id g = src).

(** The three loop bodies: skip a known key, or add the row and its key. *)
Ltac grant_step_cases :=
  case_bool_decide as Hin;
  [ intros [= <-]
  | try (match goal with |- context [match by_key_get ?l ?k with _ => _ end] =>
           destruct (by_key_get l k) end);
    intros [= <-] ].

Lemma grant_steps_grow src spells features ot oid :
  (forall s x s', prof_step src ot oid s x = Ok s' -> gr_le s s') /\
  (forall s x s', spell_grant_step src spells ot oid s x = Ok s' -> gr_le s s') /\
  (forall s x s', feature_grant_step src features ot oid s x = Ok s' -> gr_le s s').
Proof.
  refine (conj _ (conj _ _)); intros s x s';
    [destruct x as [[a b] c]; unfold prof_step
    | destruct x as [a b]; unfold spell_grant_step
    | destruct x as [a b]; unfold feature_grant_step];
    grant_step_cases; try reflexivity; repeat split; simpl; set_solver.
Qed.

Lemma grant_steps_settle src spells spells2 features ot oid :
  (forall s x s' t, prof_step src ot oid s x = Ok s' -> gr_le s' t ->
     exists t', prof_step src ot oid t x = Ok t' /\ t = t') /\
  (forall s x s' t, spell_grant_step src spells ot oid s x = Ok s' -> gr_le s' t ->
     exists t', spell_grant_step src spells2 ot oid t x = Ok t' /\ t = t') /\
  (forall s x s' t, feature_grant_step src features ot oid s x = Ok s' -> gr_le s' t ->
     exists t', feature_grant_step src features ot oid t x = Ok t' /\ t = t').
Proof.
  refine (conj _ (conj _ _)); intros s x s' t;
    [destruct x as [[a b] c]; unfold prof_step
    | destruct x as [a b]; unfold spell_grant_step
    | destruct x as [a b]; unfold feature_grant_step];
    intros H (H1 & H2 & H3); exists t; (split; [|reflexivity]);
    rewrite bool_decide_true; try reflexivity;
    revert H; grant_step_cases; simpl in *; set_solver.
Qed.

Lemma grant_steps_inv src spells features ot oid :
  (forall s x s', gr_inv src s -> prof_step src ot oid s x = Ok s' -> gr_inv src s') /\
  (forall s x s', gr_inv src s -> spell_grant_step src spells ot oid s x = Ok s' ->
     gr_inv src s') /\
  (forall s x s', gr_inv src s -> feature_grant_step src features ot oid s x = Ok s' ->
     gr_inv src s').
Proof.
  refine (conj _ (conj _ _)); intros s x s' (I1 & I2 & I3);
    [destruct x as [[a b] c]; unfold prof_step
    | destruct x as [a b]; unfold spell_grant_step
    | destruct x as [a b]; unfold feature_grant_step];
    grant_step_cases; try (repeat split; assumption);
    repeat split; simpl; intros k Hk;
    first [ apply elem_of_app in Hk as [Hk|Hk];
            [ first [ destruct (I1 k Hk) as (g & ? & ? & ?)
                    | destruct (I2 k Hk) as (g & ? & ? & ?)
                    | destruct (I3 k Hk) as (g & ? & ? & ?) ];
              exists g; split; [apply in_or_app; left|]; auto
            | apply list_elem_of_singleton in Hk; subst k; eexists;
              split; [apply in_or_app; right; left; reflexivity | split; reflexivity] ]
          | auto ].
Qed.

Lemma grants_raw_step_grow src classes subclasses features spells s r s' :
  grants_raw_step src classes subclasses features spells s r = Ok s' -> gr_le s s'.
Proof.
  unfold grants_raw_step.
  destruct (if String.eqb _ "class" then _ else _) as [owner|]; [|intros [= <-]; reflexivity].
  destruct (grant_steps_grow src spells features (re_entity_type r) (ent_id owner))
    as [G1 [G2 G3]].
  destruct (_collect_proficiency_grants _) as [p|e]; simpl; [|discriminate].
  destruct (foldM _ s p) as [s1|e] eqn:E1; simpl; [|discriminate].
  destruct (_collect_spell_grants _) as [sp|e]; simpl; [|discriminate].
  destruct (foldM _ s1 sp) as [s2|e] eqn:E2; simpl; [|discriminate].
  destruct (_collect_feature_grants _) as [fg|e]; simpl; [|discriminate].
  intros E3.
  transitivity s1; [exact (foldM_grow _ gr_le G1 _ _ _ E1)|].
  transitivity s2; [exact (foldM_grow _ gr_le G2 _ _ _ E2)|].
  exact (foldM_grow _ gr_le G3 _ _ _ E3).
Qed.

Lemma grants_raw_step_settle src classes subclasses features spells spells2 s r s' t :
  grants_raw_step src classes subclasses features spells s r = Ok s' -> gr_le s' t ->
  exists t', grants_raw_step src classes subclasses features spells2 t r = Ok t' /\ t = t'.
Proof.
  unfold grants_raw_step.
  destruct (if String.eqb _ "class" then _ else _) as [owner|];
    [|intros _ _; exists t; split; reflexivity].
  destruct (grant_steps_grow src spells features (re_entity_type r) (ent_id owner))
    as [G1 [G2 G3]].
  destruct (grant_steps_settle src spells spells2 features (re_entity_type r) (ent_id owner))
    as [S1 [S2 S3]].
  destruct (_collect_proficiency_grants _) as [p|e]; simpl; [|discriminate].
  destruct (foldM _ s p) as [s1|e] eqn:E1; simpl; [|discriminate].
  destruct (_collect_spell_grants _) as [sp|e]; simpl; [|discriminate].
  destruct (foldM _ s1 sp) as [s2|e] eqn:E2; simpl; [|discriminate].
  destruct (_collect_feature_grants _) as [fg|e]; simpl; [|discriminate].
  intros E3 Hle.
  assert (L3 := foldM_grow _ gr_le G3 _ _ _ E3).
  assert (L2 := foldM_grow _ gr_le G2 _ _ _ E2).
  destruct (foldM_settle _ gr_le eq gr_le_eq G1 S1 _ _ _ t E1
              ltac:(etransitivity; [exact L2|]; etransitivity; [exact L3|exact Hle]))
    as [t1 [-> <-]].
  simpl.
  destruct (foldM_settle_to _ _ gr_le eq gr_le_eq G2 S2 _ _ _ t E2
              ltac:(etransitivity; [exact L3|exact Hle])) as [t2 [-> <-]].
  simpl. exact (foldM_settle _ gr_le eq gr_le_eq G3 S3 _ _ _ t E3 Hle).
Qed.

Lemma grants_raw_step_inv src classes subclasses features spells s r s' :
  gr_inv src s -> grants_raw_step src classes subclasses features spells s r = Ok s' ->
  gr_inv src s'.
Proof.
  unfold grants_raw_step. intros Hinv.
  destruct (if String.eqb _ "class" then _ else _) as [owner|]; [|intros [= <-]; exact Hinv].
  destruct (grant_steps_inv src spells features (re_entity_type r) (ent_id owner))
    as [I1 [I2 I3]].
  destruct (_collect_proficiency_grants _) as [p|e]; simpl; [|discriminate].
  destruct (foldM _ s p) as [s1|e] eqn:E1; simpl; [|discriminate].
  destruct (_collect_spell_grants _) as [sp|e]; simpl; [|discriminate].
  destruct (foldM _ s1 sp) as [s2|e] eqn:E2; simpl; [|discriminate].
  destruct (_collect_feature_grants _) as [fg|e]; simpl; [|discriminate].
  intros E3.
  refine (foldM_inv _ _ I3 _ _ _ _ E3).
  refine (foldM_inv _ _ I2 _ _ _ _ E2).
  exact (foldM_inv _ _ I1 _ _ _ Hinv E1).
Qed.

Lemma grants_init_inv db src : gr_inv src (grants_init db src).
Proof.
  refine (conj _ (conj _ _)); simpl; intros k Hk;
    apply list_elem_of_In, in_map_iff in Hk as (g & <- & Hg);
    apply list_elem_of_In, list_elem_of_filter in Hg as [Hs Hg];
    exists g; (split; [by apply list_elem_of_In|]); (split; [reflexivity|]);
    apply Is_true_true, Z.eqb_eq in Hs; exact Hs.
Qed.

(** A second [load_grants] against the tables the first one committed
    adds no row and reports zero created rows and zero missing
    references. *)
Lemma load_grants_rerun db name db1 c :
  load_grants db name = Ok (db1, c) ->
  load_grants db1 name =
    Ok (db1, [("grant_proficiencies_created", 0); ("grant_spells_created", 0);
              ("grant_features_created", 0); ("missing_refs", 0)]).
Proof.
  unfold load_grants.
  destruct (source_or_raise db name _) as [source|e] eqn:Hsrc; simpl; [|discriminate].
  destruct (foldM _ _ _) as [sf|e] eqn:Hf; simpl; [|discriminate].
  intros [= <- _].
  set (db1 := set_grants db (gr_profs sf) (gr_spells sf) (gr_features sf)).
  replace (source_or_raise db1 name _) with (source_or_raise db name
    "Source not found. Run importers first.") by reflexivity.
  rewrite Hsrc. simpl.
  set (src := src_id source) in *.
  assert (Hinv : gr_inv src sf).
  { refine (foldM_inv _ _ _ _ _ _ (grants_init_inv db src) Hf).
    intros. eapply grants_raw_step_inv; eassumption. }
  assert (Hle : gr_le sf (grants_init db1 src)).
  { destruct Hinv as (I1 & I2 & I3).
    refine (conj _ (conj _ _)); simpl; intros k Hk;
      [destruct (I1 k Hk) as (g & Hg & <- & Hs)
      |destruct (I2 k Hk) as (g & Hg & <- & Hs)
      |destruct (I3 k Hk) as (g & Hg & <- & Hs)];
      apply list_elem_of_In, in_map, list_elem_of_In, list_elem_of_filter;
      (split; [apply Is_true_true, Z.eqb_eq; exact Hs | by apply list_elem_of_In]). }
  destruct (foldM_settle _ gr_le eq gr_le_eq
              (grants_raw_step_grow _ _ _ _ _) (grants_raw_step_settle _ _ _ _ _ _)
              _ _ _ _ Hf Hle) as [t [Ht <-]].
  change (db_classes db1) with (db_classes db).
  change (db_subclasses db1) with (db_subclasses db).
  change (db_features db1) with (db_features db).
  change (db_spells db1) with (db_spells db).
  change (db_raw db1) with (db_raw db).
  rewrite Ht. simpl. f_equal.
Qed.

(* ------------------------------------------------------------------ *)
(** ** load_prereqs.py *)

Definition _extract_key (value : json) : option string :=
  match value with
  | JObj d =>
      match dget d "index" with
      | JStr i => Some i
      | _ => match dget d "name" with JStr n => Some (_slugify n) | _ => None end
      end
  | JStr s => Some (_slugify s)
  | _ => None
  end.

(** [node.get(key)] for the four keys in turn. *)
Definition _extract_prereq_nodes (node : json) : result (list (list (string * json))) :=
  let fix go (keys : list string) : result (list (list (string * json))) :=
    match keys with
    | [] => Ok []
    | key :: rest =>
        value ← payload_get node key;
        match value with
        | JArr l => Ok (flat_map (fun e => match e with JObj d => [d] | _ => [] end) l)
        | JObj d => Ok [d]
        | _ => go rest
        end
    end in
  go ["prerequisites"; "prerequisite"; "requirements"; "requirement"].

Definition _entry_notes (entry : list (string * json)) : option string :=
  match get_str entry "name" with Some s => Some s | None =>
  match get_str entry "desc" with Some s => Some s | None =>
  get_str entry "note" end end.

(** [x or "default"] for an optional string. *)
Definition str_or (a : option string) (default : string) : string :=
  match ostr_or a (Some default) with Some s => s | None => default end.

(** [_coerce_int(a)], then [_coerce_int(b)] when that is [None]. *)
Definition coerce_first (a b : json) : result (option Z) :=
  x ← _coerce_int a;
  match x with Some _ => Ok x | None => _coerce_int b end.

(** [(prereq_type, key, operator, value, notes)] rows of one entry. *)
Definition _parse_prereq_entry (entry : list (string * json))
  : result (list (string * string * string * string * option string)) :=
  let entry_type := py_lower (py_str (json_or (dget entry "type") (JStr ""))) in
  let op := py_strip (py_str (json_or (dget entry "operator") (JStr ""))) in
  let operator := if String.eqb op "" then None else Some op in
  let notes := _entry_notes entry in
  level_value ← coerce_first (dget entry "level") (dget entry "minimum_level");
  let has_level := match level_value with Some _ => true | None => false end in
  let level_rows :=
    match level_value with
    | Some lv => [("level", str_or (_extract_key (dget entry "class")) "any",
                   str_or operator ">=", z_to_dec lv, notes)]
    | None => []
    end in
  let class_key := _extract_key (dget entry "class") in
  let class_rows :=
    match class_key with
    | Some ck =>
        if ostr_truthy class_key &&
           (String.eqb entry_type "class" ||
            (dhas entry "class" && negb has_level && negb (String.eqb entry_type "level")))
        then [("class", ck, str_or operator "==", "true", notes)] else []
    | None => []
    end in
  let subclass_key := _extract_key (dget entry "subclass") in
  let subclass_rows :=
    match subclass_key with
    | Some sk =>
        if ostr_truthy subclass_key &&
           (String.eqb entry_type "subclass" || dhas entry "subclass")
        then [("subclass", sk, str_or operator "==", "true", notes)] else []
    | None => []
    end in
  let ability_value := json_or (dget entry "ability_score") (dget entry "ability") in
  let ability_key := ostr_or (_extract_key ability_value)
                             (_extract_key (dget entry "ability_score")) in
  min1 ← _coerce_int (dget entry "minimum_score");
  min_score ← (match min1 with
               | Some _ => Ok min1
               | None => coerce_first (dget entry "score") (dget entry "value")
               end);
  let ability_rows :=
    match ability_key, min_score with
    | Some ak, Some ms =>
        if ostr_truthy ability_key
        then [("ability", ak, str_or operator ">=", z_to_dec ms, notes)] else []
    | _, _ => []
    end in
  let feature_key := ostr_or (_extract_key (dget entry "feature"))
                             (_extract_key (dget entry "prerequisite_feature")) in
  let feature_rows :=
    match feature_key with
    | Some fk =>
        if ostr_truthy feature_key &&
           (String.eqb entry_type "feature" || dhas entry "feature")
        then [("feature", fk, str_or operator "==", "true", notes)] else []
    | None => []
    end in
  Ok (level_rows ++ class_rows ++ subclass_rows ++ ability_rows ++ feature_rows).

Definition _iter_prereqs (nodes : list (list (string * json)))
  : result (list (string * string * string * string * option string)) :=
  let fix go (nodes : list (list (string * json))) :=
    match nodes with
    | [] => Ok []
    | entry :: rest =>
        rows ← _parse_prereq_entry entry;
        later ← go rest;
        Ok (rows ++ later)
    end in
  go nodes.

Definition prereq_key (p : Prerequisite) : string * Z * string * string * string * string :=
  (pr_applies_to_type p, pr_applies_to_id p, pr_prereq_type p, pr_key p,
   pr_operator p, pr_value p).

(** [d.get(k)] on a dict built from pairs, the last one winning. *)
Fixpoint assoc_get {V} (k : string) (d : list (string * V)) : option V :=
  match d with
  | [] => None
  | (k', v) :: r =>
      match assoc_get k r with
      | Some x => Some x
      | None => if String.eqb k k' then Some v else None
      end
  end.

(** [choice_groups_by_source_key]: the comprehension's filter reads
    [group.source_key], an attribute [ChoiceGroup] does not have
    (models/choices.py), so it raises on the source's first group; with
    none the dict is empty. *)
Definition choice_groups_by_source_key (groups : list ChoiceGroup) (src : Z)
  : result (list (string * ChoiceGroup)) :=
  match groups_of_source src groups with
  | [] => Ok []
  | _ :: _ => Err no_source_key_attr
  end.

Record PrereqSt := mkPrereqSt {
  ps_prereqs : list Prerequisite;
  ps_keys : list (string * Z * string * string * string * string);
  ps_created : Z;
  ps_missing : Z }.

(** The body of both [for prereq_type, key, operator, value, notes in prereqs]
    loops; [applies_to_type] is ["feature"] or ["choice_group"]. *)
Definition prereq_step (applies_to_type : string) (applies_to_id : Z) (s : PrereqSt)
    (row : string * string * string * string * option string) : result PrereqSt :=
  let '(prereq_type, key, operator, value, notes) := row in
  let k := (applies_to_type, applies_to_id, prereq_type, key, operator, value) in
  if bool_decide (k ∈ ps_keys s) then Ok s
  else
    Ok {| ps_prereqs := ps_prereqs s ++
            [{| pr_applies_to_type := applies_to_type; pr_applies_to_id := applies_to_id;
                pr_prereq_type := prereq_type; pr_key := key; pr_operator := operator;
                pr_value := value; pr_notes := notes |}];
          ps_keys := ps_keys s ++ [k];
          ps_created := ps_created s + 1;
          ps_missing := ps_missing s |}.

(** The body of [for choice in choice_nodes]. *)
Definition prereq_choice_step (by_source_key : list (string * ChoiceGroup)) (owner_type : string)
    (owner : Entity) (payload : json) (s : PrereqSt) (choice : list (string * json))
  : result PrereqSt :=
  choice_prereqs ← _extract_prereq_nodes (JObj choice);
  match choice_prereqs with
  | [] => Ok s
  | _ =>
      level ← choice_level choice payload owner;
      let options := _extract_options choice in
      let choice_type := _infer_choice_type choice options
                           (Some (ent_name owner)) (Some (ent_source_key owner)) in
      let label := default_choice_label choice_type (_choice_label choice) in
      let choice_source_key := _build_choice_source_key owner_type (ent_source_key owner)
                                 choice_type level label in
      match assoc_get choice_source_key by_source_key with
      | None => Ok {| ps_prereqs := ps_prereqs s; ps_keys := ps_keys s;
                      ps_created := ps_created s; ps_missing := ps_missing s + 1 |}
      | Some choice_group =>
          prereqs ← _iter_prereqs choice_prereqs;
          foldM (prereq_step "choice_group" (cg_id choice_group)) s prereqs
      end
  end.

(** [if prereq_nodes and owner_type == "feature": ...]. *)
Definition feature_prereqs (owner_type : string) (owner : Entity)
    (prereq_nodes : list (list (string * json))) (s : PrereqSt) : result PrereqSt :=
  match prereq_nodes with
  | _ :: _ =>
      if String.eqb owner_type "feature" then
        prereqs ← _iter_prereqs prereq_nodes;
        foldM (prereq_step "feature" (ent_id owner)) s prereqs
      else Ok s
  | [] => Ok s
  end.

(** The body of [for raw_entity in raw_entities]. *)
Definition prereqs_raw_step (by_source_key : list (string * ChoiceGroup))
    (classes features : list Entity) (s : PrereqSt) (r : RawEntity) : result PrereqSt :=
  let payload := raw_payload r in
  let owner_type := re_entity_type r in
  let owner := if String.eqb owner_type "class" then by_key_get classes (re_source_key r)
               else by_key_get features (re_source_key r) in
  match owner with
  | None => Ok s
  | Some owner =>
      prereq_nodes ← _extract_prereq_nodes payload;
      s1 ← feature_prereqs owner_type owner prereq_nodes s;
      foldM (prereq_choice_step by_source_key owner_type owner payload) s1
            (_collect_choice_nodes payload)
  end.

Definition set_prereqs (db : DB) (prereqs : list Prerequisite) : DB :=
  {| db_sources := db_sources db; db_raw := db_raw db; db_classes := db_classes db;
     db_subclasses := db_subclasses db; db_features := db_features db;
     db_spells := db_spells db; db_items := db_items db;
     db_conditions := db_conditions db; db_monsters := db_monsters db;
     db_groups := db_groups db; db_options := db_options db; db_prereqs := prereqs;
     db_grant_profs := db_grant_profs db; db_grant_spells := db_grant_spells db;
     db_grant_features := db_grant_features db;
     db_class_features := db_class_features db;
     db_subclass_features := db_subclass_features db;
     db_spell_classes := db_spell_classes db |}.

Definition prereqs_init (db : DB) : PrereqSt :=
  {| ps_prereqs := db_prereqs db; ps_keys := map prereq_key (db_prereqs db);
     ps_created := 0; ps_missing := 0 |}.

Definition load_prereqs (db : DB) (source_name : string) : result (DB * list (string * Z)) :=
  source ← source_or_raise db source_name "Source not found. Run importers first.";
  let src := src_id source in
  let classes := of_source src (db_classes db) in
  let features := of_source src (db_features db) in
  by_source_key ← choice_groups_by_source_key (db_groups db) src;
  s ← foldM (prereqs_raw_step by_source_key classes features) (prereqs_init db)
            (raw_of_types src ["class"; "feature"] (db_raw db));
  Ok (set_prereqs db (ps_prereqs s),
      [("prereqs_created", ps_created s); ("missing_refs", ps_missing s)]).

(* ------------------------------------------------------------------ *)
(** ** load_prereqs: a second run writes nothing *)

#[local] Arguments _iter_prereqs : simpl never.

Definition ps_le (s t : PrereqSt) : Prop := forall k, k ∈ ps_keys s -> k ∈ ps_keys t.

(** Equal but for the count of unresolved choice groups. *)
Definition ps_same (t t' : PrereqSt) : Prop :=
  ps_prereqs t = ps_prereqs t' /\ ps_keys t = ps_keys t' /\ ps_created t = ps_created t'.

#[global] Instance ps_le_preorder : PreOrder ps_le.
Proof. split; [intros s k; auto | intros s t u H1 H2 k Hk; auto]. Qed.

#[global] Instance ps_same_equiv : Equivalence ps_same.
Proof.
  split.
  - intros t. repeat split.
  - intros t t' (H1 & H2 & H3). repeat split; congruence.
  - intros t t' t'' (H1 & H2 & H3) (H4 & H5 & H6). repeat split; congruence.
Qed.

Lemma ps_le_same s t t' : ps_le s t -> ps_same t t' -> ps_le s t'.
Proof. intros H (_ & H2 & _) k Hk. rewrite <- H2. auto. Qed.

Definition ps_inv (s : PrereqSt) : Prop :=
  forall k, k ∈ ps_keys s -> exists p, In p (ps_prereqs s) /\ prereq_key p = k.

Lemma prereq_step_grow at_type at_id s x s' :
  prereq_step at_type at_id s x = Ok s' -> ps_le s s'.
Proof.
  destruct x as [[[[pt k] op] v] n]. unfold prereq_step.
  case_bool_decide; intros [= <-]; [reflexivity|]. intros k' Hk. simpl. set_solver.
Qed.

Lemma prereq_step_settle at_type at_id s x s' t :
  prereq_step at_type at_id s x = Ok s' -> ps_le s' t ->
  exists t', prereq_step at_type at_id t x = Ok t' /\ ps_same t t'.
Proof.
  destruct x as [[[[pt k] op] v] n]. unfold prereq_step.
  intros H Hle. exists t. split; [|reflexivity].
  rewrite bool_decide_true; [reflexivity|]. apply Hle. revert H.
  case_bool_decide; intros [= <-]; [assumption|]. simpl. set_solver.
Qed.

Lemma prereq_step_inv at_type at_id s x s' :
  ps_inv s -> prereq_step at_type at_id s x = Ok s' -> ps_inv s'.
Proof.
  destruct x as [[[[pt k] op] v] n]. unfold prereq_step. intros Hinv.
  case_bool_decide; intros [= <-]; [exact Hinv|].
  intros k' Hk. simpl in Hk. apply elem_of_app in Hk as [Hk|Hk].
  - destruct (Hinv k' Hk) as (p & Hp & Hpk). exists p. split; [apply in_or_app; auto | auto].
  - apply list_elem_of_singleton in Hk. subst k'. eexists.
    split; [simpl; apply in_or_app; right; left; reflexivity | reflexivity].
Qed.

Lemma prereq_steps_grow at_type at_id l s s' :
  foldM (prereq_step at_type at_id) s l = Ok s' -> ps_le s s'.
Proof. apply foldM_grow; [apply _ | apply prereq_step_grow]. Qed.

Lemma prereq_steps_settle at_type at_id l s s' t :
  foldM (prereq_step at_type at_id) s l = Ok s' -> ps_le s' t ->
  exists t', foldM (prereq_step at_type at_id) t l = Ok t' /\ ps_same t t'.
Proof.
  exact (foldM_settle _ ps_le ps_same ps_le_same (prereq_step_grow at_type at_id)
           (prereq_step_settle at_type at_id) l s s' t).
Qed.

Lemma prereq_steps_inv at_type at_id l s s' :
  ps_inv s -> foldM (prereq_step at_type at_id) s l = Ok s' -> ps_inv s'.
Proof. apply foldM_inv. intros. eapply prereq_step_inv; eassumption. Qed.

Lemma prereq_choice_step_grow bsk ot owner payload s c s' :
  prereq_choice_step bsk ot owner payload s c = Ok s' -> ps_le s s'.
Proof.
  unfold prereq_choice_step.
  destruct (_extract_prereq_nodes (JObj c)) as [[|n ns]|e]; simpl;
    [intros [= <-]; reflexivity | | discriminate].
  destruct (choice_level c payload owner) as [level|e]; simpl; [|discriminate].
  destruct (assoc_get _ _) as [g|]; simpl; [|intros [= <-]; intros k; auto].
  destruct (_iter_prereqs _) as [ps|e]; simpl; [|discriminate].
  apply prereq_steps_grow.
Qed.

Lemma prereq_choice_step_settle bsk ot owner payload s c s' t :
  prereq_choice_step bsk ot owner payload s c = Ok s' -> ps_le s' t ->
  exists t', prereq_choice_step bsk ot owner payload t c = Ok t' /\ ps_same t t'.
Proof.
  unfold prereq_choice_step.
  destruct (_extract_prereq_nodes (JObj c)) as [[|n ns]|e]; simpl;
    [intros _ _; exists t; split; reflexivity | | discriminate].
  destruct (choice_level c payload owner) as [level|e]; simpl; [|discriminate].
  destruct (assoc_get _ _) as [g|]; simpl.
  - destruct (_iter_prereqs _) as [ps|e]; simpl; [|discriminate].
    apply prereq_steps_settle.
  - intros _ _. eexists. split; [reflexivity|]. repeat split.
Qed.

Lemma prereq_choice_step_inv bsk ot owner payload s c s' :
  ps_inv s -> prereq_choice_step bsk ot owner payload s c = Ok s' -> ps_inv s'.
Proof.
  intros Hinv. unfold prereq_choice_step.
  destruct (_extract_prereq_nodes (JObj c)) as [[|n ns]|e]; simpl;
    [intros [= <-]; exact Hinv | | discriminate].
  destruct (choice_level c payload owner) as [level|e]; simpl; [|discriminate].
  destruct (assoc_get _ _) as [g|]; simpl; [|intros [= <-]; exact Hinv].
  destruct (_iter_prereqs _) as [ps|e]; simpl; [|discriminate].
  apply prereq_steps_inv; exact Hinv.
Qed.

Lemma feature_prereqs_grow ot owner nodes s s' :
  feature_prereqs ot owner nodes s = Ok s' -> ps_le s s'.
Proof.
  unfold feature_prereqs. destruct nodes as [|n ns]; [intros [= <-]; reflexivity|].
  destruct (String.eqb ot "feature"); [|intros [= <-]; reflexivity].
  destruct (_iter_prereqs _) as [ps|e]; simpl; [apply prereq_steps_grow | discriminate].
Qed.

Lemma feature_prereqs_settle ot owner nodes s s' t :
  feature_prereqs ot owner nodes s = Ok s' -> ps_le s' t ->
  exists t', feature_prereqs ot owner nodes t = Ok t' /\ ps_same t t'.
Proof.
  unfold feature_prereqs.
  destruct nodes as [|n ns]; [intros _ _; exists t; split; reflexivity|].
  destruct (String.eqb ot "feature"); [|intros _ _; exists t; split; reflexivity].
  destruct (_iter_prereqs _) as [ps|e]; simpl; [apply prereq_steps_settle | discriminate].
Qed.

Lemma feature_prereqs_inv ot owner nodes s s' :
  ps_inv s -> feature_prereqs ot owner nodes s = Ok s' -> ps_inv s'.
Proof.
  unfold feature_prereqs. intros Hinv.
  destruct nodes as [|n ns]; [intros [= <-]; exact Hinv|].
  destruct (String.eqb ot "feature"); [|intros [= <-]; exact Hinv].
  destruct (_iter_prereqs _) as [ps|e]; simpl; [apply prereq_steps_inv, Hinv | discriminate].
Qed.

Lemma prereqs_raw_step_grow bsk classes features s r s' :
  prereqs_raw_step bsk classes features s r = Ok s' -> ps_le s s'.
Proof.
  unfold prereqs_raw_step.
  destruct (if String.eqb _ "class" then _ else _) as [owner|]; [|intros [= <-]; reflexivity].
  destruct (_extract_prereq_nodes _) as [nodes|e]; simpl; [|discriminate].
  destruct (feature_prereqs _ _ _ s) as [s1|e] eqn:E1; simpl; [|discriminate].
  intros E2. transitivity s1; [exact (feature_prereqs_grow _ _ _ _ _ E1)|].
  exact (foldM_grow _ ps_le (prereq_choice_step_grow _ _ _ _) _ _ _ E2).
Qed.

Lemma prereqs_raw_step_settle bsk classes features s r s' t :
  prereqs_raw_step bsk classes features s r = Ok s' -> ps_le s' t ->
  exists t', prereqs_raw_step bsk classes features t r = Ok t' /\ ps_same t t'.
Proof.
  unfold prereqs_raw_step.
  destruct (if String.eqb _ "class" then _ else _) as [owner|];
    [|intros _ _; exists t; split; reflexivity].
  destruct (_extract_prereq_nodes _) as [nodes|e]; simpl; [|discriminate].
  destruct (feature_prereqs _ _ _ s) as [s1|e] eqn:E1; simpl; [|discriminate].
  intros E2 Hle.
  assert (L2 := foldM_grow _ ps_le (prereq_choice_step_grow _ _ _ _) _ _ _ E2).
  destruct (feature_prereqs_settle _ _ _ _ _ t E1 ltac:(etransitivity; eassumption))
    as [t1 [-> Ht1]].
  simpl.
  destruct (foldM_settle _ ps_le ps_same ps_le_same (prereq_choice_step_grow _ _ _ _)
              (prereq_choice_step_settle _ _ _ _) _ _ _ t1 E2
              (ps_le_same _ _ _ Hle Ht1)) as [t2 [Ht2 Hs2]].
  exists t2. split; [exact Ht2 | etransitivity; eassumption].
Qed.

Lemma prereqs_raw_step_inv bsk classes features s r s' :
  ps_inv s -> prereqs_raw_step bsk classes features s r = Ok s' -> ps_inv s'.
Proof.
  unfold prereqs_raw_step. intros Hinv.
  destruct (if String.eqb _ "class" then _ else _) as [owner|]; [|intros [= <-]; exact Hinv].
  destruct (_extract_prereq_nodes _) as [nodes|e]; simpl; [|discriminate].
  destruct (feature_prereqs _ _ _ s) as [s1|e] eqn:E1; simpl; [|discriminate].
  intros E2. refine (foldM_inv _ _ _ _ _ _ (feature_prereqs_inv _ _ _ _ _ Hinv E1) E2).
  intros. eapply prereq_choice_step_inv; eassumption.
Qed.

(** A second [load_prereqs] against the tables the first one committed
    adds no row; only its count of unresolved choice groups can be
    non-zero. *)
Lemma load_prereqs_rerun db name db1 c :
  load_prereqs db name = Ok (db1, c) ->
  exists m, load_prereqs db1 name = Ok (db1, [("prereqs_created", 0); ("missing_refs", m)]).
Proof.
  unfold load_prereqs.
  destruct (source_or_raise db name _) as [source|e] eqn:Hsrc; simpl; [|discriminate].
  destruct (choice_groups_by_source_key _ _) as [bsk|e] eqn:Hg; simpl; [|discriminate].
  destruct (foldM _ _ _) as [sf|e] eqn:Hf; simpl; [|discriminate].
  intros [= <- _].
  set (db1 := set_prereqs db (ps_prereqs sf)).
  replace (source_or_raise db1 name _) with (source_or_raise db name
    "Source not found. Run importers first.") by reflexivity.
  rewrite Hsrc. simpl.
  change (db_groups db1) with (db_groups db). rewrite Hg. simpl.
  assert (Hinv : ps_inv sf).
  { refine (foldM_inv _ _ _ _ _ _ _ Hf).
    - intros. eapply prereqs_raw_step_inv; eassumption.
    - intros k Hk. simpl in Hk. apply list_elem_of_In, in_map_iff in Hk as (p & <- & Hp).
      exists p. auto. }
  assert (Hle : ps_le sf (prereqs_init db1)).
  { intros k Hk. destruct (Hinv k Hk) as (p & Hp & <-). simpl.
    apply list_elem_of_In, in_map, Hp. }
  destruct (foldM_settle _ ps_le ps_same ps_le_same
              (prereqs_raw_step_grow _ _ _) (prereqs_raw_step_settle _ _ _)
              _ _ _ _ Hf Hle) as [t [Ht (Hp & _ & Hc)]].
  change (db_classes db1) with (db_classes db).
  change (db_features db1) with (db_features db).
  change (db_raw db1) with (db_raw db).
  rewrite Ht. simpl. exists (ps_missing t).
  rewrite <- Hp, <- Hc. reflexivity.
Qed.

(* ------------------------------------------------------------------ *)
(** ** load_relationships.py *)

(** [rows_by_key.get(k)] for a key read from JSON: the dict's keys are
    strings, and [get] raises on an unhashable key. *)
Definition dict_get_json (rows : list Entity) (k : json) : result (option Entity) :=
  match k with
  | JStr s => Ok (by_key_get rows s)
  | JArr _ | JObj _ => Err "TypeError: unhashable type"
  | _ => Ok None
  end.

Definition _extract_class_indices (payload : json) : result (list json) :=
  classes ← payload_get payload "classes";
  classes ← (match classes with JNull => payload_get payload "class" | _ => Ok classes end);
  match classes with
  | JObj d => let index := dget d "index" in Ok (if truthy index then [index] else [])
  | JArr l =>
      Ok (flat_map (fun entry =>
            match entry with
            | JObj d => let index := dget d "index" in if truthy index then [index] else []
            | _ => []
            end) l)
  | _ => Ok []
  end.

Definition _extract_feature_refs (payload : json) : result (json * json * option Z) :=
  class_info ← payload_get payload "class";
  subclass_info ← payload_get payload "subclass";
  let class_index := match class_info with JObj d => dget d "index" | _ => JNull end in
  let subclass_index := match subclass_info with JObj d => dget d "index" | _ => JNull end in
  level ← payload_get payload "level";
  match level with
  | JNull => Ok (class_index, subclass_index, None)
  | _ =>
      match py_int level with
      | IntOk z => Ok (class_index, subclass_index, Some z)
      | IntTypeError | IntValueError => Ok (class_index, subclass_index, None)
      | IntOverflow => Err "OverflowError: cannot convert float infinity to integer"
      end
  end.

Definition _level_key (level : option Z) : Z :=
  match level with Some l => l | None => -1 end.

Definition class_feature_key (l : ClassFeatureLink) : Z * Z * Z * Z :=
  (cfl_source_id l, cfl_class_id l, cfl_feature_id l, _level_key (cfl_level l)).
Definition subclass_feature_key (l : SubclassFeatureLink) : Z * Z * Z * Z :=
  (sfl_source_id l, sfl_subclass_id l, sfl_feature_id l, _level_key (sfl_level l)).
Definition spell_class_key (l : SpellClassLink) : Z * Z * Z :=
  (scl_source_id l, scl_spell_id l, scl_class_id l).

(** The three key sets, the lists [new_*] and [missing_refs_count]. *)
Record RelSt := mkRelSt {
  rs_cf_keys : list (Z * Z * Z * Z);
  rs_sf_keys : list (Z * Z * Z * Z);
  rs_sc_keys : list (Z * Z * Z);
  rs_new_cf : list ClassFeatureLink;
  rs_new_sf : list SubclassFeatureLink;
  rs_new_sc : list SpellClassLink;
  rs_missing : Z }.

Definition rs_add_missing (s : RelSt) : RelSt :=
  {| rs_cf_keys := rs_cf_keys s; rs_sf_keys := rs_sf_keys s; rs_sc_keys := rs_sc_keys s;
     rs_new_cf := rs_new_cf s; rs_new_sf := rs_new_sf s; rs_new_sc := rs_new_sc s;
     rs_missing := rs_missing s + 1 |}.

(** The body of [for class_index in _extract_class_indices(payload)]. *)
Definition spell_class_step (src : Z) (classes : list Entity) (spell : Entity)
    (s : RelSt) (class_index : json) : result RelSt :=
  dnd_class ← dict_get_json classes class_index;
  match dnd_class with
  | None => Ok (rs_add_missing s)
  | Some dnd_class =>
      let key := (src, ent_id spell, ent_id dnd_class) in
      if bool_decide (key ∈ rs_sc_keys s) then Ok s
      else Ok {| rs_cf_keys := rs_cf_keys s; rs_sf_keys := rs_sf_keys s;
                 rs_sc_keys := rs_sc_keys s ++ [key];
                 rs_new_cf := rs_new_cf s; rs_new_sf := rs_new_sf s;
                 rs_new_sc := rs_new_sc s ++
                   [{| scl_source_id := src; scl_spell_id := ent_id spell;
                       scl_class_id := ent_id dnd_class |}];
                 rs_missing := rs_missing s |}
  end.

(** The body of [for raw_entity in spell_entities]. *)
Definition spell_raw_step (src : Z) (classes spells : list Entity) (s : RelSt)
    (r : RawEntity) : result RelSt :=
  match by_key_get spells (re_source_key r) with
  | None => Ok (rs_add_missing s)
  | Some spell =>
      indices ← _extract_class_indices (raw_payload r);
      foldM (spell_class_step src classes spell) s indices
  end.

(** The [if class_index:] block. *)
Definition class_feature_part (src : Z) (classes : list Entity) (feature : Entity)
    (class_index : json) (level : option Z) (s : RelSt) : result RelSt :=
  if truthy class_index then
    dnd_class ← dict_get_json classes class_index;
    match dnd_class with
    | None => Ok (rs_add_missing s)
    | Some dnd_class =>
        let key := (src, ent_id dnd_class, ent_id feature, _level_key level) in
        if bool_decide (key ∈ rs_cf_keys s) then Ok s
        else Ok {| rs_cf_keys := rs_cf_keys s ++ [key]; rs_sf_keys := rs_sf_keys s;
                   rs_sc_keys := rs_sc_keys s;
                   rs_new_cf := rs_new_cf s ++
                     [{| cfl_source_id := src; cfl_class_id := ent_id dnd_class;
                         cfl_feature_id := ent_id feature; cfl_level := level |}];
                   rs_new_sf := rs_new_sf s; rs_new_sc := rs_new_sc s;
                   rs_missing := rs_missing s |}
    end
  else Ok s.

(** The [if subclass_index:] block. *)
Definition subclass_feature_part (src : Z) (subclasses : list Entity) (feature : Entity)
    (subclass_index : json) (level : option Z) (s : RelSt) : result RelSt :=
  if truthy subclass_index then
    subclass ← dict_get_json subclasses subclass_index;
    match subclass with
    | None => Ok (rs_add_missing s)
    | Some subclass =>
        let key := (src, ent_id subclass, ent_id feature, _level_key level) in
        if bool_decide (key ∈ rs_sf_keys s) then Ok s
        else Ok {| rs_cf_keys := rs_cf_keys s; rs_sf_keys := rs_sf_keys s ++ [key];
                   rs_sc_keys := rs_sc_keys s; rs_new_cf := rs_new_cf s;
                   rs_new_sf := rs_new_sf s ++
                     [{| sfl_source_id := src; sfl_subclass_id := ent_id subclass;
                         sfl_feature_id := ent_id feature; sfl_level := level |}];
                   rs_new_sc := rs_new_sc s; rs_missing := rs_missing s |}
    end
  else Ok s.

(** The body of [for raw_entity in feature_entities]. *)
Definition feature_raw_step (src : Z) (classes subclasses features : list Entity)
    (s : RelSt) (r : RawEntity) : result RelSt :=
  match by_key_get features (re_source_key r) with
  | None => Ok (rs_add_missing s)
  | Some feature =>
      refs ← _extract_feature_refs (raw_payload r);
      let '(class_index, subclass_index, level) := refs in
      s1 ← class_feature_part src classes feature class_index level s;
      subclass_feature_part src subclasses feature subclass_index level s1
  end.

Definition set_links (db : DB) (cf : list ClassFeatureLink) (sf : list SubclassFeatureLink)
    (sc : list SpellClassLink) : DB :=
  {| db_sources := db_sources db; db_raw := db_raw db; db_classes := db_classes db;
     db_subclasses := db_subclasses db; db_features := db_features db;
     db_spells := db_spells db; db_items := db_items db;
     db_conditions := db_conditions db; db_monsters := db_monsters db;
     db_groups := db_groups db; db_options := db_options db; db_prereqs := db_prereqs db;
     db_grant_profs := db_grant_profs db; db_grant_spells := db_grant_spells db;
     db_grant_features := db_grant_features db;
     db_class_features := cf; db_subclass_features := sf; db_spell_classes := sc |}.

Definition rel_init (db : DB) (src : Z) : RelSt :=
  {| rs_cf_keys := map class_feature_key
       (filter (fun l => Z.eqb (cfl_source_id l) src) (db_class_features db));
     rs_sf_keys := map subclass_feature_key
       (filter (fun l => Z.eqb (sfl_source_id l) src) (db_subclass_features db));
     rs_sc_keys := map spell_class_key
       (filter (fun l => Z.eqb (scl_source_id l) src) (db_spell_classes db));
     rs_new_cf := []; rs_new_sf := []; rs_new_sc := []; rs_missing := 0 |}.

Definition load_relationships (db : DB) (source_name : string)
  : result (DB * list (string * Z)) :=
  source ← source_or_raise db source_name "Run importers first: source not found.";
  let src := src_id source in
  let classes := of_source src (db_classes db) in
  let subclasses := of_source src (db_subclasses db) in
  let features := of_source src (db_features db) in
  let spells := of_source src (db_spells db) in
  s1 ← foldM (spell_raw_step src classes spells) (rel_init db src)
             (raw_of_types src ["spell"] (db_raw db));
  s2 ← foldM (feature_raw_step src classes subclasses features) s1
             (raw_of_types src ["feature"] (db_raw db));
  Ok (set_links db (db_class_features db ++ rs_new_cf s2)
                   (db_subclass_features db ++ rs_new_sf s2)
                   (db_spell_classes db ++ rs_new_sc s2),
      [("class_features_created", Z.of_nat (length (rs_new_cf s2)));
       ("subclass_features_created", Z.of_nat (length (rs_new_sf s2)));
       ("spell_classes_created", Z.of_nat (length (rs_new_sc s2)));
       ("missing_refs_count", rs_missing s2)]).

(* ------------------------------------------------------------------ *)
(** ** load_relationships: a second run writes nothing *)

Definition rs_le (s t : RelSt) : Prop :=
  (forall k, k ∈ rs_cf_keys s -> k ∈ rs_cf_keys t) /\
  (forall k, k ∈ rs_sf_keys s -> k ∈ rs_sf_keys t) /\
  (forall k, k ∈ rs_sc_keys s -> k ∈ rs_sc_keys t).

(** Equal but for [missing_refs_count]. *)
Definition rs_same (t t' : RelSt) : Prop :=
  rs_cf_keys t = rs_cf_keys t' /\ rs_sf_keys t = rs_sf_keys t' /\
  rs_sc_keys t = rs_sc_keys t' /\ rs_new_cf t = rs_new_cf t' /\
  rs_new_sf t = rs_new_sf t' /\ rs_new_sc t = rs_new_sc t'.

#[global] Instance rs_le_preorder : PreOrder rs_le.
Proof.
  split.
  - intros s. refine (conj _ (conj _ _)); auto.
  - intros s t u (H1 & H2 & H3) (H4 & H5 & H6). refine (conj _ (conj _ _)); auto.
Qed.

#[global] Instance rs_same_equiv : Equivalence rs_same.
Proof.
  split.
  - intros t. repeat split.
  - intros t t' H. unfold rs_same in *. intuition congruence.
  - intros t t' t'' H1 H2. unfold rs_same in *. intuition congruence.
Qed.

Lemma rs_le_same s t t' : rs_le s t -> rs_same t t' -> rs_le s t'.
Proof.
  intros (H1 & H2 & H3) (E1 & E2 & E3 & _).
  refine (conj _ (conj _ _)); intros k Hk; [rewrite <- E1 | rewrite <- E2 | rewrite <- E3]; auto.
Qed.

Lemma rs_same_missing t : rs_same t (rs_add_missing t).
Proof. repeat split. Qed.

Lemma rs_le_missing s : rs_le s (rs_add_missing s).
Proof. refine (conj _ (conj _ _)); simpl; auto. Qed.

(** Every key of a set is the key of a link of the source, committed
    before the run or new in it. *)
Definition rs_inv (db : DB) (src : Z) (s : RelSt) : Prop :=
  (forall k, k ∈ rs_cf_keys s -> exists l, In l (db_class_features db ++ rs_new_cf s) /\
     class_feature_key l = k /\ cfl_source_id l = src) /\
  (forall k, k ∈ rs_sf_keys s -> exists l, In l (db_subclass_features db ++ rs_new_sf s) /\
     subclass_feature_key l = k /\ sfl_source_id l = src) /\
  (forall k, k ∈ rs_sc_keys s -> exists l, In l (db_spell_classes db ++ rs_new_sc s) /\
     spell_class_key l = k /\ scl_source_id l = src).

Lemma rs_inv_missing db src s : rs_inv db src s -> rs_inv db src (rs_add_missing s).
Proof. intros H. exact H. Qed.

Ltac rel_key_cases :=
  case_bool_decide as Hin;
  [ intros [= <-] | intros [= <-] ].

(** The three insertion blocks: growth, settling and the invariant. *)
Lemma spell_class_step_props src classes spell db :
  (forall s x s', spell_class_step src classes spell s x = Ok s' -> rs_le s s') /\
  (forall s x s' t, spell_class_step src classes spell s x = Ok s' -> rs_le s' t ->
     exists t', spell_class_step src classes spell t x = Ok t' /\ rs_same t t') /\
  (forall s x s', rs_inv db src s -> spell_class_step src classes spell s x = Ok s' ->
     rs_inv db src s').
Proof.
  unfold spell_class_step. refine (conj _ (conj _ _)).
  - intros s x s'. destruct (dict_get_json classes x) as [[c|]|e]; simpl; [|intros [= <-]
      | discriminate]; [|apply rs_le_missing].
    rel_key_cases; [reflexivity|]. refine (conj _ (conj _ _)); simpl; set_solver.
  - intros s x s' t. destruct (dict_get_json classes x) as [[c|]|e]; simpl; [| |discriminate].
    + intros H (H1 & H2 & H3). exists t. split; [|reflexivity].
      rewrite bool_decide_true; [reflexivity|]. apply H3. revert H.
      rel_key_cases; [assumption|]. simpl. set_solver.
    + intros _ _. eexists. split; [reflexivity | apply rs_same_missing].
  - intros s x s' (I1 & I2 & I3). destruct (dict_get_json classes x) as [[c|]|e]; simpl;
      [|intros [= <-]; exact (conj I1 (conj I2 I3)) | discriminate].
    rel_key_cases; [exact (conj I1 (conj I2 I3))|].
    refine (conj I1 (conj I2 _)). simpl. intros k Hk. apply elem_of_app in Hk as [Hk|Hk].
    + destruct (I3 k Hk) as (l & Hl & ? & ?). exists l.
      split; [rewrite app_assoc; apply in_or_app; left; exact Hl | auto].
    + apply list_elem_of_singleton in Hk. subst k. eexists.
      split; [rewrite app_assoc; apply in_or_app; right; left; reflexivity | split; reflexivity].
Qed.

Lemma class_feature_part_props src classes feature ci level db :
  (forall s s', class_feature_part src classes feature ci level s = Ok s' -> rs_le s s') /\
  (forall s s' t, class_feature_part src classes feature ci level s = Ok s' -> rs_le s' t ->
     exists t', class_feature_part src classes feature ci level t = Ok t' /\ rs_same t t') /\
  (forall s s', rs_inv db src s -> class_feature_part src classes feature ci level s = Ok s' ->
     rs_inv db src s').
Proof.
  unfold class_feature_part. destruct (truthy ci).
  2: { refine (conj _ (conj _ _)); [intros s s' [= <-]; reflexivity
       | intros s s' t _ _; exists t; split; reflexivity | intros s s' H [= <-]; exact H]. }
  refine (conj _ (conj _ _)).
  - intros s s'. destruct (dict_get_json classes ci) as [[c|]|e]; simpl; [|intros [= <-]
      | discriminate]; [|apply rs_le_missing].
    rel_key_cases; [reflexivity|]. refine (conj _ (conj _ _)); simpl; set_solver.
  - intros s s' t. destruct (dict_get_json classes ci) as [[c|]|e]; simpl; [| |discriminate].
    + intros H (H1 & H2 & H3). exists t. split; [|reflexivity].
      rewrite bool_decide_true; [reflexivity|]. apply H1. revert H.
      rel_key_cases; [assumption|]. simpl. set_solver.
    + intros _ _. eexists. split; [reflexivity | apply rs_same_missing].
  - intros s s' (I1 & I2 & I3). destruct (dict_get_json classes ci) as [[c|]|e]; simpl;
      [|intros [= <-]; exact (conj I1 (conj I2 I3)) | discriminate].
    rel_key_cases; [exact (conj I1 (conj I2 I3))|].
    refine (conj _ (conj I2 I3)). simpl. intros k Hk. apply elem_of_app in Hk as [Hk|Hk].
    + destruct (I1 k Hk) as (l & Hl & ? & ?). exists l.
      split; [rewrite app_assoc; apply in_or_app; left; exact Hl | auto].
    + apply list_elem_of_singleton in Hk. subst k. eexists.
      split; [rewrite app_assoc; apply in_or_app; right; left; reflexivity | split; reflexivity].
Qed.

Lemma subclass_feature_part_props src subclasses feature si level db :
  (forall s s', subclass_feature_part src subclasses feature si level s = Ok s' -> rs_le s s') /\
  (forall s s' t, subclass_feature_part src subclasses feature si level s = Ok s' ->
     rs_le s' t ->
     exists t', subclass_feature_part src subclasses feature si level t = Ok t' /\
                rs_same t t') /\
  (forall s s', rs_inv db src s ->
     subclass_feature_part src subclasses feature si level s = Ok s' -> rs_inv db src s').
Proof.
  unfold subclass_feature_part. destruct (truthy si).
  2: { refine (conj _ (conj _ _)); [intros s s' [= <-]; reflexivity
       | intros s s' t _ _; exists t; split; reflexivity | intros s s' H [= <-]; exact H]. }
  refine (conj _ (conj _ _)).
  - intros s s'. destruct (dict_get_json subclasses si) as [[c|]|e]; simpl; [|intros [= <-]
      | discriminate]; [|apply rs_le_missing].
    rel_key_cases; [reflexivity|]. refine (conj _ (conj _ _)); simpl; set_solver.
  - intros s s' t. destruct (dict_get_json subclasses si) as [[c|]|e]; simpl; [| |discriminate].
    + intros H (H1 & H2 & H3). exists t. split; [|reflexivity].
      rewrite bool_decide_true; [reflexivity|]. apply H2. revert H.
      rel_key_cases; [assumption|]. simpl. set_solver.
    + intros _ _. eexists. split; [reflexivity | apply rs_same_missing].
  - intros s s' (I1 & I2 & I3). destruct (dict_get_json subclasses si) as [[c|]|e]; simpl;
      [|intros [= <-]; exact (conj I1 (conj I2 I3)) | discriminate].
    rel_key_cases; [exact (conj I1 (conj I2 I3))|].
    refine (conj I1 (conj _ I3)). simpl. intros k Hk. apply elem_of_app in Hk as [Hk|Hk].
    + destruct (I2 k Hk) as (l & Hl & ? & ?). exists l.
      split; [rewrite app_assoc; apply in_or_app; left; exact Hl | auto].
    + apply list_elem_of_singleton in Hk. subst k. eexists.
      split; [rewrite app_assoc; apply in_or_app; right; left; reflexivity | split; reflexivity].
Qed.

Lemma spell_raw_step_grow src classes spells s r s' :
  spell_raw_step src classes spells s r = Ok s' -> rs_le s s'.
Proof.
  unfold spell_raw_step. destruct (by_key_get spells _) as [spell|];
    [|intros [= <-]; apply rs_le_missing].
  destruct (_extract_class_indices _) as [l|e]; simpl; [|discriminate].
  destruct (spell_class_step_props src classes spell empty_db) as (G & _ & _).
  exact (foldM_grow _ rs_le G l s s').
Qed.

Lemma spell_raw_step_settle src classes spells s r s' t :
  spell_raw_step src classes spells s r = Ok s' -> rs_le s' t ->
  exists t', spell_raw_step src classes spells t r = Ok t' /\ rs_same t t'.
Proof.
  unfold spell_raw_step. destruct (by_key_get spells _) as [spell|];
    [|intros _ _; eexists; split; [reflexivity | apply rs_same_missing]].
  destruct (_extract_class_indices _) as [l|e]; simpl; [|discriminate].
  destruct (spell_class_step_props src classes spell empty_db) as (G & S & _).
  exact (foldM_settle _ rs_le rs_same rs_le_same G S l s s' t).
Qed.

Lemma spell_raw_step_inv db src classes spells s r s' :
  rs_inv db src s -> spell_raw_step src classes spells s r = Ok s' -> rs_inv db src s'.
Proof.
  unfold spell_raw_step. intros Hinv. destruct (by_key_get spells _) as [spell|];
    [|intros [= <-]; exact (rs_inv_missing _ _ _ Hinv)].
  destruct (_extract_class_indices _) as [l|e]; simpl; [|discriminate].
  destruct (spell_class_step_props src classes spell db) as (_ & _ & I).
  exact (foldM_inv _ _ I l s s' Hinv).
Qed.

Lemma feature_raw_step_grow src classes subclasses features s r s' :
  feature_raw_step src classes subclasses features s r = Ok s' -> rs_le s s'.
Proof.
  unfold feature_raw_step. destruct (by_key_get features _) as [feature|];
    [|intros [= <-]; apply rs_le_missing].
  destruct (_extract_feature_refs _) as [[[ci si] level]|e]; simpl; [|discriminate].
  destruct (class_feature_part src classes feature ci level s) as [s1|e] eqn:E1;
    simpl; [|discriminate].
  intros E2. transitivity s1.
  - exact (proj1 (class_feature_part_props src classes feature ci level empty_db) _ _ E1).
  - exact (proj1 (subclass_feature_part_props src subclasses feature si level empty_db) _ _ E2).
Qed.

Lemma feature_raw_step_settle src classes subclasses features s r s' t :
  feature_raw_step src classes subclasses features s r = Ok s' -> rs_le s' t ->
  exists t', feature_raw_step src classes subclasses features t r = Ok t' /\ rs_same t t'.
Proof.
  unfold feature_raw_step. destruct (by_key_get features _) as [feature|];
    [|intros _ _; eexists; split; [reflexivity | apply rs_same_missing]].
  destruct (_extract_feature_refs _) as [[[ci si] level]|e]; simpl; [|discriminate].
  destruct (class_feature_part_props src classes feature ci level empty_db) as (G1 & S1 & _).
  destruct (subclass_feature_part_props src subclasses feature si level empty_db)
    as (G2 & S2 & _).
  destruct (class_feature_part src classes feature ci level s) as [s1|e] eqn:E1;
    simpl; [|discriminate].
  intros E2 Hle.
  destruct (S1 _ _ t E1 ltac:(etransitivity; [exact (G2 _ _ E2) | exact Hle]))
    as [t1 [-> Ht1]].
  simpl. destruct (S2 _ _ t1 E2 (rs_le_same _ _ _ Hle Ht1)) as [t2 [-> Ht2]].
  exists t2. split; [reflexivity | etransitivity; eassumption].
Qed.

Lemma feature_raw_step_inv db src classes subclasses features s r s' :
  rs_inv db src s -> feature_raw_step src classes subclasses features s r = Ok s' ->
  rs_inv db src s'.
Proof.
  unfold feature_raw_step. intros Hinv. destruct (by_key_get features _) as [feature|];
    [|intros [= <-]; exact (rs_inv_missing _ _ _ Hinv)].
  destruct (_extract_feature_refs _) as [[[ci si] level]|e]; simpl; [|discriminate].
  destruct (class_feature_part src classes feature ci level s) as [s1|e] eqn:E1;
    simpl; [|discriminate].
  intros E2.
  apply (proj2 (proj2 (subclass_feature_part_props src subclasses feature si level db)) s1);
    [|exact E2].
  exact (proj2 (proj2 (class_feature_part_props src classes feature ci level db)) s s1 Hinv E1).
Qed.

(** A second [load_relationships] against the tables the first one
    committed adds no link; only its count of unresolved references can
    be non-zero. *)
Lemma load_relationships_rerun db name db1 c :
  load_relationships db name = Ok (db1, c) ->
  exists m, load_relationships db1 name =
    Ok (db1, [("class_features_created", 0); ("subclass_features_created", 0);
              ("spell_classes_created", 0); ("missing_refs_count", m)]).
Proof.
  unfold load_relationships.
  destruct (source_or_raise db name _) as [source|e] eqn:Hsrc; simpl; [|discriminate].
  set (src := src_id source).
  destruct (foldM (spell_raw_step _ _ _) _ _) as [s1|e] eqn:Hf1; simpl; [|discriminate].
  destruct (foldM (feature_raw_step _ _ _ _) _ _) as [s2|e] eqn:Hf2; simpl; [|discriminate].
  intros [= <- _].
  set (db1 := set_links db _ _ _).
  replace (source_or_raise db1 name _) with (source_or_raise db name
    "Run importers first: source not found.") by reflexivity.
  rewrite Hsrc. simpl. fold src.
  assert (Hinv : rs_inv db src s2).
  { refine (foldM_inv _ _ (feature_raw_step_inv db src _ _ _) _ _ _ _ Hf2).
    refine (foldM_inv _ _ (spell_raw_step_inv db src _ _) _ _ _ _ Hf1).
    refine (conj _ (conj _ _)); simpl; intros k Hk;
      apply list_elem_of_In, in_map_iff in Hk as (l & <- & Hl);
      apply list_elem_of_In, list_elem_of_filter in Hl as [Hin Hl];
      apply Is_true_true, Z.eqb_eq in Hin;
      exists l; rewrite app_nil_r; (split; [apply list_elem_of_In, Hl | auto]). }
  assert (Hle2 : rs_le s2 (rel_init db1 src)).
  { destruct Hinv as (I1 & I2 & I3).
    refine (conj _ (conj _ _)); simpl; intros k Hk;
      [destruct (I1 k Hk) as (l & Hl & <- & Hs)
      |destruct (I2 k Hk) as (l & Hl & <- & Hs)
      |destruct (I3 k Hk) as (l & Hl & <- & Hs)];
      apply list_elem_of_In, in_map, list_elem_of_In, list_elem_of_filter;
      (split; [apply Is_true_true, Z.eqb_eq, Hs | apply list_elem_of_In, Hl]). }
  assert (Hle1 : rs_le s1 (rel_init db1 src)).
  { transitivity s2; [|exact Hle2].
    exact (foldM_grow _ rs_le (feature_raw_step_grow _ _ _ _) _ _ _ Hf2). }
  change (db_classes db1) with (db_classes db).
  change (db_subclasses db1) with (db_subclasses db).
  change (db_features db1) with (db_features db).
  change (db_spells db1) with (db_spells db).
  change (db_raw db1) with (db_raw db).
  destruct (foldM_settle _ rs_le rs_same rs_le_same (spell_raw_step_grow _ _ _)
              (spell_raw_step_settle _ _ _) _ _ _ _ Hf1 Hle1) as [t1 [-> Ht1]].
  simpl.
  destruct (foldM_settle _ rs_le rs_same rs_le_same (feature_raw_step_grow _ _ _ _)
              (feature_raw_step_settle _ _ _ _) _ _ _ t1 Hf2
              (rs_le_same _ _ _ Hle2 Ht1)) as [t2 [-> Ht2]].
  simpl. exists (rs_missing t2).
  destruct Ht1 as (_ & _ & _ & C1 & C2 & C3), Ht2 as (_ & _ & _ & D1 & D2 & D3).
  rewrite <- D1, <- D2, <- D3, <- C1, <- C2, <- C3. simpl.
  rewrite !app_nil_r. reflexivity.
Qed.

(* ------------------------------------------------------------------ *)
(** ** snapshots.py *)

(** models/import_snapshot.py: [ImportSnapshot]. [counts_json] and
    [hashes_json] are kept as the dicts [json.loads] gives back: for a
    dict of strings to integers or strings, [json.loads(json.dumps(d))]
    is [d]. [run_key] is not read by [diff_snapshots] and is left out. *)
Record ImportSnapshot := mkImportSnapshot {
  snap_source_id : Z;
  snap_counts : list (string * Z);
  snap_hashes : list (string * string) }.

(** [create_snapshot]: the [Source] row by id ([.one()]), then the dict
    literals [counts] and [hashes], whose entries are SELECTs without
    effect up to the [choice_groups] entry of [hashes].  That entry
    evaluates [ChoiceGroup.source_key] (snapshots.py:218); [ChoiceGroup]
    declares no such column (models/choices.py), and the class attribute
    lookup raises [AttributeError('source_key')] from pydantic's model
    metaclass before the [ImportSnapshot] is built. *)
Definition create_snapshot (db : DB) (source_id : Z) : result ImportSnapshot :=
  match filter (fun s => Z.eqb (src_id s) source_id) (db_sources db) with
  | [_] => Err "AttributeError: source_key"
  | [] => Err "NoResultFound: No row was found when one was required"
  | _ => Err "MultipleResultsFound: Multiple rows were found when exactly one was required"
  end.

(** [sorted(set(a) | set(b))]. *)
Definition sorted_keys (a b : list string) : list string :=
  merge_sort String.le (remove_dups (a ++ b)).

Definition diff_snapshots (older : option ImportSnapshot) (newer : ImportSnapshot)
  : list string :=
  match older with
  | None => ["No previous snapshot found."]
  | Some older =>
      let older_counts := snap_counts older in
      let newer_counts := snap_counts newer in
      let count_changes :=
        flat_map (fun key =>
            let old_val := default 0 (assoc_get key older_counts) in
            let new_val := default 0 (assoc_get key newer_counts) in
            if Z.eqb old_val new_val then []
            else ["Count " +:+ key +:+ ": " +:+ z_to_dec old_val +:+ " -> " +:+ z_to_dec new_val])
          (sorted_keys (map fst older_counts) (map fst newer_counts)) in
      let older_hashes := snap_hashes older in
      let newer_hashes := snap_hashes newer in
      let hash_changes :=
        flat_map (fun key =>
            if bool_decide (assoc_get key older_hashes = assoc_get key newer_hashes) then []
            else ["Hash " +:+ key +:+ " changed"])
          (sorted_keys (map fst older_hashes) (map fst newer_hashes)) in
      match count_changes ++ hash_changes with
      | [] => ["No changes detected."]
      | changes => changes
      end
  end.

(** The database with its [Spell] and [Feature] tables replaced, as the
    spell and feature importers leave them. *)
Definition with_refs (db : DB) (spells features : list Entity) : DB :=
  {| db_sources := db_sources db; db_raw := db_raw db; db_classes := db_classes db;
     db_subclasses := db_subclasses db; db_features := features;
     db_spells := spells; db_items := db_items db;
     db_conditions := db_conditions db; db_monsters := db_monsters db;
     db_groups := db_groups db; db_options := db_options db; db_prereqs := db_prereqs db;
     db_grant_profs := db_grant_profs db; db_grant_spells := db_grant_spells db;
     db_grant_features := db_grant_features db;
     db_class_features := db_class_features db;
     db_subclass_features := db_subclass_features db;
     db_spell_classes := db_spell_classes db |}.

(** The database with its raw documents replaced. *)
Definition with_raw (db : DB) (raw : list RawEntity) : DB :=
  {| db_sources := db_sources db; db_raw := raw; db_classes := db_classes db;
     db_subclasses := db_subclasses db; db_features := db_features db;
     db_spells := db_spells db; db_items := db_items db;
     db_conditions := db_conditions db; db_monsters := db_monsters db;
     db_groups := db_groups db; db_options := db_options db; db_prereqs := db_prereqs db;
     db_grant_profs := db_grant_profs db; db_grant_spells := db_grant_spells db;
     db_grant_features := db_grant_features db;
     db_class_features := db_class_features db;
     db_subclass_features := db_subclass_features db;
     db_spell_classes := db_spell_classes db |}.

Lemma flat_map_nil {A B} (f : A -> list B) l :
  (forall x, f x = []) -> flat_map f l = [].
Proof. intros H. induction l as [|x l IH]; simpl; [reflexivity|]. rewrite H, IH. reflexivity. Qed.

(* ------------------------------------------------------------------ *)
(** ** character_progression.py *)

(** models/character.py *)
Record CharacterLevel := mkCharacterLevel {
  cl_id : Z; cl_character_id : Z; cl_class_id : Z; cl_subclass_id : option Z; cl_level : Z }.
Record CharacterChoice := mkCharacterChoice {
  cc_id : Z; cc_character_id : Z; cc_choice_group_id : Z; cc_choice_option_id : option Z;
  cc_option_label : option string }.
Record CharacterFeature := mkCharacterFeature {
  cf_id : Z; cf_character_id : Z; cf_feature_id : Z }.

(** What a [Session] holds: the catalogue it reads and the character
    tables, including the rows added (and flushed) but not committed. *)
Record Session := mkSession {
  se_db : DB;
  se_character_features : list CharacterFeature;
  se_character_levels : list CharacterLevel;
  se_character_choices : list CharacterChoice }.

(** [.one()]. *)
Definition one {A} (rows : list A) : result A :=
  match rows with
  | [x] => Ok x
  | [] => Err "NoResultFound: No row was found when one was required"
  | _ => Err "MultipleResultsFound: Multiple rows were found when exactly one was required"
  end.

Definition _compare_int (operator : string) (left right : Z) : bool :=
  if String.eqb operator ">=" then left >=? right
  else if String.eqb operator ">" then left >? right
  else if String.eqb operator "<=" then left <=? right
  else if String.eqb operator "<" then left <? right
  else if String.eqb operator "==" then left =? right
  else false.

(** [int(v)], its exceptions as errors. *)
Definition int_or_raise (v : json) : result Z :=
  match py_int v with
  | IntOk z => Ok z
  | IntValueError => Err ("ValueError: invalid literal for int() with base 10: " +:+ py_repr v)
  | IntTypeError =>
      Err "TypeError: int() argument must be a string, a bytes-like object or a real number"
  | IntOverflow => Err "OverflowError: cannot convert float infinity to integer"
  end.

Definition prereq_failed (what : string) : result unit :=
  Err ("ValueError: Prerequisite failed: " +:+ what).

(** The body of [for prereq in prereqs] in [_validate_prereqs]. *)
Definition check_prereq (db : DB) (class_row : Entity) (subclass_key : option string)
    (feature_ids : list Z) (level : Z) (ability_scores : option (list (string * Z)))
    (prereq : Prerequisite) : result unit :=
  let key := pr_key prereq in
  let t := pr_prereq_type prereq in
  if String.eqb t "class" then
    if String.eqb key (ent_source_key class_row) then Ok tt
    else prereq_failed ("class " +:+ key)
  else if String.eqb t "subclass" then
    match subclass_key with
    | Some k => if String.eqb key k then Ok tt else prereq_failed ("subclass " +:+ key)
    | None => prereq_failed ("subclass " +:+ key)
    end
  else if String.eqb t "feature" then
    feature ← one_or_none (filter (fun f => String.eqb (ent_source_key f) key) (db_features db));
    match feature with
    | Some f => if existsb (Z.eqb (ent_id f)) feature_ids then Ok tt
                else prereq_failed ("feature " +:+ key)
    | None => prereq_failed ("feature " +:+ key)
    end
  else if String.eqb t "level" then
    if negb (String.eqb key "any" || String.eqb key (ent_source_key class_row)) then
      prereq_failed ("level class " +:+ key)
    else
      v ← int_or_raise (JStr (pr_value prereq));
      if _compare_int (pr_operator prereq) level v then Ok tt
      else prereq_failed ("level " +:+ pr_operator prereq +:+ " " +:+ pr_value prereq)
  else if String.eqb t "ability" then
    match ability_scores with
    | None => prereq_failed ("ability " +:+ key)
    | Some scores =>
        match assoc_get key scores with
        | None => prereq_failed ("ability " +:+ key)
        | Some score =>
            v ← int_or_raise (JStr (pr_value prereq));
            if _compare_int (pr_operator prereq) score v then Ok tt
            else prereq_failed ("ability " +:+ key)
        end
    end
  else Err ("ValueError: Unsupported prerequisite type: " +:+ t).

(** The loop of [_validate_prereqs]. *)
Definition _check_prereqs (db : DB) (class_row : Entity) (subclass_key : option string)
    (feature_ids : list Z) (level : Z) (ability_scores : option (list (string * Z)))
    (prereqs : list Prerequisite) : result unit :=
  foldM (fun _ p => check_prereq db class_row subclass_key feature_ids level ability_scores p)
        tt prereqs.

Definition _validate_prereqs (s : Session) (character_id class_id : Z)
    (subclass_id : option Z) (level : Z) (prereqs : list Prerequisite)
    (ability_scores : option (list (string * Z))) : result unit :=
  let db := se_db s in
  class_row ← one (filter (fun c => Z.eqb (ent_id c) class_id) (db_classes db));
  subclass_key ←
    (match subclass_id with
     | Some sid =>
         subclass ← one_or_none (filter (fun c => Z.eqb (ent_id c) sid) (db_subclasses db));
         Ok (option_map ent_source_key subclass)
     | None => Ok None
     end);
  let feature_ids :=
    map cf_feature_id (filter (fun e => Z.eqb (cf_character_id e) character_id)
                              (se_character_features s)) in
  _check_prereqs db class_row subclass_key feature_ids level ability_scores prereqs.

(** The [CharacterChoice] row for one entry of [choices]. *)
Definition choice_row (s : Session) (character_id class_id : Z) (subclass_id : option Z)
    (level : Z) (ability_scores : option (list (string * Z)))
    (choice : list (string * json)) : result CharacterChoice :=
  let db := se_db s in
  let group_id := dget choice "choice_group_id" in
  match group_id with
  | JNull => Err "ValueError: Choice missing choice_group_id."
  | _ =>
      gid ← int_or_raise group_id;
      group ← one (filter (fun g => Z.eqb (cg_id g) gid) (db_groups db));
      let prereqs := filter (fun p => String.eqb (pr_applies_to_type p) "choice_group" &&
                                      Z.eqb (pr_applies_to_id p) (cg_id group))
                            (db_prereqs db) in
      _ ← _validate_prereqs s character_id class_id subclass_id level prereqs ability_scores;
      let option_id := dget choice "choice_option_id" in
      option_label ←
        (match option_id with
         | JNull => Ok (dget choice "option_label")
         | _ =>
             oid ← int_or_raise option_id;
             option ← one_or_none (filter (fun o => Z.eqb (co_id o) oid) (db_options db));
             match option with
             | None => Err ("ValueError: Choice option not found: " +:+ py_str option_id)
             | Some o => Ok (JStr (co_label o))
             end
         end);
      choice_option_id ←
        (match option_id with
         | JNull => Ok None
         | _ => oid ← int_or_raise option_id; Ok (Some oid)
         end);
      Ok {| cc_id := fresh_id (map cc_id (se_character_choices s));
            cc_character_id := character_id; cc_choice_group_id := cg_id group;
            cc_choice_option_id := choice_option_id;
            cc_option_label := if truthy option_label then Some (py_str option_label) else None |}
  end.

Definition add_choice (s : Session) (row : CharacterChoice) : Session :=
  {| se_db := se_db s; se_character_features := se_character_features s;
     se_character_levels := se_character_levels s;
     se_character_choices := se_character_choices s ++ [row] |}.

Definition add_level (s : Session) (row : CharacterLevel) : Session :=
  {| se_db := se_db s; se_character_features := se_character_features s;
     se_character_levels := se_character_levels s ++ [row];
     se_character_choices := se_character_choices s |}.

(** [for choice in choices]: the session as the loop leaves it, and
    whether it raised. *)
Fixpoint choices_loop (s : Session) (character_id class_id : Z) (subclass_id : option Z)
    (level : Z) (ability_scores : option (list (string * Z)))
    (choices : list (list (string * json))) : Session * result unit :=
  match choices with
  | [] => (s, Ok tt)
  | c :: cs =>
      match choice_row s character_id class_id subclass_id level ability_scores c with
      | Ok row =>
          choices_loop (add_choice s row) character_id class_id subclass_id level
                       ability_scores cs
      | Err e => (s, Err e)
      end
  end.

(** [apply_level_up]: the session as the call leaves it (committed on
    success; on an exception, with the rows added so far pending) and the
    returned [CharacterLevel] or the exception. *)
Definition apply_level_up (s : Session) (character_id class_id level : Z)
    (subclass_id : option Z) (choices : option (list (list (string * json))))
    (ability_scores : option (list (string * Z))) : Session * result CharacterLevel :=
  match one_or_none (filter (fun r => Z.eqb (cl_character_id r) character_id &&
                                      Z.eqb (cl_level r) level)
                            (se_character_levels s)) with
  | Err e => (s, Err e)
  | Ok (Some _) => (s, Err ("ValueError: Character already has level " +:+ z_to_dec level +:+ "."))
  | Ok None =>
      let level_row := {| cl_id := fresh_id (map cl_id (se_character_levels s));
                          cl_character_id := character_id; cl_class_id := class_id;
                          cl_subclass_id := subclass_id; cl_level := level |} in
      let s1 := add_level s level_row in
      let '(s2, r) := choices_loop s1 character_id class_id subclass_id level ability_scores
                                   (default [] choices) in
      match r with
      | Ok _ => (s2, Ok level_row)
      | Err e => (s2, Err e)
      end
  end.

(* ------------------------------------------------------------------ *)
(** ** Lemmas used by the claims *)

(** The [prereq_type] column of a row [_parse_prereq_entry] returns. *)
Definition prereq_type_of (r : string * string * string * string * option string) : string :=
  r.1.1.1.1.

(** The unique key [(character_id, level)] of [character_levels]. *)
Definition level_key (r : CharacterLevel) : Z * Z := (cl_character_id r, cl_level r).

(** The [where] clause of the lookup in [apply_level_up]. *)
Definition level_at (character_id level : Z) (r : CharacterLevel) : bool :=
  Z.eqb (cl_character_id r) character_id && Z.eqb (cl_level r) level.

Lemma check_prereqs_cons db cr sk fids lvl ab p ps :
  _check_prereqs db cr sk fids lvl ab (p :: ps) =
  (_ ← check_prereq db cr sk fids lvl ab p; _check_prereqs db cr sk fids lvl ab ps).
Proof.
  unfold _check_prereqs. simpl.
  destruct (check_prereq db cr sk fids lvl ab p) as [[]|e]; reflexivity.
Qed.

Lemma level_at_iff cid lvl r : level_at cid lvl r = true <-> level_key r = (cid, lvl).
Proof.
  unfold level_at, level_key. rewrite andb_true_iff, !Z.eqb_eq. split.
  - intros [-> ->]. reflexivity.
  - intros [= -> ->]. auto.
Qed.

Lemma filter_none_true {A} (P : A -> bool) l :
  (forall y, In y l -> P y = false) -> filter P l = [].
Proof.
  induction l as [|x l IH]; intros H; [reflexivity|].
  rewrite filter_cons, decide_False; [apply IH; intros y Hy; apply H; right; exact Hy|].
  rewrite (H x (or_introl eq_refl)). auto.
Qed.

(** Under the unique key [(character_id, level)] the lookup finds the
    one row. *)
Lemma levels_filter_single rows r cid lvl :
  In r rows -> level_key r = (cid, lvl) -> NoDup (map level_key rows) ->
  filter (level_at cid lvl) rows = [r].
Proof.
  induction rows as [|x rows IH]; intros Hin Hk Hnd; [destruct Hin|].
  simpl in Hnd. apply NoDup_cons in Hnd as [Hx Hnd].
  rewrite filter_cons. destruct Hin as [<-|Hin].
  - rewrite decide_True; [|apply Is_true_true, level_at_iff; exact Hk].
    f_equal. apply filter_none_true. intros y Hy.
    destruct (level_at cid lvl y) eqn:E; [|reflexivity].
    exfalso. apply Hx. apply level_at_iff in E. rewrite Hk, <- E.
    apply list_elem_of_In, in_map, Hy.
  - rewrite decide_False; [exact (IH Hin Hk Hnd)|].
    intros Hp. apply Is_true_true, level_at_iff in Hp. apply Hx.
    rewrite Hp, <- Hk. apply list_elem_of_In, in_map, Hin.
Qed.

(** ** Example inputs *)

(** A fighter document with a "Fighting Style" choice. *)
Definition fs_opt (n k : string) : json := JObj [("name", JStr n); ("index", JStr k)].
Definition fs_node (opts : list json) : list (string * json) :=
  [("name", JStr "Fighting Style"); ("choose", JInt 1); ("from", JObj [("options", JArr opts)])].
Definition fighter_payload (opts : list json) : json :=
  JObj [("index", JStr "fighter"); ("choices", JArr [JObj (fs_node opts)])].
Definition fs_two : list json :=
  [fs_opt "Archery" "fighting-style-archery"; fs_opt "Defense" "fighting-style-defense"].
Definition fs_new : json := fs_opt "Dueling" "fighting-style-dueling".
Definition fighter_raw (opts : list json) : RawEntity :=
  mkRawEntity 1 1 "class" "fighter" None None None (fighter_payload opts) "h" 0 0 0.
Definition fighter : Entity := mkEntity 10 1 "fighter" "Fighter" None None.
Definition fighter_db : DB :=
  mkDB [mkSource 1 "5e-bits"] [fighter_raw fs_two] [fighter]
       [] [] [] [] [] [] [] [] [] [] [] [] [] [] [].
(** The database after a first [load_choices] run. *)
Definition fighter_db1 : DB :=
  match load_choices fighter_db "5e-bits" with Ok (d, _) => d | Err _ => fighter_db end.
(** A wizard document that grants "fireball", before any spell is loaded. *)
Definition wizard_payload : json :=
  JObj [("index", JStr "wizard");
        ("spells", JArr [JObj [("index", JStr "fireball"); ("name", JStr "Fireball")]])].
Definition grant_db : DB :=
  mkDB [mkSource 1 "5e-bits"]
       [mkRawEntity 1 1 "class" "wizard" None None None wizard_payload "h" 0 0 0]
       [mkEntity 10 1 "wizard" "Wizard" None None] [] [] [] [] [] [] [] [] [] [] [] [] [] [] [].
Definition fireball_spell : Entity := mkEntity 20 1 "fireball" "Fireball" (Some 3) (Some 2).

(** A source with one spell document, fireball, at a given level. *)
Definition fireball (lvl : Z) : json := JObj [("index", JStr "fireball"); ("level", JInt lvl)].
Definition raw_fb (lvl : Z) : RawEntity :=
  mkRawEntity 1 1 "spell" "fireball" (Some "Fireball") (Some true) None (fireball lvl)
    (canonical_json_hash (fireball lvl)) 0 0 0.
Definition db_lv (lvl : Z) : DB :=
  {| db_sources := [mkSource 1 "5e-bits"]; db_raw := [raw_fb lvl]; db_classes := [];
     db_subclasses := []; db_features := [];
     db_spells := [mkEntity 1 1 "fireball" "Fireball" (Some lvl) (Some 1)];
     db_items := []; db_conditions := []; db_monsters := []; db_groups := []; db_options := [];
     db_prereqs := []; db_grant_profs := []; db_grant_spells := []; db_grant_features := [];
     db_class_features := []; db_subclass_features := []; db_spell_classes := [] |}.
(** A stored fireball document, retrieved and updated at time 5. *)
Definition stored_fb : RawEntity :=
  mkRawEntity 1 1 "spell" "fireball" (Some "Fireball") (Some true) None (fireball 2)
    (canonical_json_hash (fireball 2)) 5 0 5.

(** A prerequisite node with a level, a class and [type: class]. *)
Definition level_class_entry : list (string * json) :=
  [("type", JStr "class"); ("level", JInt 2); ("class", JStr "fighter")].

(** A "level 2 of any class" prerequisite. *)
Definition level2_any : Prerequisite :=
  mkPrerequisite "feature" 1 "level" "any" ">=" "2" None.

(** A session where character 1 already has level 1. *)
Definition level1_session : Session :=
  mkSession empty_db [] [mkCharacterLevel 1 1 10 None 1] [].

(** ** Invariants the loaders keep, and the characters of a slug *)


Definition raw_key (r : RawEntity) : Z * string * string :=
  (re_source_id r, re_entity_type r, re_source_key r).

(** The prerequisite table as the run leaves it: the rows it started
    with followed by the rows it added, as many as its counter, each
    attached to a feature; [prereq_keys] is the key list of the table. *)
Definition ps_tab (base : list Prerequisite) (s : PrereqSt) : Prop :=
  exists new, ps_prereqs s = base ++ new /\ ps_created s = Z.of_nat (length new) /\
    ps_keys s = map prereq_key (ps_prereqs s) /\
    (NoDup (map prereq_key base) -> NoDup (ps_keys s)) /\
    Forall (fun p => pr_applies_to_type p = "feature") new.

(** The three grant tables as the run leaves them: the rows they started
    with followed by the rows it added, as many as the counters, all of
    the source; each key set is the key list of the source's rows. *)
Definition gr_tab (src : Z) (bp : list GrantProficiency) (bs : list GrantSpell)
    (bf : list GrantFeature) (s : GrantsSt) : Prop :=
  (exists np, gr_profs s = bp ++ np /\ gr_prof_created s = Z.of_nat (length np) /\
     Forall (fun g => gp_source_id g = src) np /\
     gr_prof_keys s = map prof_key (filter (fun g => Z.eqb (gp_source_id g) src) (gr_profs s)) /\
     (NoDup (map prof_key bp) -> NoDup (map prof_key (gr_profs s)))) /\
  (exists ns, gr_spells s = bs ++ ns /\ gr_spell_created s = Z.of_nat (length ns) /\
     Forall (fun g => gs_source_id g = src) ns /\
     gr_spell_keys s = map spell_grant_key (filter (fun g => Z.eqb (gs_source_id g) src) (gr_spells s)) /\
     (NoDup (map spell_grant_key bs) -> NoDup (map spell_grant_key (gr_spells s)))) /\
  (exists nf, gr_features s = bf ++ nf /\ gr_feature_created s = Z.of_nat (length nf) /\
     Forall (fun g => gf_source_id g = src) nf /\
     gr_feature_keys s = map feature_grant_key (filter (fun g => Z.eqb (gf_source_id g) src) (gr_features s)) /\
     (NoDup (map feature_grant_key bf) -> NoDup (map feature_grant_key (gr_features s)))).

(** The rows [load_choices] adds: options of a group of the source, with
    a normalized type and no [option_ref_id]. *)
Definition new_option_ok (groups : list ChoiceGroup) (src : Z) (o : ChoiceOption) : Prop :=
  option_in_source groups src o = true /\
  (co_option_type o = "feature" \/ co_option_type o = "spell" \/ co_option_type o = "string") /\
  co_option_ref_id o = None.

(** The two choice tables as the run leaves them: the rows they started
    with followed by the rows it added, as many as the counters; the
    groups [group_lookup] holds are groups of the source in the table. *)
Definition cs_tab (src : Z) (bg : list ChoiceGroup) (bo : list ChoiceOption) (s : ChoicesSt) : Prop :=
  exists ng no, cs_groups s = bg ++ ng /\ cs_options s = bo ++ no /\
    cs_group_created s = Z.of_nat (length ng) /\ cs_option_created s = Z.of_nat (length no) /\
    Forall (fun g => cg_source_id g = src) ng /\ Forall (new_option_ok (cs_groups s) src) no /\
    Forall (fun p => In p.2 (cs_groups s) /\ cg_source_id p.2 = src) (cs_lookup s).

(** The keys of the two choice tables: the non-NULL keys of
    [uq_choice_groups_owner_choice], group ids and option ids are unique,
    so are the keys of [uq_choice_options_group_option] while no pending
    option collides, and every option and every group of [group_lookup]
    names a group of the table. *)
Definition cs_uniq (s : ChoicesSt) : Prop :=
  NoDup (omap group_uq_key (cs_groups s)) /\ NoDup (map cg_id (cs_groups s)) /\
  NoDup (map co_id (cs_options s)) /\
  (cs_pending_conflict s = false -> NoDup (map option_key (cs_options s))) /\
  (forall o, In o (cs_options s) -> In (co_group_id o) (map cg_id (cs_groups s))) /\
  Forall (fun p => In p.2 (cs_groups s)) (cs_lookup s).

(** The rows a [load_grants] run adds to each grant table have keys that
    no row it started from has. *)
Definition gr_fresh (bp : list GrantProficiency) (bs : list GrantSpell)
    (bf : list GrantFeature) (s : GrantsSt) : Prop :=
  (forall np, gr_profs s = bp ++ np -> Forall (fun g => prof_key g ∉ map prof_key bp) np) /\
  (forall ns, gr_spells s = bs ++ ns ->
     Forall (fun g => spell_grant_key g ∉ map spell_grant_key bs) ns) /\
  (forall nf, gr_features s = bf ++ nf ->
     Forall (fun g => feature_grant_key g ∉ map feature_grant_key bf) nf).

(** Links the run adds, with the key sets: each key set is the key list
    of the source's links of its table; each new link joins two rows of
    the source's own lists. *)
Definition rel_tab (src : Z) (classes subclasses features spells : list Entity)
    (bcf : list ClassFeatureLink) (bsf : list SubclassFeatureLink) (bsc : list SpellClassLink)
    (s : RelSt) : Prop :=
  (rs_cf_keys s = map class_feature_key
                    (filter (fun l => Z.eqb (cfl_source_id l) src) (bcf ++ rs_new_cf s)) /\
   (NoDup (map class_feature_key bcf) -> NoDup (map class_feature_key (bcf ++ rs_new_cf s))) /\
   Forall (fun l => cfl_source_id l = src /\ In (cfl_class_id l) (map ent_id classes) /\
                    In (cfl_feature_id l) (map ent_id features)) (rs_new_cf s)) /\
  (rs_sf_keys s = map subclass_feature_key
                    (filter (fun l => Z.eqb (sfl_source_id l) src) (bsf ++ rs_new_sf s)) /\
   (NoDup (map subclass_feature_key bsf) ->
    NoDup (map subclass_feature_key (bsf ++ rs_new_sf s))) /\
   Forall (fun l => sfl_source_id l = src /\ In (sfl_subclass_id l) (map ent_id subclasses) /\
                    In (sfl_feature_id l) (map ent_id features)) (rs_new_sf s)) /\
  (rs_sc_keys s = map spell_class_key
                    (filter (fun l => Z.eqb (scl_source_id l) src) (bsc ++ rs_new_sc s)) /\
   (NoDup (map spell_class_key bsc) -> NoDup (map spell_class_key (bsc ++ rs_new_sc s))) /\
   Forall (fun l => scl_source_id l = src /\ In (scl_spell_id l) (map ent_id spells) /\
                    In (scl_class_id l) (map ent_id classes)) (rs_new_sc s)).

Definition prereq_row_type (r : string * string * string * string * option string) : string :=
  r.1.1.1.1.

(** The characters of a slug: lower-case ASCII letters, digits and dashes. *)
Definition slug_char (c : ascii) : bool :=
  (is_alnum_ascii c && Ascii.eqb (lower_char c) c) || Ascii.eqb c "-"%char.

Definition slug_ok (l : list ascii) : Prop :=
  Forall (fun c => slug_char c = true) l /\
  (forall a b, l <> a ++ "-"%char :: "-"%char :: b).

(** ** More example inputs *)


(** A source with a wizard class, its fireball spell and its
    "arcane-recovery" feature, as raw documents and as rows. *)
Definition wizard : Entity := mkEntity 10 1 "wizard" "Wizard" None None.
Definition arcane_recovery : Entity :=
  mkEntity 30 1 "arcane-recovery" "Arcane Recovery" (Some 1) None.
Definition fireball_classes_payload : json :=
  JObj [("index", JStr "fireball"); ("classes", JArr [JObj [("index", JStr "wizard")]])].
Definition arcane_recovery_payload : json :=
  JObj [("index", JStr "arcane-recovery"); ("class", JObj [("index", JStr "wizard")]);
        ("level", JInt 1);
        ("prerequisites", JArr [JObj [("type", JStr "level"); ("level", JInt 1)]])].
Definition wizard_db : DB :=
  mkDB [mkSource 1 "5e-bits"]
       [mkRawEntity 1 1 "spell" "fireball" None None None fireball_classes_payload "h" 0 0 0;
        mkRawEntity 2 1 "feature" "arcane-recovery" None None None arcane_recovery_payload "h"
          0 0 0]
       [wizard] [] [arcane_recovery] [fireball_spell] [] [] [] [] [] [] [] [] [] [] [] [].

Definition level_up_session : Session :=
  mkSession fighter_db1 [] [mkCharacterLevel 1 1 10 None 1] [].
Definition defense_choice : list (string * json) :=
  [("choice_group_id", JInt 1); ("choice_option_id", JInt 2)].

(** ** What a successful loader run implies *)

Lemma fresh_id_gt ids x : In x ids -> x < fresh_id ids.
Proof.
  unfold fresh_id, max_id. induction ids as [|y ids IH]; simpl; [tauto|].
  intros [<-|H]; [lia|specialize (IH H); lia].
Qed.

Lemma fresh_id_notin ids : fresh_id ids ∉ ids.
Proof. intros H. apply list_elem_of_In, fresh_id_gt in H. lia. Qed.

Lemma NoDup_snoc {A} (l : list A) x : x ∉ l -> NoDup l -> NoDup (l ++ [x]).
Proof.
  intros Hx Hl. apply NoDup_app. split; [exact Hl|]. split; [|apply NoDup_singleton].
  intros y Hy Hy'. apply list_elem_of_singleton in Hy'. subst. contradiction.
Qed.

(** A key whose source part is [src] and that is not among the keys of
    the source's rows is the key of no row. *)
Lemma key_notin_src {A K} (key : A -> K) (sid : A -> Z) (ksid : K -> Z) src (rows : list A) k :
  (forall g, ksid (key g) = sid g) -> ksid k = src ->
  k ∉ map key (filter (fun g => Z.eqb (sid g) src) rows) -> k ∉ map key rows.
Proof.
  intros Hk Hs Hn Hin. apply Hn. apply list_elem_of_In, in_map_iff in Hin as (g & <- & Hg).
  apply list_elem_of_In, in_map. apply list_elem_of_In, list_elem_of_filter.
  split; [|apply list_elem_of_In, Hg]. rewrite <- Hk, Hs, Z.eqb_refl. exact I.
Qed.

Lemma filter_snoc_true {A} (p : A -> bool) l x :
  p x = true -> filter p (l ++ [x]) = filter p l ++ [x].
Proof. intros H. rewrite filter_app. simpl. rewrite filter_cons, decide_True; [reflexivity|rewrite H; exact I]. Qed.

(** Adding one row of the source and its new key keeps one part of
    [gr_tab]. *)
Lemma tab_snoc {A K} (key : A -> K) (sid : A -> Z) (ksid : K -> Z) src base rows n keys
    (created : Z) row :
  (forall g, ksid (key g) = sid g) -> sid row = src ->
  rows = base ++ n -> created = Z.of_nat (length n) -> Forall (fun g => sid g = src) n ->
  keys = map key (filter (fun g => Z.eqb (sid g) src) rows) ->
  (NoDup (map key base) -> NoDup (map key rows)) ->
  key row ∉ keys ->
  exists n', rows ++ [row] = base ++ n' /\ created + 1 = Z.of_nat (length n') /\
    Forall (fun g => sid g = src) n' /\
    keys ++ [key row] = map key (filter (fun g => Z.eqb (sid g) src) (rows ++ [row])) /\
    (NoDup (map key base) -> NoDup (map key (rows ++ [row]))).
Proof.
  intros Hk Hr E1 E2 E3 E4 E5 Hin. exists (n ++ [row]).
  split; [rewrite E1, app_assoc; reflexivity|].
  split; [rewrite E2, length_app; simpl; lia|].
  split; [apply Forall_app; split; [exact E3|repeat constructor; exact Hr]|].
  split; [rewrite filter_snoc_true by (rewrite Hr; apply Z.eqb_refl); rewrite map_app, E4; reflexivity|].
  intros Hb. rewrite map_app. apply NoDup_snoc; [|exact (E5 Hb)].
  rewrite E4 in Hin. apply (key_notin_src key sid ksid src _ _ Hk); [rewrite Hk; exact Hr|exact Hin].
Qed.

Lemma grant_steps_tab src bp bs bf spells features ot oid :
  (forall s x s', gr_tab src bp bs bf s -> prof_step src ot oid s x = Ok s' -> gr_tab src bp bs bf s') /\
  (forall s x s', gr_tab src bp bs bf s -> spell_grant_step src spells ot oid s x = Ok s' ->
     gr_tab src bp bs bf s') /\
  (forall s x s', gr_tab src bp bs bf s -> feature_grant_step src features ot oid s x = Ok s' ->
     gr_tab src bp bs bf s').
Proof.
  refine (conj _ (conj _ _)); intros s x s' (T1 & T2 & T3);
    [destruct x as [[a b] c]; unfold prof_step
    | destruct x as [a b]; unfold spell_grant_step
    | destruct x as [a b]; unfold feature_grant_step];
    grant_step_cases; try (repeat split; assumption).
  1: refine (conj _ (conj T2 T3)); cbn [gr_profs gr_prof_created gr_prof_keys];
     destruct T1 as (n & E1 & E2 & E3 & E4 & E5);
     eapply (tab_snoc prof_key gp_source_id (fun k => k.1.1.1.1.1) src);
       [intros g; reflexivity|reflexivity|exact E1|exact E2|exact E3|exact E4|exact E5|exact Hin].
  1-2: refine (conj T1 (conj _ T3)); cbn [gr_spells gr_spell_created gr_spell_keys];
     destruct T2 as (n & E1 & E2 & E3 & E4 & E5);
     eapply (tab_snoc spell_grant_key gs_source_id (fun k => k.1.1.1.1) src);
       [intros g; reflexivity|reflexivity|exact E1|exact E2|exact E3|exact E4|exact E5|exact Hin].
  1-2: refine (conj T1 (conj T2 _)); cbn [gr_features gr_feature_created gr_feature_keys];
     destruct T3 as (n & E1 & E2 & E3 & E4 & E5);
     eapply (tab_snoc feature_grant_key gf_source_id (fun k => k.1.1.1.1) src);
       [intros g; reflexivity|reflexivity|exact E1|exact E2|exact E3|exact E4|exact E5|exact Hin].
Qed.

Lemma grants_raw_step_tab src bp bs bf classes subclasses features spells s r s' :
  gr_tab src bp bs bf s -> grants_raw_step src classes subclasses features spells s r = Ok s' ->
  gr_tab src bp bs bf s'.
Proof.
  unfold grants_raw_step. intros Htab.
  destruct (if String.eqb _ "class" then _ else _) as [owner|]; [|intros [= <-]; exact Htab].
  destruct (grant_steps_tab src bp bs bf spells features (re_entity_type r) (ent_id owner))
    as [I1 [I2 I3]].
  destruct (_collect_proficiency_grants _) as [p|e]; simpl; [|discriminate].
  destruct (foldM _ s p) as [s1|e] eqn:E1; simpl; [|discriminate].
  destruct (_collect_spell_grants _) as [sp|e]; simpl; [|discriminate].
  destruct (foldM _ s1 sp) as [s2|e] eqn:E2; simpl; [|discriminate].
  destruct (_collect_feature_grants _) as [fg|e]; simpl; [|discriminate].
  intros E3.
  refine (foldM_inv _ _ I3 _ _ _ _ E3).
  refine (foldM_inv _ _ I2 _ _ _ _ E2).
  exact (foldM_inv _ _ I1 _ _ _ Htab E1).
Qed.

Lemma source_or_raise_ok db name msg source :
  source_or_raise db name msg = Ok source ->
  In source (db_sources db) /\ src_name source = name.
Proof.
  unfold source_or_raise.
  destruct (filter _ (db_sources db)) as [|x [|y l]] eqn:E; simpl; try discriminate.
  intros [= <-]. assert (Hx : x ∈ filter (fun s => String.eqb (src_name s) name) (db_sources db))
    by (rewrite E; left).
  apply list_elem_of_filter in Hx as [Hn Hx]. split; [apply list_elem_of_In, Hx|].
  apply String.eqb_eq. destruct (String.eqb _ _); [reflexivity|contradiction].
Qed.

Lemma source_or_raise_single db name msg source :
  source_or_raise db name msg = Ok source ->
  filter (fun s => String.eqb (src_name s) name) (db_sources db) = [source].
Proof.
  unfold source_or_raise.
  destruct (filter _ (db_sources db)) as [|x [|y l]]; simpl; try discriminate.
  intros [= <-]. reflexivity.
Qed.

Lemma groups_of_source_in g groups src :
  In g groups -> cg_source_id g = src -> groups_of_source src groups <> [].
Proof.
  intros Hin Hs E.
  assert (Hg : g ∈ groups_of_source src groups).
  { apply list_elem_of_filter. split; [apply Is_true_true, Z.eqb_eq; exact Hs|].
    apply list_elem_of_In, Hin. }
  rewrite E in Hg. inversion Hg.
Qed.

(** With the named source holding a choice group, [load_choices] raises
    at the loop that fills [group_lookup]. *)
Lemma load_choices_source_groups db name source :
  filter (fun s => String.eqb (src_name s) name) (db_sources db) = [source] ->
  groups_of_source (src_id source) (db_groups db) <> [] ->
  load_choices db name = Err no_source_key_attr.
Proof.
  intros Hs Hg.
  destruct (groups_of_source (src_id source) (db_groups db)) as [|g l] eqn:E; [contradiction|].
  unfold load_choices, source_or_raise. rewrite Hs. cbn -[groups_of_source foldM].
  rewrite E. reflexivity.
Qed.

(** The same for [load_prereqs], at [choice_groups_by_source_key]. *)
Lemma load_prereqs_source_groups db name source :
  filter (fun s => String.eqb (src_name s) name) (db_sources db) = [source] ->
  groups_of_source (src_id source) (db_groups db) <> [] ->
  load_prereqs db name = Err no_source_key_attr.
Proof.
  intros Hs Hg.
  destruct (groups_of_source (src_id source) (db_groups db)) as [|g l] eqn:E; [contradiction|].
  unfold load_prereqs, source_or_raise. rewrite Hs. cbn -[groups_of_source foldM].
  unfold choice_groups_by_source_key. rewrite E. reflexivity.
Qed.

Lemma option_in_source_in gs src o g :
  In g gs -> cg_id g = co_group_id o -> cg_source_id g = src ->
  option_in_source gs src o = true.
Proof.
  intros Hg Hi Hs. apply existsb_exists. exists g. split; [exact Hg|].
  rewrite Hi, Hs, !Z.eqb_refl. reflexivity.
Qed.

Lemma option_in_source_app gs gs' src o :
  option_in_source gs src o = true -> option_in_source (gs ++ gs') src o = true.
Proof. unfold option_in_source. rewrite existsb_app. intros ->. reflexivity. Qed.

Lemma group_lookup_get_in l k g : group_lookup_get l k = Some g -> In (k, g) l.
Proof.
  unfold group_lookup_get. destruct (find _ l) as [[k' g']|] eqn:E; simpl; [|discriminate].
  intros [= <-]. apply find_some in E as [Hin Hk]. apply bool_decide_eq_true in Hk.
  simpl in Hk. subst k'. exact Hin.
Qed.

Lemma group_lookup_init_ok l gl : group_lookup_init l = Ok gl -> l = [] /\ gl = [].
Proof. destruct l; simpl; [intros [= <-]; auto|discriminate]. Qed.

Lemma add_group_ok s key g s1 :
  add_group s key g = Ok s1 ->
  existsb (group_conflict g) (cs_groups s) = false /\ cs_pending_conflict s = false /\
  s1 = {| cs_groups := cs_groups s ++ [g]; cs_options := cs_options s;
          cs_lookup := cs_lookup s ++ [(key, g)]; cs_option_keys := cs_option_keys s;
          cs_pending_conflict := false; cs_group_created := cs_group_created s + 1;
          cs_option_created := cs_option_created s; cs_missing := cs_missing s |}.
Proof.
  unfold add_group. destruct (existsb _ _); [discriminate|].
  destruct (cs_pending_conflict s); [discriminate|]. intros [= <-]. auto.
Qed.

Lemma normalize_option_type_cases v :
  _normalize_option_type v = "feature" \/ _normalize_option_type v = "spell" \/
  _normalize_option_type v = "string".
Proof.
  unfold _normalize_option_type. destruct (negb (truthy v)); [auto|].
  destruct (py_in_list _ ["feature"; _; _]); [auto|].
  destruct (py_in_list _ ["spell"; _]); auto.
Qed.

Lemma new_option_ok_app gs gs' src o :
  new_option_ok gs src o -> new_option_ok (gs ++ gs') src o.
Proof. intros (H1 & H2 & H3). split; [by apply option_in_source_app|auto]. Qed.

Lemma choice_option_step_tab src bg bo features group ct s x s' :
  cs_tab src bg bo s -> In group (cs_groups s) -> cg_source_id group = src ->
  choice_option_step features group ct s x = Ok s' ->
  cs_tab src bg bo s' /\ In group (cs_groups s').
Proof.
  intros Htab Hg Hsrc. unfold choice_option_step.
  destruct (_parse_option x (default_option_type ct)) as [[otr osk] lbl].
  case_bool_decide; [intros [= <-]; auto|].
  intros [= <-]. cbn [cs_groups cs_options cs_lookup cs_group_created cs_option_created].
  split; [|exact Hg].
  destruct Htab as (ng & no & E1 & E2 & E3 & E4 & F1 & F2 & F3).
  eexists ng, (no ++ [_]).
  split; [exact E1|]. split; [rewrite E2, app_assoc; reflexivity|].
  split; [exact E3|]. split; [rewrite E4, length_app; simpl; lia|]. split; [exact F1|].
  split; [|exact F3].
  apply Forall_app. split; [exact F2|]. constructor; [|constructor].
  split; [eapply option_in_source_in; [exact Hg|reflexivity|exact Hsrc]|].
  split; [apply normalize_option_type_cases|reflexivity].
Qed.

Lemma choice_step_tab src bg bo features ot owner payload s c s' :
  cs_tab src bg bo s -> choice_step src features ot owner payload s c = Ok s' ->
  cs_tab src bg bo s'.
Proof.
  intros Htab. unfold choice_step.
  destruct (choice_choose_n c) as [[n|]|e]; simpl; [| intros [= <-]; exact Htab | discriminate].
  destruct (choice_level c payload owner) as [level|e]; simpl; [|discriminate].
  match goal with |- context [group_lookup_get (cs_lookup s) ?k] =>
    set (key := k); destruct (group_lookup_get (cs_lookup s) key) as [g|] eqn:Hg end.
  - simpl. intros H.
    apply group_lookup_get_in in Hg.
    assert (Hgs : In g (cs_groups s) /\ cg_source_id g = src).
    { destruct Htab as (ng & no & _ & _ & _ & _ & _ & _ & F3).
      exact (proj1 (List.Forall_forall _ _) F3 _ Hg). }
    refine (proj1 (foldM_inv _ (fun s => cs_tab src bg bo s /\ In g (cs_groups s)) _ _ _ _
                     (conj Htab (proj1 Hgs)) H)).
    intros s1 x s2 [H1 H2] H3.
    exact (choice_option_step_tab _ _ _ _ _ _ _ _ _ H1 H2 (proj2 Hgs) H3).
  - match goal with |- context [add_group s key ?G] =>
      destruct (add_group s key G) as [s1|e] eqn:Ha end; simpl; [|discriminate].
    intros H. apply add_group_ok in Ha as (_ & _ & ->).
    match type of H with foldM (choice_option_step _ ?G _) ?s1 _ = _ =>
      refine (proj1 (foldM_inv _ (fun s => cs_tab src bg bo s /\ In G (cs_groups s)) _ _ s1 _
                       _ H)) end.
    + intros s1 x s2 [H1 H2] H3. exact (choice_option_step_tab _ _ _ _ _ _ _ _ _ H1 H2 eq_refl H3).
    + split; [|simpl; apply in_or_app; right; left; reflexivity].
      destruct Htab as (ng & no & E1 & E2 & E3 & E4 & F1 & F2 & F3).
      eexists (ng ++ [_]), no.
      cbn [cs_groups cs_options cs_lookup cs_group_created cs_option_created].
      split; [rewrite E1, app_assoc; reflexivity|]. split; [exact E2|].
      split; [rewrite E3, length_app; simpl; lia|]. split; [exact E4|].
      split; [apply Forall_app; split; [exact F1|constructor; [reflexivity|constructor]]|].
      split; [refine (Forall_impl _ _ _ F2 _); intros o; apply new_option_ok_app|].
      apply Forall_app. split.
      * refine (Forall_impl _ _ _ F3 _). intros p [Hp Hs].
        split; [apply in_or_app; left; exact Hp|exact Hs].
      * constructor; [|constructor]. split; [|reflexivity].
        apply in_or_app. right. left. reflexivity.
Qed.

Lemma choices_raw_step_tab src bg bo classes features s r s' :
  cs_tab src bg bo s -> choices_raw_step src classes features s r = Ok s' -> cs_tab src bg bo s'.
Proof.
  unfold choices_raw_step. destruct (if String.eqb _ "class" then _ else _) as [owner|].
  - intros Htab H. refine (foldM_inv _ (cs_tab src bg bo) _ _ _ _ Htab H).
    intros. eapply choice_step_tab; eassumption.
  - intros Htab [= <-]. exact Htab.
Qed.

(** What a successful [load_choices] implies: the named source is the
    one source of that name, it had no choice group, and the run appended
    groups of that source and options, as many as its counters say. *)
Lemma load_choices_ok_inv db name db1 cnt :
  load_choices db name = Ok (db1, cnt) ->
  exists source ng no m,
    filter (fun s => String.eqb (src_name s) name) (db_sources db) = [source] /\
    groups_of_source (src_id source) (db_groups db) = [] /\
    db1 = set_choices db (db_groups db ++ ng) (db_options db ++ no) /\
    cnt = [("choice_groups_created", Z.of_nat (length ng));
           ("choice_options_created", Z.of_nat (length no));
           ("unresolved_feature_refs", m)] /\
    Forall (fun g => cg_source_id g = src_id source) ng /\
    Forall (new_option_ok (db_groups db1) (src_id source)) no.
Proof.
  unfold load_choices.
  destruct (source_or_raise db name _) as [source|e] eqn:Hs; simpl; [|discriminate].
  destruct (group_lookup_init _) as [gl|e] eqn:Hgl; simpl; [|discriminate].
  apply group_lookup_init_ok in Hgl as [Hg ->].
  destruct (foldM _ _ _) as [s|e] eqn:Hf; simpl; [|discriminate].
  destruct (cs_pending_conflict s); [discriminate|].
  intros [= <- <-].
  assert (Hinit : cs_tab (src_id source) (db_groups db) (db_options db)
                    (choices_init db (src_id source) [])).
  { exists [], []. rewrite !app_nil_r. repeat split; auto. }
  destruct (foldM_inv _ _ (fun s x s' => choices_raw_step_tab _ _ _ _ _ s x s') _ _ _ Hinit Hf)
    as (ng & no & E1 & E2 & E3 & E4 & F1 & F2 & _).
  exists source, ng, no, (cs_missing s).
  split; [exact (source_or_raise_single _ _ _ _ Hs)|]. split; [exact Hg|].
  rewrite <- E1, <- E2, E3, E4. repeat split; auto.
Qed.

(** A [load_choices] run that created a group leaves the source with a
    group. *)
Lemma load_choices_created_group db name db1 n rest :
  load_choices db name = Ok (db1, ("choice_groups_created", n) :: rest) -> 0 < n ->
  exists source,
    filter (fun s => String.eqb (src_name s) name) (db_sources db1) = [source] /\
    groups_of_source (src_id source) (db_groups db1) <> [].
Proof.
  intros H Hn.
  destruct (load_choices_ok_inv _ _ _ _ H) as (source & ng & no & m & Hs & _ & -> & Hc & F1 & _).
  injection Hc as Hn' _. exists source. split; [exact Hs|].
  destruct ng as [|g ng]; [simpl in Hn'; lia|].
  inversion F1 as [|? ? Hg0 _]; subst.
  apply (groups_of_source_in g); [simpl; apply in_or_app; right; left; reflexivity|exact Hg0].
Qed.

(** What a successful [load_prereqs] implies: the named source is the
    one source of that name and it had no choice group. *)
Lemma load_prereqs_ok_source db name db1 cnt :
  load_prereqs db name = Ok (db1, cnt) ->
  exists source,
    filter (fun s => String.eqb (src_name s) name) (db_sources db) = [source] /\
    groups_of_source (src_id source) (db_groups db) = [].
Proof.
  unfold load_prereqs.
  destruct (source_or_raise db name _) as [source|e] eqn:Hs; simpl; [|discriminate].
  unfold choice_groups_by_source_key.
  destruct (groups_of_source (src_id source) (db_groups db)) as [|g l] eqn:Hg;
    simpl; [|discriminate].
  intros _. exists source. split; [exact (source_or_raise_single _ _ _ _ Hs)|exact Hg].
Qed.

(** The rows a step of [load_grants] adds have keys no starting row has. *)
Lemma fresh_snoc {A K} (key : A -> K) (sid : A -> Z) (ksid : K -> Z) src base rows n keys row :
  (forall g, ksid (key g) = sid g) -> sid row = src -> rows = base ++ n ->
  keys = map key (filter (fun g => Z.eqb (sid g) src) rows) -> key row ∉ keys ->
  (forall n', rows = base ++ n' -> Forall (fun g => key g ∉ map key base) n') ->
  forall n', rows ++ [row] = base ++ n' -> Forall (fun g => key g ∉ map key base) n'.
Proof.
  intros Hk Hr E1 E4 Hin Hf n' En'.
  pose proof (Hf n E1) as Hn. subst rows keys.
  rewrite <- app_assoc in En'. apply app_inv_head in En'. subst n'.
  apply Forall_app. split; [exact Hn|]. constructor; [|constructor].
  pose proof (key_notin_src key sid ksid src (base ++ n) (key row) Hk
                ltac:(rewrite Hk; exact Hr) Hin) as Hno.
  intros Hb. apply Hno. rewrite map_app. apply elem_of_app. left. exact Hb.
Qed.

Lemma grant_steps_fresh src bp bs bf spells features ot oid :
  (forall s x s', gr_tab src bp bs bf s -> gr_fresh bp bs bf s ->
     prof_step src ot oid s x = Ok s' -> gr_fresh bp bs bf s') /\
  (forall s x s', gr_tab src bp bs bf s -> gr_fresh bp bs bf s ->
     spell_grant_step src spells ot oid s x = Ok s' -> gr_fresh bp bs bf s') /\
  (forall s x s', gr_tab src bp bs bf s -> gr_fresh bp bs bf s ->
     feature_grant_step src features ot oid s x = Ok s' -> gr_fresh bp bs bf s').
Proof.
  refine (conj _ (conj _ _)); intros s x s' (T1 & T2 & T3) (F1 & F2 & F3);
    [destruct x as [[a b] c]; unfold prof_step
    | destruct x as [a b]; unfold spell_grant_step
    | destruct x as [a b]; unfold feature_grant_step];
    grant_step_cases; try exact (conj F1 (conj F2 F3)).
  1: refine (conj _ (conj F2 F3)); cbn [gr_profs];
     destruct T1 as (n & E1 & _ & _ & E4 & _);
     eapply (fresh_snoc prof_key gp_source_id (fun k => k.1.1.1.1.1) src);
       [intros g; reflexivity|reflexivity|exact E1|exact E4|exact Hin|exact F1].
  1-2: refine (conj F1 (conj _ F3)); cbn [gr_spells];
     destruct T2 as (n & E1 & _ & _ & E4 & _);
     eapply (fresh_snoc spell_grant_key gs_source_id (fun k => k.1.1.1.1) src);
       [intros g; reflexivity|reflexivity|exact E1|exact E4|exact Hin|exact F2].
  1-2: refine (conj F1 (conj F2 _)); cbn [gr_features];
     destruct T3 as (n & E1 & _ & _ & E4 & _);
     eapply (fresh_snoc feature_grant_key gf_source_id (fun k => k.1.1.1.1) src);
       [intros g; reflexivity|reflexivity|exact E1|exact E4|exact Hin|exact F3].
Qed.

Lemma grants_raw_step_fresh src bp bs bf classes subclasses features spells s r s' :
  gr_tab src bp bs bf s -> gr_fresh bp bs bf s ->
  grants_raw_step src classes subclasses features spells s r = Ok s' ->
  gr_fresh bp bs bf s'.
Proof.
  unfold grants_raw_step. intros Htab Hfr.
  destruct (if String.eqb _ "class" then _ else _) as [owner|]; [|intros [= <-]; exact Hfr].
  destruct (grant_steps_tab src bp bs bf spells features (re_entity_type r) (ent_id owner))
    as [I1 [I2 I3]].
  destruct (grant_steps_fresh src bp bs bf spells features (re_entity_type r) (ent_id owner))
    as [J1 [J2 J3]].
  set (P := fun s => gr_tab src bp bs bf s /\ gr_fresh bp bs bf s).
  destruct (_collect_proficiency_grants _) as [p|e]; simpl; [|discriminate].
  destruct (foldM _ s p) as [s1|e] eqn:E1; simpl; [|discriminate].
  destruct (_collect_spell_grants _) as [sp|e]; simpl; [|discriminate].
  destruct (foldM _ s1 sp) as [s2|e] eqn:E2; simpl; [|discriminate].
  destruct (_collect_feature_grants _) as [fg|e]; simpl; [|discriminate].
  intros E3.
  refine (proj2 (foldM_inv _ P _ _ _ _ _ E3)).
  { intros t x t' [H1 H2] H3. split; [exact (I3 _ _ _ H1 H3)|exact (J3 _ _ _ H1 H2 H3)]. }
  refine (foldM_inv _ P _ _ _ _ _ E2).
  { intros t x t' [H1 H2] H3. split; [exact (I2 _ _ _ H1 H3)|exact (J2 _ _ _ H1 H2 H3)]. }
  refine (foldM_inv _ P _ _ _ _ (conj Htab Hfr) E1).
  intros t x t' [H1 H2] H3. split; [exact (I1 _ _ _ H1 H3)|exact (J1 _ _ _ H1 H2 H3)].
Qed.

Lemma app_nil_inv_r {A} (l n : list A) : l = l ++ n -> n = [].
Proof.
  intros E. apply (f_equal length) in E. rewrite length_app in E.
  destruct n; [reflexivity|simpl in E; lia].
Qed.

(** * The claims *)

(** C1: a [load_choices] run that created a choice group leaves the
    source with a group, and then a second run of [load_choices], and any
    run of [load_prereqs], raises [AttributeError] on the
    [group.source_key] the model does not have. *)
Theorem loaders_second_run_raises db name db1 n rest :
  load_choices db name = Ok (db1, ("choice_groups_created", n) :: rest) -> 0 < n ->
  load_choices db1 name = Err no_source_key_attr /\
  load_prereqs db1 name = Err no_source_key_attr.
Proof.
  intros H Hn.
  destruct (load_choices_created_group _ _ _ _ _ H Hn) as (source & Hs & Hg).
  split; [exact (load_choices_source_groups _ _ _ Hs Hg)
         |exact (load_prereqs_source_groups _ _ _ Hs Hg)].
Qed.

Lemma loaders_second_run_raises_witness :
  load_choices fighter_db "5e-bits" =
    Ok (fighter_db1, [("choice_groups_created", 1); ("choice_options_created", 2);
                      ("unresolved_feature_refs", 2)]) /\
  load_choices fighter_db1 "5e-bits" = Err no_source_key_attr /\
  load_prereqs fighter_db1 "5e-bits" = Err no_source_key_attr.
Proof.
  split; [vm_compute; reflexivity|].
  apply (loaders_second_run_raises fighter_db "5e-bits" fighter_db1 1
           [("choice_options_created", 2); ("unresolved_feature_refs", 2)]).
  - vm_compute. reflexivity.
  - lia.
Defined.

(** C2: two well-formed payloads (distinct keys in each object, as
    [json.loads] returns them) that are equal up to the order of the keys
    of their objects have the same [canonical_json_hash]; the hash is a
    function of the [sort_keys] serialisation only. *)
Theorem canonical_json_hash_key_order p q :
  json_wf p -> jeq p q -> canonical_json_hash p = canonical_json_hash q.
Proof.
  intros Hwf Hj. unfold canonical_json_hash. f_equal. f_equal.
  exact (dumps_jeq p q Hwf Hj).
Qed.

Lemma canonical_json_hash_key_order_witness :
  canonical_json_hash (JObj [("a", JInt 1); ("b", JInt 2)]) =
  canonical_json_hash (JObj [("b", JInt 2); ("a", JInt 1)]).
Proof.
  apply canonical_json_hash_key_order.
  - split; [apply (bool_decide_unpack _); vm_compute; exact I | simpl; repeat split].
  - apply (jeq_obj _ [("a", JInt 1); ("b", JInt 2)]).
    + repeat constructor.
    + apply perm_swap.
Defined.

(** C3 (counterexample): on an equal hash the row's [updated_at] moves
    too.  The stored row was retrieved and updated at time 5; an upsert at
    time 7 with the same payload reports unchanged, but the flush issues
    an UPDATE whose [onupdate] hook sets [updated_at] to the flush time
    (8). *)
Lemma upsert_equal_hash_touches_updated_at :
  match upsert_raw_entity [stored_fb] 7 8 1 "spell" "fireball" (fireball 2)
          (Some "Fireball") (Some true) None with
  | Ok (_, (e, created, updated)) =>
      created = false /\ updated = false /\ re_updated_at stored_fb = 5 /\
      re_updated_at e = 8
  | Err _ => False
  end.
Proof. vm_compute. auto. Qed.

(** C3: [upsert_raw_entity] on the scope (source_id, entity_type,
    source_key): with no row it inserts one built from the payload and
    returns created; with a row of equal hash it returns unchanged, keeps
    the id, payload, hash, name, srd, url and [created_at], sets
    [retrieved_at] to now and, through the ORM's [onupdate], [updated_at]
    to the flush time; with a row of a different hash it overwrites
    payload, hash, name, srd and url, sets [retrieved_at] and
    [updated_at] to now and returns updated. *)
Theorem upsert_raw_entity_contract rows now flush_now sid et sk payload name srd url :
  (filter (raw_scope sid et sk) rows = [] ->
   exists e,
     upsert_raw_entity rows now flush_now sid et sk payload name srd url =
       Ok (rows ++ [e], (e, true, false)) /\
     re_source_id e = sid /\ re_entity_type e = et /\ re_source_key e = sk /\
     re_raw_json e = payload /\ re_raw_hash e = canonical_json_hash payload /\
     re_name e = name /\ re_srd e = srd /\ re_url e = url /\
     re_retrieved_at e = now /\ re_created_at e = now /\ re_updated_at e = now) /\
  (forall e, filter (raw_scope sid et sk) rows = [e] ->
   re_raw_hash e = canonical_json_hash payload ->
   exists e2,
     upsert_raw_entity rows now flush_now sid et sk payload name srd url =
       Ok (replace_row e e2 rows, (e2, false, false)) /\
     re_id e2 = re_id e /\
     re_raw_json e2 = re_raw_json e /\ re_raw_hash e2 = re_raw_hash e /\
     re_name e2 = re_name e /\ re_srd e2 = re_srd e /\ re_url e2 = re_url e /\
     re_created_at e2 = re_created_at e /\ re_retrieved_at e2 = now /\
     re_updated_at e2 = flush_now) /\
  (forall e, filter (raw_scope sid et sk) rows = [e] ->
   re_raw_hash e <> canonical_json_hash payload ->
   exists e2,
     upsert_raw_entity rows now flush_now sid et sk payload name srd url =
       Ok (replace_row e e2 rows, (e2, false, true)) /\
     re_id e2 = re_id e /\
     re_raw_json e2 = payload /\ re_raw_hash e2 = canonical_json_hash payload /\
     re_name e2 = name /\ re_srd e2 = srd /\ re_url e2 = url /\
     re_created_at e2 = re_created_at e /\ re_retrieved_at e2 = now /\
     re_updated_at e2 = now).
Proof.
  unfold upsert_raw_entity. refine (conj _ (conj _ _)).
  - intros H. rewrite H. simpl. eexists. split; [reflexivity|]. repeat split.
  - intros e H Hh. rewrite H. simpl. rewrite Hh, String.eqb_refl.
    eexists. split; [reflexivity|]. simpl. repeat split.
  - intros e H Hh. rewrite H. simpl.
    destruct (String.eqb_spec (re_raw_hash e) (canonical_json_hash payload)) as [E|_];
      [contradiction|].
    eexists. split; [reflexivity|]. simpl. repeat split.
Qed.

Lemma upsert_raw_entity_contract_witness :
  exists e2,
    upsert_raw_entity [stored_fb] 7 8 1 "spell" "fireball" (fireball 2)
      (Some "Fireball") (Some true) None =
      Ok (replace_row stored_fb e2 [stored_fb], (e2, false, false)) /\
    re_retrieved_at e2 = 7 /\ re_updated_at e2 = 8 /\ re_raw_hash e2 = re_raw_hash stored_fb.
Proof.
  destruct (proj1 (proj2 (upsert_raw_entity_contract [stored_fb] 7 8 1 "spell" "fireball"
              (fireball 2) (Some "Fireball") (Some true) None)) stored_fb)
    as (e2 & Hu & _ & _ & Hh & _ & _ & _ & _ & Hr & Hup).
  - vm_compute. reflexivity.
  - vm_compute. reflexivity.
  - exists e2. split; [exact Hu | split; [exact Hr | split; [exact Hup | exact Hh]]].
Defined.

(** C4: once a [load_choices] run has created a choice group, running it
    again on the same database with any raw documents (for example the
    fighter document with a third "Fighting Style" option) raises
    [AttributeError] before it looks at a document. *)
Theorem choice_growth_rerun_raises db name db1 n rest raw :
  load_choices db name = Ok (db1, ("choice_groups_created", n) :: rest) -> 0 < n ->
  load_choices (with_raw db1 raw) name = Err no_source_key_attr.
Proof.
  intros H Hn.
  destruct (load_choices_created_group _ _ _ _ _ H Hn) as (source & Hs & Hg).
  exact (load_choices_source_groups (with_raw db1 raw) name source Hs Hg).
Qed.

Lemma choice_growth_rerun_raises_witness :
  load_choices (with_raw fighter_db1 [fighter_raw (fs_two ++ [fs_new])]) "5e-bits" =
    Err no_source_key_attr.
Proof.
  apply (choice_growth_rerun_raises fighter_db "5e-bits" fighter_db1 1
           [("choice_options_created", 2); ("unresolved_feature_refs", 2)]).
  - vm_compute. reflexivity.
  - lia.
Defined.

(** C5 (counterexample): a node named "Invocation Expertise" matches both
    the expertise and the invocation heuristics and is classified
    "invocation". *)
Lemma invocation_expertise_node :
  py_in "expertise" (_choice_text [("name", JStr "Invocation Expertise")]) = true /\
  py_in "invocation" (_choice_text [("name", JStr "Invocation Expertise")]) = true /\
  _infer_choice_type [("name", JStr "Invocation Expertise")] [] None None = "invocation".
Proof. vm_compute. auto. Qed.

(** C5: [_infer_choice_type] applies its heuristics in the order
    fighting_style, invocation, expertise, spell-related (including an
    option that resolves to a spell reference), generic: each type is
    returned exactly when its own test holds and every earlier one fails. *)
Theorem infer_choice_type_priority node opts on ok :
  let fs := _infer_fighting_style node opts on ok in
  let inv := py_in "invocation" (_choice_text node) || py_in "invocation" (_owner_text on ok) in
  let exp := py_in "expertise" (_choice_text node) || py_in "expertise" (_owner_text on ok) in
  let sp := py_in "spell" (_choice_text node) || py_in "cantrip" (_choice_text node)
            || py_in "spell" (_choice_keys_text node) || py_in "cantrip" (_choice_keys_text node)
            || py_in "spell" (_owner_text on ok) || py_in "cantrip" (_owner_text on ok)
            || _options_have_spell_reference opts in
  (_infer_choice_type node opts on ok = "fighting_style" <-> fs = true) /\
  (_infer_choice_type node opts on ok = "invocation" <-> fs = false /\ inv = true) /\
  (_infer_choice_type node opts on ok = "expertise" <->
     fs = false /\ inv = false /\ exp = true) /\
  (_infer_choice_type node opts on ok = "spell" <->
     fs = false /\ inv = false /\ exp = false /\ sp = true) /\
  (_infer_choice_type node opts on ok = "generic" <->
     fs = false /\ inv = false /\ exp = false /\ sp = false).
Proof.
  intros fs inv exp sp. unfold _infer_choice_type. fold fs. cbv zeta. fold inv exp sp.
  destruct fs, inv, exp, sp; cbv iota; intuition (try discriminate; try congruence).
Qed.

(** C6 (counterexample): the node [{level: 2, class: fighter}] without a
    [type] parses to one row, the level row. *)
Lemma level_and_class_one_row :
  _parse_prereq_entry [("level", JInt 2); ("class", JStr "fighter")] =
    Ok [("level", "fighter", ">=", "2", None)].
Proof. vm_compute. reflexivity. Qed.

(** C6: a prerequisite node with a minimum level and a class key yields
    exactly one "level" row, keyed by the class, with operator ">=" (unless
    the node gives one) and the level as value; it yields a "class" row
    (operator "==", value "true") only when the node's [type] is "class". *)
Theorem parse_prereq_level_and_class entry lv ck rows :
  coerce_first (dget entry "level") (dget entry "minimum_level") = Ok (Some lv) ->
  _extract_key (dget entry "class") = Some ck -> ck <> ""%string ->
  _parse_prereq_entry entry = Ok rows ->
  let entry_type := py_lower (py_str (json_or (dget entry "type") (JStr ""))) in
  let op := py_strip (py_str (json_or (dget entry "operator") (JStr ""))) in
  let operator := if String.eqb op "" then None else Some op in
  filter (fun r => String.eqb (prereq_type_of r) "level") rows =
    [("level", ck, str_or operator ">=", z_to_dec lv, _entry_notes entry)] /\
  filter (fun r => String.eqb (prereq_type_of r) "class") rows =
    (if String.eqb entry_type "class"
     then [("class", ck, str_or operator "==", "true", _entry_notes entry)] else []).
Proof.
  intros Hlv Hck Hne H. unfold _parse_prereq_entry in H. rewrite Hlv in H. simpl in H.
  destruct (_coerce_int (dget entry "minimum_score")) as [m1|e]; simpl in H; [|discriminate].
  destruct (match m1 with Some _ => Ok m1 | None => _ end) as [ms|e]; simpl in H; [|discriminate].
  injection H as <-. rewrite Hck.
  assert (Ht : ostr_truthy (Some ck) = true) by (simpl; destruct (String.eqb_spec ck ""); [contradiction|reflexivity]).
  assert (Hs : str_or (Some ck) "any" = ck) by (unfold str_or, ostr_or; destruct (String.eqb_spec ck ""); [contradiction|reflexivity]).
  rewrite Ht, Hs. simpl. rewrite andb_false_r. simpl. rewrite orb_false_r.
  repeat case_match; simpl; split; try reflexivity; try discriminate.
Qed.

Lemma parse_prereq_level_and_class_witness :
  filter (fun r => String.eqb (prereq_type_of r) "level")
    [("level", "fighter", ">=", "2", None); ("class", "fighter", "==", "true", None)] =
    [("level", "fighter", ">=", "2", None)] /\
  filter (fun r => String.eqb (prereq_type_of r) "class")
    [("level", "fighter", ">=", "2", None); ("class", "fighter", "==", "true", None)] =
    [("class", "fighter", "==", "true", None)].
Proof.
  exact (parse_prereq_level_and_class level_class_entry 2 "fighter"
           [("level", "fighter", ">=", "2", None); ("class", "fighter", "==", "true", None)]
           ltac:(vm_compute; reflexivity) ltac:(vm_compute; reflexivity)
           ltac:(vm_compute; discriminate) ltac:(vm_compute; reflexivity)).
Defined.

(** C7: [create_snapshot] never returns a snapshot: with one source of
    the id it raises [AttributeError] on [ChoiceGroup.source_key], with
    none or several [.one()] raises. *)
Theorem create_snapshot_never_ok db source_id :
  exists e, create_snapshot db source_id = Err e.
Proof.
  unfold create_snapshot.
  destruct (filter _ (db_sources db)) as [|x [|y l]]; eexists; reflexivity.
Qed.

(** C8 (counterexample): the wizard's grant of "fireball" is stored with
    no spell id; after the fireball spell is loaded, a second
    [load_grants] run skips the grant (its key is already there) and the
    spell id stays null. *)
Lemma grant_spell_id_stays_null :
  by_key_get [fireball_spell] "fireball" = Some fireball_spell /\
  match load_grants grant_db "5e-bits" with
  | Ok (d, _) =>
      map (fun g => (gs_spell_source_key g, gs_spell_id g)) (db_grant_spells d) =
        [("fireball"%string, None)] /\
      match load_grants (with_refs d [fireball_spell] (db_features d)) "5e-bits" with
      | Ok (d2, c2) =>
          map (fun g => (gs_spell_source_key g, gs_spell_id g)) (db_grant_spells d2) =
            [("fireball"%string, None)] /\
          c2 = [("grant_proficiencies_created", 0); ("grant_spells_created", 0);
                ("grant_features_created", 0); ("missing_refs", 0)]
      | Err _ => False
      end
  | Err _ => False
  end.
Proof. vm_compute. auto. Qed.

(** C8: a grant's key leaves out the resolved reference id.  A
    [load_grants] run on a database whose [Spell] and [Feature] tables
    may have changed since the grants were stored (spells or features
    normalized, say) keeps every stored grant row as it is (its key and
    its resolved spell or feature id, so a null id stays null) and only
    appends rows whose keys no stored row has: no duplicate. *)
Theorem grants_rerun_after_refs db1 name spells features db2 c2 :
  load_grants (with_refs db1 spells features) name = Ok (db2, c2) ->
  exists np ns nf,
    db_grant_profs db2 = db_grant_profs db1 ++ np /\
    db_grant_spells db2 = db_grant_spells db1 ++ ns /\
    db_grant_features db2 = db_grant_features db1 ++ nf /\
    Forall (fun g => prof_key g ∉ map prof_key (db_grant_profs db1)) np /\
    Forall (fun g => spell_grant_key g ∉ map spell_grant_key (db_grant_spells db1)) ns /\
    Forall (fun g => feature_grant_key g ∉ map feature_grant_key (db_grant_features db1)) nf.
Proof.
  unfold load_grants.
  destruct (source_or_raise _ name _) as [source|e] eqn:Hs; simpl; [|discriminate].
  destruct (foldM _ _ _) as [s|e] eqn:Hf; simpl; [|discriminate].
  intros [= <- _].
  set (db := with_refs db1 spells features) in *.
  set (src := src_id source) in *.
  assert (Hinit : gr_tab src (db_grant_profs db) (db_grant_spells db) (db_grant_features db)
                    (grants_init db src)).
  { refine (conj _ (conj _ _)); exists []; rewrite app_nil_r; repeat split; auto. }
  assert (Hfr : gr_fresh (db_grant_profs db) (db_grant_spells db) (db_grant_features db)
                  (grants_init db src)).
  { refine (conj _ (conj _ _)); simpl; intros n En;
      rewrite (app_nil_inv_r _ _ En); constructor. }
  destruct (foldM_inv _ (fun s => gr_tab src (db_grant_profs db) (db_grant_spells db)
                                    (db_grant_features db) s /\
                                  gr_fresh (db_grant_profs db) (db_grant_spells db)
                                    (db_grant_features db) s)
              (fun s x s' H Hx => conj (grants_raw_step_tab _ _ _ _ _ _ _ _ s x s' (proj1 H) Hx)
                                       (grants_raw_step_fresh _ _ _ _ _ _ _ _ s x s'
                                          (proj1 H) (proj2 H) Hx))
              _ _ _ (conj Hinit Hfr) Hf) as [(T1 & T2 & T3) (F1 & F2 & F3)].
  destruct T1 as (np & P1 & _), T2 as (ns & S1 & _), T3 as (nf & R1 & _).
  exists np, ns, nf.
  refine (conj P1 (conj S1 (conj R1 (conj (F1 np P1) (conj (F2 ns S1) (F3 nf R1)))))).
Qed.

(** The grant tables a first run on [grant_db] leaves, and those of a
    second run once the fireball spell is loaded. *)
Lemma grants_rerun_after_refs_witness :
  exists ns,
    db_grant_spells (match load_grants (with_refs (match load_grants grant_db "5e-bits" with
                                                   | Ok (d, _) => d | Err _ => grant_db end)
                                          [fireball_spell] [])
                             "5e-bits" with
                     | Ok (d, _) => d | Err _ => grant_db end) =
    db_grant_spells (match load_grants grant_db "5e-bits" with
                     | Ok (d, _) => d | Err _ => grant_db end) ++ ns.
Proof.
  destruct (grants_rerun_after_refs
              (match load_grants grant_db "5e-bits" with Ok (d, _) => d | Err _ => grant_db end)
              "5e-bits" [fireball_spell] []
              (match load_grants (with_refs (match load_grants grant_db "5e-bits" with
                                             | Ok (d, _) => d | Err _ => grant_db end)
                                    [fireball_spell] [])
                       "5e-bits" with
               | Ok (d, _) => d | Err _ => grant_db end)
              [("grant_proficiencies_created", 0); ("grant_spells_created", 0);
               ("grant_features_created", 0); ("missing_refs", 0)]
              ltac:(vm_compute; reflexivity))
    as (np & ns & nf & _ & Hs & _).
  exists ns. exact Hs.
Defined.

(** C9: [_check_prereqs] succeeds iff every row passes [check_prereq];
    the first failing row's failure is the result; a "level" row passes
    iff its key is "any" or the class's source key and its value parses
    to an integer [v] with [operator(level, v)]; a row of an unsupported
    type fails with "Unsupported prerequisite type". *)
Theorem check_prereqs_contract db cr sk fids lvl ab :
  (forall ps, _check_prereqs db cr sk fids lvl ab ps = Ok tt <->
              Forall (fun p => check_prereq db cr sk fids lvl ab p = Ok tt) ps) /\
  (forall pre p post e,
     Forall (fun q => check_prereq db cr sk fids lvl ab q = Ok tt) pre ->
     check_prereq db cr sk fids lvl ab p = Err e ->
     _check_prereqs db cr sk fids lvl ab (pre ++ p :: post) = Err e) /\
  (forall p, pr_prereq_type p = "level"%string ->
     (check_prereq db cr sk fids lvl ab p = Ok tt <->
      (pr_key p = "any"%string \/ pr_key p = ent_source_key cr) /\
      exists v, int_or_raise (JStr (pr_value p)) = Ok v /\
                _compare_int (pr_operator p) lvl v = true)) /\
  (forall p, ~ In (pr_prereq_type p) ["class"; "subclass"; "feature"; "level"; "ability"]%string ->
     check_prereq db cr sk fids lvl ab p =
       Err ("ValueError: Unsupported prerequisite type: " +:+ pr_prereq_type p)).
Proof.
  refine (conj _ (conj _ (conj _ _))).
  - intros ps. induction ps as [|p ps IH].
    + split; [constructor | reflexivity].
    + rewrite check_prereqs_cons, Forall_cons.
      destruct (check_prereq db cr sk fids lvl ab p) as [[]|e]; simpl.
      * rewrite IH. intuition.
      * split; [discriminate | intros [H _]; discriminate].
  - intros pre p post e Hpre Hp. induction Hpre as [|q pre Hq _ IH]; simpl.
    + rewrite check_prereqs_cons, Hp. reflexivity.
    + rewrite check_prereqs_cons, Hq. exact IH.
  - intros p Ht. unfold check_prereq. rewrite Ht. cbn -[int_or_raise].
    destruct (String.eqb_spec (pr_key p) "any") as [E1|N1];
      [|destruct (String.eqb_spec (pr_key p) (ent_source_key cr)) as [E2|N2]]; simpl.
    + destruct (int_or_raise _) as [v|e]; simpl.
      * destruct (_compare_int _ lvl v) eqn:Hc; simpl.
        -- split; [intros _; split; [left; exact E1 | exists v; auto] | reflexivity].
        -- split; [discriminate|]. intros [_ (v' & [= <-] & Hc')]. congruence.
      * split; [discriminate|]. intros [_ (v' & [=] & _)].
    + destruct (int_or_raise _) as [v|e]; simpl.
      * destruct (_compare_int _ lvl v) eqn:Hc; simpl.
        -- split; [intros _; split; [right; exact E2 | exists v; auto] | reflexivity].
        -- split; [discriminate|]. intros [_ (v' & [= <-] & Hc')]. congruence.
      * split; [discriminate|]. intros [_ (v' & [=] & _)].
    + split; [discriminate|]. intros [[H|H] _]; contradiction.
  - intros p Hn. unfold check_prereq.
    destruct (String.eqb_spec (pr_prereq_type p) "class") as [E|_];
      [exfalso; apply Hn; rewrite E; left; reflexivity|].
    destruct (String.eqb_spec (pr_prereq_type p) "subclass") as [E|_];
      [exfalso; apply Hn; rewrite E; right; left; reflexivity|].
    destruct (String.eqb_spec (pr_prereq_type p) "feature") as [E|_];
      [exfalso; apply Hn; rewrite E; do 2 right; left; reflexivity|].
    destruct (String.eqb_spec (pr_prereq_type p) "level") as [E|_];
      [exfalso; apply Hn; rewrite E; do 3 right; left; reflexivity|].
    destruct (String.eqb_spec (pr_prereq_type p) "ability") as [E|_];
      [exfalso; apply Hn; rewrite E; do 4 right; left; reflexivity|].
    reflexivity.
Qed.

Lemma check_prereqs_contract_witness :
  check_prereq empty_db fighter None [] 3 None level2_any = Ok tt /\
  exists v, int_or_raise (JStr (pr_value level2_any)) = Ok v /\
            _compare_int (pr_operator level2_any) 3 v = true.
Proof.
  destruct (proj1 (proj1 (proj2 (proj2 (check_prereqs_contract empty_db fighter None [] 3 None)))
                     level2_any eq_refl) eq_refl) as [_ Hv].
  split; [reflexivity | exact Hv].
Defined.

(** C10: when a [CharacterLevel] row for (character_id, level) already
    exists, [apply_level_up] fails before adding any row: the session is
    returned unchanged; under the table's unique key on (character_id,
    level) the error is "Character already has level {level}.". *)
Theorem apply_level_up_existing s cid clid lvl sub ch ab r :
  In r (se_character_levels s) -> cl_character_id r = cid -> cl_level r = lvl ->
  exists e,
    apply_level_up s cid clid lvl sub ch ab = (s, Err e) /\
    (NoDup (map level_key (se_character_levels s)) ->
     e = ("ValueError: Character already has level " +:+ z_to_dec lvl +:+ ".")%string).
Proof.
  intros Hin Hc Hl. unfold apply_level_up.
  change (filter _ (se_character_levels s)) with (filter (level_at cid lvl) (se_character_levels s)).
  assert (Hk : level_key r = (cid, lvl)) by (unfold level_key; rewrite Hc, Hl; reflexivity).
  destruct (filter (level_at cid lvl) (se_character_levels s)) as [|x [|y rest]] eqn:Hf.
  - exfalso. assert (Hr : r ∈ filter (level_at cid lvl) (se_character_levels s)).
    { apply list_elem_of_filter. split; [apply Is_true_true, level_at_iff, Hk | by apply list_elem_of_In]. }
    rewrite Hf in Hr. inversion Hr.
  - simpl. eexists. split; [reflexivity|]. intros _. reflexivity.
  - simpl. eexists. split; [reflexivity|]. intros Hnd.
    rewrite (levels_filter_single _ r cid lvl Hin Hk Hnd) in Hf. discriminate.
Qed.

Lemma apply_level_up_existing_witness :
  apply_level_up level1_session 1 10 1 None None None =
    (level1_session, Err "ValueError: Character already has level 1."%string).
Proof.
  destruct (apply_level_up_existing level1_session 1 10 1 None None None
              (mkCharacterLevel 1 1 10 None 1) ltac:(simpl; left; reflexivity)
              eq_refl eq_refl) as (e & He & Hmsg).
  rewrite He, Hmsg; [reflexivity|].
  apply (bool_decide_unpack _). vm_compute. exact I.
Defined.

(** * Further properties of the code *)

Lemma NoDup_map_inj_in {A B} (f : A -> B) (l : list A) x y :
  NoDup (map f l) -> In x l -> In y l -> f x = f y -> x = y.
Proof.
  induction l as [|a l IH]; simpl; [tauto|].
  intros Hn Hx Hy Hf. apply NoDup_cons in Hn as [Hna Hn].
  destruct Hx as [<-|Hx], Hy as [<-|Hy]; auto.
  - exfalso. apply Hna. rewrite Hf. apply list_elem_of_In, in_map, Hy.
  - exfalso. apply Hna. rewrite <- Hf. apply list_elem_of_In, in_map, Hx.
Qed.

Lemma flush_update_fields new b fn :
  re_id (flush_update new b fn) = re_id new /\
  raw_key (flush_update new b fn) = raw_key new /\
  re_raw_json (flush_update new b fn) = re_raw_json new /\
  re_raw_hash (flush_update new b fn) = re_raw_hash new /\
  re_name (flush_update new b fn) = re_name new /\
  re_srd (flush_update new b fn) = re_srd new /\
  re_url (flush_update new b fn) = re_url new /\
  re_retrieved_at (flush_update new b fn) = re_retrieved_at new /\
  re_created_at (flush_update new b fn) = re_created_at new.
Proof. unfold flush_update. destruct b; simpl; repeat split. Qed.

Lemma replace_row_id_unique e0 e2 rows :
  (forall r, In r rows -> re_id r = re_id e0 -> r = e0) ->
  replace_row e0 e2 rows = map (fun r => if decide (r = e0) then e2 else r) rows.
Proof.
  unfold replace_row. intros H. apply map_ext_in. intros r Hr.
  destruct (Z.eqb_spec (re_id r) (re_id e0)) as [E|E].
  - rewrite (H r Hr E), decide_True; reflexivity.
  - rewrite decide_False; [reflexivity|]. intros ->. auto.
Qed.

Lemma map_replace_same {B} (g : RawEntity -> B) e0 e2 rows :
  g e2 = g e0 ->
  map g (map (fun r => if decide (r = e0) then e2 else r) rows) = map g rows.
Proof.
  intros Hg. rewrite map_map. apply map_ext. intros r. case_decide; subst; auto.
Qed.

Lemma filter_scope_single_in {p : RawEntity -> bool} rows e0 :
  filter p rows = [e0] -> In e0 rows /\ p e0 = true /\
  forall r, In r rows -> p r = true -> r = e0.
Proof.
  intros H. assert (Hin : e0 ∈ filter p rows) by (rewrite H; left).
  apply list_elem_of_filter in Hin as [Hp Hin].
  split; [apply list_elem_of_In, Hin|]. split; [destruct (p e0); auto; contradiction|].
  intros r Hr Hpr. assert (Hf : r ∈ filter p rows).
  { apply list_elem_of_filter. split; [rewrite Hpr; exact I|apply list_elem_of_In, Hr]. }
  rewrite H in Hf. apply list_elem_of_singleton in Hf. exact Hf.
Qed.

Lemma raw_scope_key sid et sk r :
  raw_scope sid et sk r = true <-> raw_key r = (sid, et, sk).
Proof.
  unfold raw_scope, raw_key. rewrite !andb_true_iff, Z.eqb_eq, !String.eqb_eq.
  split; [intros [[-> ->] ->]; reflexivity|intros E; injection E; auto].
Qed.

Lemma filter_replace_single (p : RawEntity -> bool) e0 e2 rows :
  NoDup (map re_id rows) -> filter p rows = [e0] -> p e2 = true ->
  filter p (map (fun r => if decide (r = e0) then e2 else r) rows) = [e2].
Proof.
  induction rows as [|r rows IH]; intros Hnd Hf Hp; [discriminate|].
  simpl in Hnd. apply NoDup_cons in Hnd as [Hr Hnd].
  rewrite filter_cons in Hf. simpl. rewrite filter_cons.
  destruct (p r) eqn:Epr.
  - rewrite decide_True in Hf by exact I. injection Hf as <- Hf.
    destruct (decide (r = r)) as [_|C]; [|congruence].
    rewrite Hp, decide_True by exact I.
    f_equal. rewrite <- Hf. f_equal. rewrite <- (map_id rows) at 2.
    apply map_ext_in. intros x Hx. rewrite decide_False; [reflexivity|].
    intros ->. apply Hr, list_elem_of_In, in_map, Hx.
  - rewrite decide_False in Hf by (intros H; exact H).
    assert (Hne : r <> e0).
    { intros ->. destruct (filter_scope_single_in rows e0 Hf) as (_ & Hpe & _). congruence. }
    destruct (decide (r = e0)) as [C|_]; [contradiction|].
    rewrite Epr, decide_False by (intros H; exact H).
    apply IH; auto.
Qed.

Lemma in_replace_frame (p : RawEntity -> bool) e0 e2 rows r :
  p e0 = true -> p e2 = true -> p r = false ->
  In r (map (fun x => if decide (x = e0) then e2 else x) rows) <-> In r rows.
Proof.
  intros Hp0 Hp2 Hpr. rewrite in_map_iff. split.
  - intros (x & Hx & Hin). case_decide; subst; [congruence|exact Hin].
  - intros Hin. exists r. split; [|exact Hin]. rewrite decide_False; [reflexivity|].
    intros ->. congruence.
Qed.

(** What one call of [upsert_raw_entity] does to a table whose ids and
    (source_id, entity_type, source_key) triples are unique. *)
Lemma upsert_raw_entity_props rows now fn sid et sk payload name srd url rows' e c u :
  NoDup (map re_id rows) -> NoDup (map raw_key rows) ->
  upsert_raw_entity rows now fn sid et sk payload name srd url = Ok (rows', (e, c, u)) ->
  NoDup (map re_id rows') /\ NoDup (map raw_key rows') /\
  filter (raw_scope sid et sk) rows' = [e] /\
  (forall r, raw_scope sid et sk r = false -> In r rows' <-> In r rows) /\
  re_retrieved_at e = now /\ re_raw_hash e = canonical_json_hash payload.
Proof.
  intros Hid Hkey. unfold upsert_raw_entity.
  destruct (filter (raw_scope sid et sk) rows) as [|e0 [|e1 more]] eqn:Hf; simpl;
    [|  | discriminate].
  - intros H. injection H as <- <- _ _. repeat split.
    + rewrite map_app. apply NoDup_snoc; [apply fresh_id_notin|exact Hid].
    + rewrite map_app. apply NoDup_snoc; [|exact Hkey]. simpl.
      intros Hin. apply list_elem_of_In, in_map_iff in Hin as (x & Hx & Hin).
      assert (Hs : raw_scope sid et sk x = true) by (apply raw_scope_key; exact Hx).
      assert (Hfx : x ∈ filter (raw_scope sid et sk) rows).
      { apply list_elem_of_filter. split; [rewrite Hs; exact I|apply list_elem_of_In, Hin]. }
      rewrite Hf in Hfx. inversion Hfx.
    + rewrite filter_app, Hf. simpl. rewrite filter_cons, decide_True; [reflexivity|].
      unfold raw_scope; simpl. rewrite Z.eqb_refl, !String.eqb_refl. exact I.
    + intros Hin. apply in_app_or in Hin as [Hin|[<-|[]]]; [exact Hin|].
      exfalso. match goal with H : raw_scope _ _ _ _ = false |- _ => revert H end.
      unfold raw_scope; simpl. rewrite Z.eqb_refl, !String.eqb_refl. discriminate.
    + intros Hin. apply in_or_app. left. exact Hin.
  - destruct (filter_scope_single_in rows e0 Hf) as (Hin0 & Hp0 & Hu0).
    assert (Huid : forall r, In r rows -> re_id r = re_id e0 -> r = e0)
      by (intros r Hr E; exact (NoDup_map_inj_in re_id rows r e0 Hid Hr Hin0 E)).
    match goal with |- _ -> ?G =>
    assert (Hgen : forall e1, re_id e1 = re_id e0 -> raw_key e1 = raw_key e0 ->
      re_retrieved_at e1 = now -> re_raw_hash e1 = canonical_json_hash payload ->
      forall fl, Ok (replace_row e0 e1 rows, (e1, false, fl))
        = Ok (rows', (e, c, u)) -> G) end.
    { intros e2 Fi Hk1 Fr Fh fl H. injection H as <- <- _ _.
      rewrite (replace_row_id_unique e0 e2 rows Huid).
      assert (Hp2 : raw_scope sid et sk e2 = true).
      { apply raw_scope_key. rewrite Hk1. apply raw_scope_key, Hp0. }
      refine (conj _ (conj _ (conj _ (conj _ (conj _ _))))).
      - rewrite map_replace_same; [exact Hid|congruence].
      - rewrite map_replace_same; [exact Hkey|congruence].
      - apply filter_replace_single; auto.
      - intros r Hr. apply (in_replace_frame (raw_scope sid et sk)); auto.
      - congruence.
      - congruence. }
    destruct (String.eqb (re_raw_hash e0) (canonical_json_hash payload)) eqn:Eh.
    + apply Hgen; try reflexivity. apply String.eqb_eq, Eh.
    + apply Hgen; reflexivity.
Qed.

Lemma replace_row_self e rows :
  NoDup (map re_id rows) -> In e rows -> replace_row e e rows = rows.
Proof.
  intros Hnd Hin. unfold replace_row. rewrite <- (map_id rows) at 2.
  apply map_ext_in. intros r Hr. destruct (Z.eqb_spec (re_id r) (re_id e)) as [E|E]; [|reflexivity].
  symmetry. exact (NoDup_map_inj_in re_id rows r e Hnd Hr Hin E).
Qed.

Lemma filter_single_in {A} (p : A -> bool) l x : filter p l = [x] -> In x l.
Proof.
  intros H. assert (Hx : x ∈ filter p l) by (rewrite H; left).
  apply list_elem_of_filter in Hx as [_ Hx]. apply list_elem_of_In, Hx.
Qed.

(** [upsert_raw_entity] on a table whose ids and
    (source, entity type, source key) keys are unique keeps both unique,
    leaves exactly one row, the returned one, under the key it was given,
    and keeps every row of other keys. *)
Theorem upsert_raw_entity_keeps_keys_unique rows now fn sid et sk payload name srd url rows' e c u :
  NoDup (map re_id rows) -> NoDup (map raw_key rows) ->
  upsert_raw_entity rows now fn sid et sk payload name srd url = Ok (rows', (e, c, u)) ->
  NoDup (map re_id rows') /\ NoDup (map raw_key rows') /\
  filter (raw_scope sid et sk) rows' = [e] /\
  (forall r, raw_scope sid et sk r = false -> In r rows' <-> In r rows).
Proof.
  intros Hid Hkey H.
  destruct (upsert_raw_entity_props _ _ _ _ _ _ _ _ _ _ _ _ _ _ Hid Hkey H) as (A & B & C & D & _).
  auto.
Qed.

(** Upserting the same payload again under the same key, at any time
    and whatever the other arguments, creates and updates nothing: it
    rewrites the one row of the key in place, which keeps its id,
    document, hash, name, srd flag, url and creation time, takes the new
    retrieval time, and takes the flush instant as [updated_at]. *)
Theorem upsert_raw_entity_repeat rows now fn sid et sk payload name srd url rows' e c u :
  NoDup (map re_id rows) -> NoDup (map raw_key rows) ->
  upsert_raw_entity rows now fn sid et sk payload name srd url = Ok (rows', (e, c, u)) ->
  forall now' fn' name' srd' url', exists e',
     upsert_raw_entity rows' now' fn' sid et sk payload name' srd' url' =
       Ok (replace_row e e' rows', (e', false, false)) /\
     length (replace_row e e' rows') = length rows' /\
     re_id e' = re_id e /\ re_raw_json e' = re_raw_json e /\ re_raw_hash e' = re_raw_hash e /\
     re_name e' = re_name e /\ re_srd e' = re_srd e /\ re_url e' = re_url e /\
     re_created_at e' = re_created_at e /\ re_retrieved_at e' = now' /\
     re_updated_at e' = fn'.
Proof.
  intros Hid Hkey H.
  destruct (upsert_raw_entity_props _ _ _ _ _ _ _ _ _ _ _ _ _ _ Hid Hkey H)
    as (_ & _ & Hf & _ & _ & Hh).
  intros now' fn' name' srd' url'.
  unfold upsert_raw_entity. rewrite Hf. simpl. rewrite Hh, String.eqb_refl.
  eexists. split; [reflexivity|].
  unfold replace_row. rewrite length_map. simpl. repeat split.
Qed.

Lemma sorted_keys_elem a b k : k ∈ sorted_keys a b <-> k ∈ a ++ b.
Proof.
  unfold sorted_keys. rewrite (merge_sort_Permutation String.le), elem_of_remove_dups. reflexivity.
Qed.

Lemma assoc_get_notin {V} (k : string) (d : list (string * V)) :
  k ∉ map fst d -> assoc_get k d = None.
Proof.
  induction d as [|[k' v] d IH]; simpl; [reflexivity|].
  intros Hn. rewrite IH by (intros H; apply Hn; right; exact H).
  destruct (String.eqb_spec k k'); [subst; exfalso; apply Hn; left|reflexivity].
Qed.

Lemma flat_map_nil_inv {A B} (f : A -> list B) l x :
  flat_map f l = [] -> In x l -> f x = [].
Proof.
  induction l as [|y l IH]; simpl; [tauto|].
  intros H [<-|Hx]; apply app_eq_nil in H as [H1 H2]; auto.
Qed.

Lemma diff_line_not_none (l : list string) :
  Forall (fun x => exists r, x = String "C"%char r \/ x = String "H"%char r) l ->
  l <> ["No changes detected."] .
Proof. intros H E. subst. inversion H as [|x l' [r [E|E]] _]; discriminate. Qed.

(** [diff_snapshots] reports "No changes detected." exactly when every
    count key has the same value in both snapshots (a missing key counting
    as 0) and every hash key has the same hash (or is missing from both). *)
Theorem diff_snapshots_no_changes_iff a b :
  diff_snapshots (Some a) b = ["No changes detected."] <->
  (forall k, default 0 (assoc_get k (snap_counts a)) = default 0 (assoc_get k (snap_counts b))) /\
  (forall k, assoc_get k (snap_hashes a) = assoc_get k (snap_hashes b)).
Proof.
  unfold diff_snapshots.
  set (cc := flat_map _ (sorted_keys (map fst (snap_counts a)) (map fst (snap_counts b)))).
  set (hc := flat_map _ (sorted_keys (map fst (snap_hashes a)) (map fst (snap_hashes b)))).
  assert (Hshape : Forall (fun x => exists r, x = String "C"%char r \/ x = String "H"%char r)
                          (cc ++ hc)).
  { apply Forall_app. split; apply Forall_forall; intros x Hx;
      apply list_elem_of_In, in_flat_map in Hx as (k & _ & Hx).
    - destruct (Z.eqb _ _) in Hx; [destruct Hx|]. destruct Hx as [<-|[]]. eexists. left. reflexivity.
    - case_bool_decide; [destruct Hx|]. destruct Hx as [<-|[]]. eexists. right. reflexivity. }
  split.
  - intros H. assert (Hn : cc ++ hc = []).
    { destruct (cc ++ hc) as [|x l] eqn:E; [reflexivity|]. exfalso.
      apply (diff_line_not_none (x :: l)); [exact Hshape|exact H]. }
    apply app_eq_nil in Hn as [Hcc Hhc]. split; intros k.
    + destruct (decide (k ∈ map fst (snap_counts a) ++ map fst (snap_counts b))) as [Hk|Hk].
      * apply sorted_keys_elem, list_elem_of_In in Hk.
        pose proof (flat_map_nil_inv _ _ _ Hcc Hk) as Hf. simpl in Hf.
        destruct (Z.eqb_spec (default 0 (assoc_get k (snap_counts a)))
                             (default 0 (assoc_get k (snap_counts b)))); [assumption|discriminate].
      * rewrite !assoc_get_notin; [reflexivity| |]; intros Hin; apply Hk, elem_of_app; auto.
    + destruct (decide (k ∈ map fst (snap_hashes a) ++ map fst (snap_hashes b))) as [Hk|Hk].
      * apply sorted_keys_elem, list_elem_of_In in Hk.
        pose proof (flat_map_nil_inv _ _ _ Hhc Hk) as Hf. simpl in Hf.
        case_bool_decide; [assumption|discriminate].
      * rewrite !assoc_get_notin; [reflexivity| |]; intros Hin; apply Hk, elem_of_app; auto.
  - intros [Hc Hh]. unfold cc, hc. rewrite !flat_map_nil; [reflexivity| |].
    + intros k. rewrite bool_decide_true; [reflexivity|apply Hh].
    + intros k. simpl. rewrite Hc, Z.eqb_refl. reflexivity.
Qed.

Lemma choice_row_fields s cid clid sub lvl ab c row :
  choice_row s cid clid sub lvl ab c = Ok row ->
  cc_id row = fresh_id (map cc_id (se_character_choices s)) /\ cc_character_id row = cid.
Proof.
  unfold choice_row. destruct (dget c "choice_group_id"); try discriminate;
  intros H;
  repeat match type of H with
  | (?m ≫= _) = Ok _ => apply bind_Ok in H as (? & _ & H)
  | Ok _ = Ok _ => injection H as <-
  end; split; reflexivity.
Qed.

Lemma choices_loop_props s cid clid sub lvl ab cs s2 r :
  choices_loop s cid clid sub lvl ab cs = (s2, r) ->
  se_db s2 = se_db s /\ se_character_features s2 = se_character_features s /\
  se_character_levels s2 = se_character_levels s /\
  exists new, se_character_choices s2 = se_character_choices s ++ new /\
    Forall (fun c => cc_character_id c = cid) new /\
    (NoDup (map cc_id (se_character_choices s)) -> NoDup (map cc_id (se_character_choices s2))) /\
    (r = Ok tt -> length new = length cs).
Proof.
  revert s. induction cs as [|c cs IH]; intros s H; simpl in H.
  - injection H as <- <-. split; [|split; [|split]]; auto. exists []. rewrite app_nil_r.
    repeat split; auto.
  - destruct (choice_row s cid clid sub lvl ab c) as [row|e] eqn:Er.
    + destruct (choice_row_fields _ _ _ _ _ _ _ _ Er) as [Hid Hc].
      destruct (IH _ H) as (E1 & E2 & E3 & new & E4 & Hf & Hnd & Hlen).
      simpl in E1, E2, E3, E4. split; [|split; [|split]]; auto.
      exists (row :: new). split; [rewrite E4, <- app_assoc; reflexivity|].
      split; [|split].
      * constructor; auto.
      * intros Hn. apply Hnd. simpl. rewrite map_app. apply NoDup_snoc; [|exact Hn].
        rewrite Hid. apply fresh_id_notin.
      * intros Hr. simpl. rewrite (Hlen Hr). reflexivity.
    + injection H as <- <-. split; [|split; [|split]]; auto. exists []. rewrite app_nil_r.
      repeat split; auto. discriminate.
Qed.

Lemma one_or_none_nil {A} (l : list A) : one_or_none l = Ok None -> l = [].
Proof. destruct l as [|x [|y l]]; simpl; congruence. Qed.

(** A successful [apply_level_up] found no level row for the character
    and level, adds one row with a fresh id, one choice row per given
    choice (all of that character), and leaves the catalogue and the
    character's features alone. *)
Theorem apply_level_up_ok s cid clid lvl sub ch ab s2 row :
  apply_level_up s cid clid lvl sub ch ab = (s2, Ok row) ->
  filter (fun r => Z.eqb (cl_character_id r) cid && Z.eqb (cl_level r) lvl)
         (se_character_levels s) = [] /\
  row = {| cl_id := fresh_id (map cl_id (se_character_levels s)); cl_character_id := cid;
           cl_class_id := clid; cl_subclass_id := sub; cl_level := lvl |} /\
  ~ In (cl_id row) (map cl_id (se_character_levels s)) /\
  se_character_levels s2 = se_character_levels s ++ [row] /\
  se_db s2 = se_db s /\ se_character_features s2 = se_character_features s /\
  exists new, se_character_choices s2 = se_character_choices s ++ new /\
    length new = length (default [] ch) /\ Forall (fun c => cc_character_id c = cid) new.
Proof.
  unfold apply_level_up.
  destruct (one_or_none _) as [[x|]|e] eqn:E; try (intros [=]; fail).
  apply one_or_none_nil in E.
  destruct (choices_loop _ _ _ _ _ _ _) as [s3 [u|e]] eqn:Hl; [|intros [=]].
  intros [= <- <-]. destruct u.
  destruct (choices_loop_props _ _ _ _ _ _ _ _ _ Hl) as (E1 & E2 & E3 & new & E4 & Hf & _ & Hlen).
  simpl in *. split; [exact E|]. split; [reflexivity|].
  split; [intros Hin; apply fresh_id_gt in Hin; simpl in Hin; lia|].
  split; [|split; [|split]]; auto. exists new. repeat split; auto.
Qed.

Lemma filter_nil_false {A} (p : A -> bool) l x : filter p l = [] -> In x l -> p x = false.
Proof.
  intros H Hx. destruct (p x) eqn:E; [|reflexivity]. exfalso.
  assert (Hf : x ∈ filter p l).
  { apply list_elem_of_filter. split; [rewrite E; exact I|apply list_elem_of_In, Hx]. }
  rewrite H in Hf. inversion Hf.
Qed.

(** [apply_level_up] keeps unique, whatever its outcome, the
    (character, level) pairs and the ids of the level rows and the ids of
    the choice rows. *)
Theorem apply_level_up_keeps_keys_unique s cid clid lvl sub ch ab s2 r :
  NoDup (map level_key (se_character_levels s)) -> NoDup (map cl_id (se_character_levels s)) ->
  NoDup (map cc_id (se_character_choices s)) ->
  apply_level_up s cid clid lvl sub ch ab = (s2, r) ->
  NoDup (map level_key (se_character_levels s2)) /\ NoDup (map cl_id (se_character_levels s2)) /\
  NoDup (map cc_id (se_character_choices s2)).
Proof.
  intros Hk Hi Hc. unfold apply_level_up.
  destruct (one_or_none _) as [[x|]|e] eqn:E; try (intros [= <- _]; auto; fail).
  apply one_or_none_nil in E.
  destruct (choices_loop _ _ _ _ _ _ _) as [s3 r3] eqn:Hl.
  destruct (choices_loop_props _ _ _ _ _ _ _ _ _ Hl) as (_ & _ & E3 & new & _ & _ & Hnd & _).
  assert (G : NoDup (map level_key (se_character_levels s3)) /\
              NoDup (map cl_id (se_character_levels s3)) /\
              NoDup (map cc_id (se_character_choices s3))).
  { rewrite E3. simpl. rewrite !map_app. split; [|split].
    - apply NoDup_snoc; [|exact Hk]. simpl. intros Hin.
      apply list_elem_of_In, in_map_iff in Hin as (y & Hy & Hin).
      pose proof (filter_nil_false _ _ _ E Hin) as Hf.
      apply (proj2 (level_at_iff cid lvl y)) in Hy. unfold level_at in Hy. congruence.
    - apply NoDup_snoc; [apply fresh_id_notin|exact Hi].
    - apply Hnd. exact Hc. }
  destruct r3; intros [= <- _]; exact G.
Qed.

Lemma prereq_step_tab base at_id s x s' :
  ps_tab base s -> prereq_step "feature" at_id s x = Ok s' -> ps_tab base s'.
Proof.
  destruct x as [[[[pt k] op] v] n]. unfold prereq_step. intros Htab.
  case_bool_decide as Hin; intros [= <-]; [exact Htab|].
  destruct Htab as (new & E1 & E2 & E3 & E4 & E5). simpl.
  eexists (new ++ [_]). cbn [ps_prereqs ps_keys ps_created].
  split; [rewrite E1, app_assoc; reflexivity|].
  split; [rewrite E2, length_app; simpl; lia|].
  split; [rewrite E3, map_app; reflexivity|].
  split; [intros Hb; apply NoDup_snoc; auto|].
  apply Forall_app. split; [exact E5|]. constructor; [reflexivity|constructor].
Qed.

Lemma prereq_steps_tab base at_id l s s' :
  ps_tab base s -> foldM (prereq_step "feature" at_id) s l = Ok s' -> ps_tab base s'.
Proof. apply foldM_inv. intros. eapply prereq_step_tab; eassumption. Qed.

(** With an empty [choice_groups_by_source_key] a choice node adds no
    prerequisite. *)
Lemma prereq_choice_step_tab base ot owner payload s c s' :
  ps_tab base s -> prereq_choice_step [] ot owner payload s c = Ok s' -> ps_tab base s'.
Proof.
  intros Htab. unfold prereq_choice_step.
  destruct (_extract_prereq_nodes (JObj c)) as [[|n ns]|e]; simpl;
    [intros [= <-]; exact Htab | | discriminate].
  destruct (choice_level c payload owner) as [level|e]; simpl; [|discriminate].
  intros [= <-]. destruct Htab as (new & E1 & E2 & E3 & E4 & E5).
  exists new. simpl. auto.
Qed.

Lemma feature_prereqs_tab base ot owner nodes s s' :
  ps_tab base s -> feature_prereqs ot owner nodes s = Ok s' -> ps_tab base s'.
Proof.
  unfold feature_prereqs. intros Htab.
  destruct nodes as [|n ns]; [intros [= <-]; exact Htab|].
  destruct (String.eqb ot "feature"); [|intros [= <-]; exact Htab].
  destruct (_iter_prereqs _) as [ps|e]; simpl; [|discriminate].
  apply prereq_steps_tab; exact Htab.
Qed.

Lemma prereqs_raw_step_tab base classes features s r s' :
  ps_tab base s -> prereqs_raw_step [] classes features s r = Ok s' -> ps_tab base s'.
Proof.
  unfold prereqs_raw_step. intros Htab.
  destruct (if String.eqb _ "class" then _ else _) as [owner|]; [|intros [= <-]; exact Htab].
  destruct (_extract_prereq_nodes _) as [nodes|e]; simpl; [|discriminate].
  destruct (feature_prereqs _ _ _ s) as [s1|e] eqn:E1; simpl; [|discriminate].
  intros E2. refine (foldM_inv _ _ _ _ _ _ (feature_prereqs_tab _ _ _ _ _ _ Htab E1) E2).
  intros. eapply prereq_choice_step_tab; eassumption.
Qed.

(** A successful [load_prereqs] runs for the named source, which has no
    choice group; it only appends prerequisite rows, counted by
    [prereqs_created], each for a feature, and keeps the prerequisite
    keys unique. *)
Theorem load_prereqs_appends db name db1 cnt :
  load_prereqs db name = Ok (db1, cnt) ->
  exists source new m,
    In source (db_sources db) /\ src_name source = name /\
    groups_of_source (src_id source) (db_groups db) = [] /\
    db1 = set_prereqs db (db_prereqs db ++ new) /\
    cnt = [("prereqs_created", Z.of_nat (length new)); ("missing_refs", m)] /\
    Forall (fun p => pr_applies_to_type p = "feature") new /\
    (NoDup (map prereq_key (db_prereqs db)) -> NoDup (map prereq_key (db_prereqs db1))).
Proof.
  unfold load_prereqs.
  destruct (source_or_raise db name _) as [source|e] eqn:Hs; simpl; [|discriminate].
  destruct (source_or_raise_ok _ _ _ _ Hs) as [Hin Hn].
  unfold choice_groups_by_source_key.
  destruct (groups_of_source (src_id source) (db_groups db)) as [|g l] eqn:Hg;
    simpl; [|discriminate].
  destruct (foldM _ _ _) as [s|e] eqn:Hf; simpl; [|discriminate].
  intros [= <- <-].
  assert (Hinit : ps_tab (db_prereqs db) (prereqs_init db)).
  { exists []. rewrite app_nil_r. repeat split; auto. }
  destruct (foldM_inv _ _ (fun s x s' => prereqs_raw_step_tab (db_prereqs db) _ _ s x s') _ _ _
              Hinit Hf) as (new & E1 & E2 & E3 & E4 & E5).
  exists source, new, (ps_missing s). split; [exact Hin|]. split; [exact Hn|].
  split; [exact Hg|]. rewrite <- E1, E2. split; [reflexivity|]. split; [reflexivity|].
  split; [exact E5|]. simpl. rewrite <- E3. exact E4.
Qed.

(** A successful [load_grants] runs for the named source, only appends to
    the three grant tables rows of that source, as many as its counters
    say, and keeps each table's key unique. *)
Theorem load_grants_appends db name db1 cnt :
  load_grants db name = Ok (db1, cnt) ->
  exists source np ns nf m,
    In source (db_sources db) /\ src_name source = name /\
    db1 = set_grants db (db_grant_profs db ++ np) (db_grant_spells db ++ ns)
                        (db_grant_features db ++ nf) /\
    cnt = [("grant_proficiencies_created", Z.of_nat (length np));
           ("grant_spells_created", Z.of_nat (length ns));
           ("grant_features_created", Z.of_nat (length nf)); ("missing_refs", m)] /\
    Forall (fun g => gp_source_id g = src_id source) np /\
    Forall (fun g => gs_source_id g = src_id source) ns /\
    Forall (fun g => gf_source_id g = src_id source) nf /\
    (NoDup (map prof_key (db_grant_profs db)) -> NoDup (map prof_key (db_grant_profs db1))) /\
    (NoDup (map spell_grant_key (db_grant_spells db)) ->
     NoDup (map spell_grant_key (db_grant_spells db1))) /\
    (NoDup (map feature_grant_key (db_grant_features db)) ->
     NoDup (map feature_grant_key (db_grant_features db1))).
Proof.
  unfold load_grants.
  destruct (source_or_raise db name _) as [source|e] eqn:Hs; simpl; [|discriminate].
  destruct (source_or_raise_ok _ _ _ _ Hs) as [Hin Hn].
  destruct (foldM _ _ _) as [s|e] eqn:Hf; simpl; [|discriminate].
  intros [= <- <-].
  set (src := src_id source) in *.
  assert (Hinit : gr_tab src (db_grant_profs db) (db_grant_spells db) (db_grant_features db)
                    (grants_init db src)).
  { refine (conj _ (conj _ _)); exists []; rewrite app_nil_r; repeat split; auto. }
  destruct (foldM_inv _ _ (fun s x s' => grants_raw_step_tab src _ _ _ _ _ _ _ s x s') _ _ _
              Hinit Hf) as ((np & P1 & P2 & P3 & _ & P5) & (ns & S1 & S2 & S3 & _ & S5) &
                            (nf & F1 & F2 & F3 & _ & F5)).
  exists source, np, ns, nf, (gr_missing s). split; [exact Hin|]. split; [exact Hn|].
  rewrite <- P1, <- S1, <- F1, P2, S2, F2. repeat split; auto.
Qed.

(** A successful [load_choices] runs for the named source, which had no
    choice group; it only appends groups of that source and options, as
    many as its counters say; each new option belongs to a group of that
    source, has type "feature", "spell" or "string", and has no
    [option_ref_id]. *)
Theorem load_choices_appends db name db1 cnt :
  load_choices db name = Ok (db1, cnt) ->
  exists source ng no m,
    In source (db_sources db) /\ src_name source = name /\
    groups_of_source (src_id source) (db_groups db) = [] /\
    db1 = set_choices db (db_groups db ++ ng) (db_options db ++ no) /\
    cnt = [("choice_groups_created", Z.of_nat (length ng));
           ("choice_options_created", Z.of_nat (length no));
           ("unresolved_feature_refs", m)] /\
    Forall (fun g => cg_source_id g = src_id source) ng /\
    Forall (new_option_ok (db_groups db1) (src_id source)) no.
Proof.
  intros H.
  destruct (load_choices_ok_inv _ _ _ _ H) as (source & ng & no & m & Hs & Hg & E1 & E2 & F1 & F2).
  assert (Hin : source ∈ filter (fun s => String.eqb (src_name s) name) (db_sources db))
    by (rewrite Hs; left).
  apply list_elem_of_filter in Hin as [Hn Hin].
  exists source, ng, no, m. split; [apply list_elem_of_In, Hin|].
  split; [apply String.eqb_eq; destruct (String.eqb _ _); [reflexivity|contradiction]|].
  auto.
Qed.

Lemma omap_snoc_uq (gs : list ChoiceGroup) g :
  existsb (group_conflict g) gs = false -> NoDup (omap group_uq_key gs) ->
  NoDup (omap group_uq_key (gs ++ [g])).
Proof.
  intros Hc Hnd. rewrite omap_app. simpl.
  destruct (group_uq_key g) as [k|] eqn:Ek; [|rewrite app_nil_r; exact Hnd].
  apply NoDup_snoc; [|exact Hnd]. intros Hk.
  apply list_elem_of_omap in Hk as (g' & Hg' & E').
  assert (Ht : existsb (group_conflict g) gs = true).
  { apply existsb_exists. exists g'. split; [apply list_elem_of_In, Hg'|].
    unfold group_conflict. rewrite Ek. apply bool_decide_eq_true. exact E'. }
  congruence.
Qed.

Lemma choice_option_step_uniq features group ct s x s' :
  cs_uniq s -> In group (cs_groups s) ->
  choice_option_step features group ct s x = Ok s' -> cs_uniq s' /\ In group (cs_groups s').
Proof.
  intros (U1 & U2 & U3 & U4 & U5 & U6) Hg. unfold choice_option_step.
  destruct (_parse_option x (default_option_type ct)) as [[otr osk] lbl].
  case_bool_decide as Hk; [intros [= <-]; repeat split; auto|].
  intros [= <-]. unfold cs_uniq.
  cbn [cs_groups cs_options cs_lookup cs_pending_conflict]. split; [|exact Hg].
  split; [exact U1|]. split; [exact U2|]. rewrite !map_app.
  split; [apply NoDup_snoc; [apply fresh_id_notin|exact U3]|].
  split.
  { intros Hp. apply orb_false_iff in Hp as [Hp Hb].
    apply NoDup_snoc; [|exact (U4 Hp)]. intros Hin. apply bool_decide_eq_false in Hb.
    apply Hb. exact Hin. }
  split; [|exact U6].
  intros o Hin. apply in_app_or in Hin as [Hin|[<-|[]]]; [auto|]. simpl; apply in_map, Hg.
Qed.

Lemma choice_step_uniq src features ot owner payload s c s' :
  cs_uniq s -> choice_step src features ot owner payload s c = Ok s' -> cs_uniq s'.
Proof.
  intros Hu. unfold choice_step.
  destruct (choice_choose_n c) as [[n|]|e]; simpl; [| intros [= <-]; exact Hu | discriminate].
  destruct (choice_level c payload owner) as [level|e]; simpl; [|discriminate].
  match goal with |- context [group_lookup_get (cs_lookup s) ?k] =>
    set (key := k); destruct (group_lookup_get (cs_lookup s) key) as [g|] eqn:Hg end.
  - simpl. intros H.
    apply group_lookup_get_in in Hg.
    assert (Hin : In g (cs_groups s)).
    { destruct Hu as (_ & _ & _ & _ & _ & U6). exact (proj1 (List.Forall_forall _ _) U6 _ Hg). }
    refine (proj1 (foldM_inv _ (fun s => cs_uniq s /\ In g (cs_groups s)) _ _ _ _
                     (conj Hu Hin) H)).
    intros s1 x s2 [H1 H2] H3. exact (choice_option_step_uniq _ _ _ _ _ _ H1 H2 H3).
  - match goal with |- context [add_group s key ?G] =>
      destruct (add_group s key G) as [s1|e] eqn:Ha end; simpl; [|discriminate].
    intros H. apply add_group_ok in Ha as (Hc & Hp & ->).
    match type of H with foldM (choice_option_step _ ?G _) ?s1 _ = _ =>
      refine (proj1 (foldM_inv _ (fun s => cs_uniq s /\ In G (cs_groups s)) _ _ s1 _
                       _ H)) end.
    + intros s1 x s2 [H1 H2] H3. exact (choice_option_step_uniq _ _ _ _ _ _ H1 H2 H3).
    + split; [|simpl; apply in_or_app; right; left; reflexivity].
      destruct Hu as (U1 & U2 & U3 & U4 & U5 & U6).
      unfold cs_uniq. cbn [cs_groups cs_options cs_lookup cs_pending_conflict].
      split; [exact (omap_snoc_uq _ _ Hc U1)|].
      rewrite !map_app.
      split; [apply NoDup_snoc; [apply fresh_id_notin|exact U2]|].
      split; [exact U3|]. split; [intros _; exact (U4 Hp)|].
      split; [intros o Hin; apply in_or_app; left; auto|].
      apply Forall_app. split.
      * refine (Forall_impl _ _ _ U6 _). intros q Hq. apply in_or_app. left. exact Hq.
      * constructor; [|constructor]. simpl. apply in_or_app. right. left. reflexivity.
Qed.

Lemma choices_raw_step_uniq src classes features s r s' :
  cs_uniq s -> choices_raw_step src classes features s r = Ok s' -> cs_uniq s'.
Proof.
  unfold choices_raw_step. destruct (if String.eqb _ "class" then _ else _) as [owner|].
  - intros Hu H. refine (foldM_inv _ cs_uniq _ _ _ _ Hu H).
    intros. eapply choice_step_uniq; eassumption.
  - intros Hu [= <-]. exact Hu.
Qed.

(** [load_choices] keeps unique the keys of [uq_choice_groups_owner_choice]
    (of the groups with no NULL among them), the group ids, the option
    ids and the keys of [uq_choice_options_group_option], and keeps every
    option attached to an existing group. *)
Theorem load_choices_keeps_keys_unique db name db1 cnt :
  NoDup (omap group_uq_key (db_groups db)) -> NoDup (map cg_id (db_groups db)) ->
  NoDup (map co_id (db_options db)) -> NoDup (map option_key (db_options db)) ->
  (forall o, In o (db_options db) -> In (co_group_id o) (map cg_id (db_groups db))) ->
  load_choices db name = Ok (db1, cnt) ->
  NoDup (omap group_uq_key (db_groups db1)) /\ NoDup (map cg_id (db_groups db1)) /\
  NoDup (map co_id (db_options db1)) /\ NoDup (map option_key (db_options db1)) /\
  (forall o, In o (db_options db1) -> In (co_group_id o) (map cg_id (db_groups db1))).
Proof.
  intros H1 H2 H3 H4 H5. unfold load_choices.
  destruct (source_or_raise db name _) as [source|e]; simpl; [|discriminate].
  destruct (group_lookup_init _) as [gl|e] eqn:Hgl; simpl; [|discriminate].
  apply group_lookup_init_ok in Hgl as [_ ->].
  destruct (foldM _ _ _) as [s|e] eqn:Hf; simpl; [|discriminate].
  destruct (cs_pending_conflict s) eqn:Hp; [discriminate|].
  intros [= <- <-].
  assert (Hinit : cs_uniq (choices_init db (src_id source) [])).
  { repeat split; auto. }
  destruct (foldM_inv _ _ (fun s x s' => choices_raw_step_uniq _ _ _ s x s') _ _ _ Hinit Hf)
    as (U1 & U2 & U3 & U4 & U5 & _).
  repeat split; auto.
Qed.

(** With the named source holding a choice group, both [load_choices]
    and [load_prereqs] raise [AttributeError] on [group.source_key]. *)
Theorem source_groups_raise db name source :
  filter (fun s => String.eqb (src_name s) name) (db_sources db) = [source] ->
  groups_of_source (src_id source) (db_groups db) <> [] ->
  load_choices db name = Err no_source_key_attr /\
  load_prereqs db name = Err no_source_key_attr.
Proof.
  intros Hs Hg.
  split; [exact (load_choices_source_groups _ _ _ Hs Hg)
         |exact (load_prereqs_source_groups _ _ _ Hs Hg)].
Qed.

(** A second run of [load_grants], [load_prereqs] or [load_relationships]
    against the tables the first one committed writes nothing: the
    database is the one the first run left and the created counters are
    0. *)
Theorem other_loaders_second_run_idle db name :
  (forall db1 c, load_grants db name = Ok (db1, c) ->
     load_grants db1 name =
       Ok (db1, [("grant_proficiencies_created", 0); ("grant_spells_created", 0);
                 ("grant_features_created", 0); ("missing_refs", 0)])) /\
  (forall db1 c, load_prereqs db name = Ok (db1, c) ->
     exists m, load_prereqs db1 name = Ok (db1, [("prereqs_created", 0); ("missing_refs", m)])) /\
  (forall db1 c, load_relationships db name = Ok (db1, c) ->
     exists m, load_relationships db1 name =
       Ok (db1, [("class_features_created", 0); ("subclass_features_created", 0);
                 ("spell_classes_created", 0); ("missing_refs_count", m)])).
Proof.
  refine (conj _ (conj _ _)); intros db1 c.
  - apply load_grants_rerun.
  - apply load_prereqs_rerun.
  - apply load_relationships_rerun.
Qed.

Lemma by_key_get_in rows k e : by_key_get rows k = Some e -> In e rows.
Proof. unfold by_key_get. intros H. apply find_some in H as [H _]. by apply in_rev. Qed.

Lemma dict_get_json_in rows k e : dict_get_json rows k = Ok (Some e) -> In e rows.
Proof. destruct k; simpl; try discriminate. intros [= H]. exact (by_key_get_in _ _ _ H). Qed.

(** One new link of the source with a new key. *)
Lemma link_snoc {A K} (key : A -> K) (sid : A -> Z) (ksid : K -> Z) src base n row
    (P : A -> Prop) :
  (forall g, ksid (key g) = sid g) -> sid row = src -> P row ->
  (NoDup (map key base) -> NoDup (map key (base ++ n))) -> Forall P n ->
  key row ∉ map key (filter (fun g => Z.eqb (sid g) src) (base ++ n)) ->
  (map key (filter (fun g => Z.eqb (sid g) src) (base ++ n)) ++ [key row] =
     map key (filter (fun g => Z.eqb (sid g) src) (base ++ n ++ [row])) /\
   (NoDup (map key base) -> NoDup (map key (base ++ n ++ [row]))) /\ Forall P (n ++ [row])).
Proof.
  intros Hk Hr Hp Hnd HP Hin. rewrite app_assoc.
  split; [rewrite filter_snoc_true by (rewrite Hr; apply Z.eqb_refl); rewrite map_app; reflexivity|].
  split; [|apply Forall_app; split; [exact HP|constructor; [exact Hp|constructor]]].
  intros Hb. rewrite map_app. apply NoDup_snoc; [|exact (Hnd Hb)].
  apply (key_notin_src key sid ksid src _ _ Hk); [rewrite Hk; exact Hr|exact Hin].
Qed.

Lemma rel_tab_missing src cl sc fe sp bcf bsf bsc s :
  rel_tab src cl sc fe sp bcf bsf bsc s -> rel_tab src cl sc fe sp bcf bsf bsc (rs_add_missing s).
Proof. intros H. exact H. Qed.

Lemma spell_class_step_tab src cl sc fe sp bcf bsf bsc spell s x s' :
  In spell sp -> rel_tab src cl sc fe sp bcf bsf bsc s ->
  spell_class_step src cl spell s x = Ok s' -> rel_tab src cl sc fe sp bcf bsf bsc s'.
Proof.
  intros Hsp Htab. unfold spell_class_step.
  destruct (dict_get_json cl x) as [[c|]|e] eqn:Hc; simpl; [|intros [= <-]; exact Htab|discriminate].
  apply dict_get_json_in in Hc.
  case_bool_decide as Hin; intros [= <-]; [exact Htab|].
  destruct Htab as (T1 & T2 & (K3 & N3 & F3)). refine (conj T1 (conj T2 _)).
  cbn [rs_sc_keys rs_new_sc]. rewrite K3 in Hin |- *.
  refine (link_snoc spell_class_key scl_source_id (fun k => k.1.1) src _ _
            {| scl_source_id := src; scl_spell_id := ent_id spell; scl_class_id := ent_id c |}
            _ (fun g => eq_refl) eq_refl _ N3 F3 Hin).
  simpl. split; [reflexivity|]. split; apply in_map; assumption.
Qed.

Lemma class_feature_part_tab src cl sc fe sp bcf bsf bsc feature ci lv s s' :
  In feature fe -> rel_tab src cl sc fe sp bcf bsf bsc s ->
  class_feature_part src cl feature ci lv s = Ok s' -> rel_tab src cl sc fe sp bcf bsf bsc s'.
Proof.
  intros Hf Htab. unfold class_feature_part.
  destruct (truthy ci); [|intros [= <-]; exact Htab].
  destruct (dict_get_json cl ci) as [[c|]|e] eqn:Hc; simpl; [|intros [= <-]; exact Htab|discriminate].
  apply dict_get_json_in in Hc.
  case_bool_decide as Hin; intros [= <-]; [exact Htab|].
  destruct Htab as ((K1 & N1 & F1) & T2 & T3). refine (conj _ (conj T2 T3)).
  cbn [rs_cf_keys rs_new_cf]. rewrite K1 in Hin |- *.
  refine (link_snoc class_feature_key cfl_source_id (fun k => k.1.1.1) src _ _
            {| cfl_source_id := src; cfl_class_id := ent_id c; cfl_feature_id := ent_id feature;
               cfl_level := lv |}
            _ (fun g => eq_refl) eq_refl _ N1 F1 Hin).
  simpl. split; [reflexivity|]. split; apply in_map; assumption.
Qed.

Lemma subclass_feature_part_tab src cl sc fe sp bcf bsf bsc feature si lv s s' :
  In feature fe -> rel_tab src cl sc fe sp bcf bsf bsc s ->
  subclass_feature_part src sc feature si lv s = Ok s' -> rel_tab src cl sc fe sp bcf bsf bsc s'.
Proof.
  intros Hf Htab. unfold subclass_feature_part.
  destruct (truthy si); [|intros [= <-]; exact Htab].
  destruct (dict_get_json sc si) as [[c|]|e] eqn:Hc; simpl; [|intros [= <-]; exact Htab|discriminate].
  apply dict_get_json_in in Hc.
  case_bool_decide as Hin; intros [= <-]; [exact Htab|].
  destruct Htab as (T1 & (K2 & N2 & F2) & T3). refine (conj T1 (conj _ T3)).
  cbn [rs_sf_keys rs_new_sf]. rewrite K2 in Hin |- *.
  refine (link_snoc subclass_feature_key sfl_source_id (fun k => k.1.1.1) src _ _
            {| sfl_source_id := src; sfl_subclass_id := ent_id c; sfl_feature_id := ent_id feature;
               sfl_level := lv |}
            _ (fun g => eq_refl) eq_refl _ N2 F2 Hin).
  simpl. split; [reflexivity|]. split; apply in_map; assumption.
Qed.

Lemma spell_raw_step_tab src cl sc fe sp bcf bsf bsc s r s' :
  rel_tab src cl sc fe sp bcf bsf bsc s ->
  spell_raw_step src cl sp s r = Ok s' -> rel_tab src cl sc fe sp bcf bsf bsc s'.
Proof.
  intros Htab. unfold spell_raw_step.
  destruct (by_key_get sp (re_source_key r)) as [spell|] eqn:Hs; [|intros [= <-]; exact Htab].
  apply by_key_get_in in Hs.
  intros H. apply bind_Ok in H as (idx & _ & H).
  refine (foldM_inv _ (rel_tab src cl sc fe sp bcf bsf bsc) _ idx s s' Htab H).
  intros t x t'. apply spell_class_step_tab. exact Hs.
Qed.

Lemma feature_raw_step_tab src cl sc fe sp bcf bsf bsc s r s' :
  rel_tab src cl sc fe sp bcf bsf bsc s ->
  feature_raw_step src cl sc fe s r = Ok s' -> rel_tab src cl sc fe sp bcf bsf bsc s'.
Proof.
  intros Htab. unfold feature_raw_step.
  destruct (by_key_get fe (re_source_key r)) as [feature|] eqn:Hf; [|intros [= <-]; exact Htab].
  apply by_key_get_in in Hf.
  intros H. apply bind_Ok in H as ([[ci si] lv] & _ & H).
  apply bind_Ok in H as (s1 & H1 & H2).
  exact (subclass_feature_part_tab _ _ _ _ _ _ _ _ _ _ _ _ _ Hf
           (class_feature_part_tab _ _ _ _ _ _ _ _ _ _ _ _ _ Hf Htab H1) H2).
Qed.

(** A successful [load_relationships] appends to the three link tables
    links of the named source only, each joining two rows of that source
    (a class and a feature, a subclass and a feature, a spell and a class),
    and keeps each table's key unique. *)
Lemma load_relationships_appends db name db1 cnt :
  load_relationships db name = Ok (db1, cnt) ->
  exists source,
    In source (db_sources db) /\ src_name source = name /\
    let src := src_id source in
    let ids rows := map ent_id (of_source src rows) in
    Forall (fun l => cfl_source_id l = src /\ In (cfl_class_id l) (ids (db_classes db)) /\
                     In (cfl_feature_id l) (ids (db_features db)))
      (drop (length (db_class_features db)) (db_class_features db1)) /\
    Forall (fun l => sfl_source_id l = src /\ In (sfl_subclass_id l) (ids (db_subclasses db)) /\
                     In (sfl_feature_id l) (ids (db_features db)))
      (drop (length (db_subclass_features db)) (db_subclass_features db1)) /\
    Forall (fun l => scl_source_id l = src /\ In (scl_spell_id l) (ids (db_spells db)) /\
                     In (scl_class_id l) (ids (db_classes db)))
      (drop (length (db_spell_classes db)) (db_spell_classes db1)) /\
    (NoDup (map class_feature_key (db_class_features db)) ->
     NoDup (map class_feature_key (db_class_features db1))) /\
    (NoDup (map subclass_feature_key (db_subclass_features db)) ->
     NoDup (map subclass_feature_key (db_subclass_features db1))) /\
    (NoDup (map spell_class_key (db_spell_classes db)) ->
     NoDup (map spell_class_key (db_spell_classes db1))).
Proof.
  unfold load_relationships. intros H.
  apply bind_Ok in H as (source & Hs & H). apply source_or_raise_ok in Hs as [Hin Hn].
  apply bind_Ok in H as (s1 & H1 & H). apply bind_Ok in H as (s2 & H2 & H).
  injection H as <- <-.
  set (src := src_id source) in *.
  set (cl := of_source src (db_classes db)) in *. set (sc := of_source src (db_subclasses db)) in *.
  set (fe := of_source src (db_features db)) in *. set (sp := of_source src (db_spells db)) in *.
  assert (Hi : rel_tab src cl sc fe sp (db_class_features db) (db_subclass_features db)
                 (db_spell_classes db) (rel_init db src)).
  { unfold rel_tab, rel_init; cbn [rs_cf_keys rs_sf_keys rs_sc_keys rs_new_cf rs_new_sf rs_new_sc].
    rewrite !app_nil_r.
    split; [|split]; (split; [reflexivity|split; [exact id|constructor]]). }
  pose proof (foldM_inv _ _ (fun t x t' => spell_raw_step_tab src cl sc fe sp _ _ _ t x t')
                _ _ _ Hi H1) as Hs1.
  pose proof (foldM_inv _ _ (fun t x t' => feature_raw_step_tab src cl sc fe sp _ _ _ t x t')
                _ _ _ Hs1 H2) as ((_ & N1 & F1) & (_ & N2 & F2) & (_ & N3 & F3)).
  exists source. split; [exact Hin|]. split; [exact Hn|]. cbn zeta. cbn [set_links
    db_class_features db_subclass_features db_spell_classes].
  rewrite !drop_app_length. auto 10.
Qed.

(** Every node [_collect_choice_nodes] returns is choice-like. *)
Lemma collect_choice_nodes_choice_like p :
  Forall (fun n => _is_choice_like n = true) (_collect_choice_nodes p).
Proof.
  unfold _collect_choice_nodes.
  induction p as [| | | | |l IH|kvs IH] using json_ind2; simpl; try constructor.
  - induction IH as [|x r Hx Hr IHr]; simpl; [constructor|]. apply Forall_app; auto.
  - apply Forall_app. split; [destruct (_is_choice_like kvs) eqn:E; repeat constructor; exact E|].
    induction IH as [|x r Hx Hr IHr]; simpl; [constructor|]. apply Forall_app; auto.
Qed.

(** [_parse_prereq_entry] gives at most one row of each type, in the
    order level, class, subclass, ability, feature, and every row carries
    the entry's notes. *)
Lemma parse_prereq_entry_shape entry rows :
  _parse_prereq_entry entry = Ok rows ->
  map prereq_row_type rows `sublist_of` ["level"; "class"; "subclass"; "ability"; "feature"] /\
  Forall (fun r => r.2 = _entry_notes entry) rows.
Proof.
  unfold _parse_prereq_entry. intros H.
  apply bind_Ok in H as (lv & _ & H). apply bind_Ok in H as (m1 & _ & H).
  apply bind_Ok in H as (ms & _ & H). injection H as <-.
  rewrite !map_app, !Forall_app.
  change ["level"; "class"; "subclass"; "ability"; "feature"] with
    (["level"] ++ ["class"] ++ ["subclass"] ++ ["ability"] ++ ["feature"]).
  split; [repeat apply sublist_app|repeat split];
    repeat (case_match; simpl);
    solve [constructor | apply sublist_nil_l | repeat constructor | apply sublist_skip; constructor].
Qed.

Lemma filter_all_false {A} (p : A -> bool) l :
  (forall x, In x l -> p x = false) -> filter p l = [].
Proof.
  induction l as [|x l IH]; intros H; [reflexivity|].
  rewrite filter_cons. rewrite (H x (or_introl eq_refl)). simpl.
  apply IH. intros y Hy. exact (H y (or_intror Hy)).
Qed.

Lemma source_or_raise_missing db name msg :
  (forall s, In s (db_sources db) -> src_name s <> name) ->
  source_or_raise db name msg = Err ("ValueError: " +:+ msg).
Proof.
  intros H. unfold source_or_raise.
  rewrite (filter_all_false _ _); [reflexivity|].
  intros s Hs. apply String.eqb_neq, H, Hs.
Qed.

(** An unknown source name: each loader stops with the [ValueError] of its
    [_source_or_raise]. *)
Lemma loaders_unknown_source db name :
  (forall s, In s (db_sources db) -> src_name s <> name) ->
  load_choices db name = (Err "ValueError: Source not found. Run importers first.") /\
  load_grants db name = (Err "ValueError: Source not found. Run importers first.") /\
  load_prereqs db name = (Err "ValueError: Source not found. Run importers first.") /\
  load_relationships db name = (Err "ValueError: Run importers first: source not found.").
Proof.
  intros H. unfold load_choices, load_grants, load_prereqs, load_relationships.
  rewrite !(source_or_raise_missing db name _ H). repeat split.
Qed.

Lemma py_lower_empty s : py_lower s = "" -> s = "".
Proof. destruct s; simpl; [reflexivity|discriminate]. Qed.

Lemma slugify_empty s : _slugify s = "" -> py_strip s = "".
Proof.
  unfold _slugify. destruct (String.eqb _ "") eqn:E.
  - apply py_lower_empty.
  - intros H. rewrite H in E. discriminate.
Qed.

Lemma slugify_unknown : _slugify "unknown" = "unknown".
Proof. vm_compute. reflexivity. Qed.

Lemma parse_option_dict_label o dt t k l :
  _parse_option (JObj o) dt = (t, k, l) -> l <> "" /\ (k = "" -> py_strip l = "").
Proof.
  unfold _parse_option. cbn zeta. intros H. injection H as _ Hk Hl.
  destruct (_extract_label o) as [l0|];
    [destruct (String.eqb_spec l0 "") as [->|N1]; [|apply String.eqb_neq in N1]|];
  (destruct (_extract_source_key o) as [k0|];
    [destruct (String.eqb_spec k0 "") as [->|N2]; [|apply String.eqb_neq in N2]|]);
    cbn [ostr_truthy ostr_or negb andb option_map String.eqb] in Hk, Hl;
    rewrite ?N1, ?N2 in Hk; rewrite ?N1, ?N2 in Hl;
    cbn [ostr_truthy ostr_or negb andb option_map String.eqb] in Hk, Hl;
    rewrite ?N1, ?N2 in Hk; rewrite ?N1, ?N2 in Hl;
    cbn [ostr_truthy ostr_or negb andb option_map String.eqb] in Hk, Hl;
    rewrite ?slugify_unknown in Hk; subst.
  all: split; [intros E; subst; try discriminate; cbn [String.eqb] in *; discriminate|intros E].
  all: try discriminate; try (subst; cbn [String.eqb] in *; discriminate).
  all: destruct (negb _) in E; apply slugify_empty, E.
Qed.

Lemma L_inj s t : list_ascii_of_string s = list_ascii_of_string t -> s = t.
Proof.
  intros H. rewrite <- (string_of_list_ascii_of_string s), <- (string_of_list_ascii_of_string t).
  f_equal. exact H.
Qed.

Lemma L_rev_app s t :
  list_ascii_of_string (String.rev_app s t) =
  reverse (list_ascii_of_string s) ++ list_ascii_of_string t.
Proof.
  revert t. induction s as [|c s IH]; intros t; [reflexivity|].
  simpl. rewrite IH. simpl. rewrite reverse_cons, <- app_assoc. reflexivity.
Qed.

Lemma L_rev s : list_ascii_of_string (String.rev s) = reverse (list_ascii_of_string s).
Proof. unfold String.rev. rewrite L_rev_app, app_nil_r. reflexivity. Qed.

Lemma L_lstrip p s :
  exists w, list_ascii_of_string s = w ++ list_ascii_of_string (lstrip_by p s) /\
    forall c r, list_ascii_of_string (lstrip_by p s) = c :: r -> p c = false.
Proof.
  induction s as [|c s IH]; simpl.
  - exists []. split; [reflexivity|]. intros c r H. discriminate.
  - destruct (p c) eqn:E.
    + destruct IH as (w & Hw & Hh). exists (c :: w). split; [simpl; rewrite Hw; reflexivity|exact Hh].
    + exists []. split; [reflexivity|]. simpl. intros c' r [= <- _]. exact E.
Qed.

Lemma lstrip_id p s :
  (forall c r, list_ascii_of_string s = c :: r -> p c = false) -> lstrip_by p s = s.
Proof.
  destruct s as [|c s]; simpl; [reflexivity|]. intros H. rewrite (H c _ eq_refl). reflexivity.
Qed.

(** [strip_by p s] is an infix of [s] whose end characters fail [p]. *)
Lemma strip_by_props p s :
  let t := list_ascii_of_string (strip_by p s) in
  (exists w1 w2, list_ascii_of_string s = w1 ++ t ++ w2) /\
  (forall c r, t = c :: r -> p c = false) /\ (forall r c, t = r ++ [c] -> p c = false).
Proof.
  cbn zeta. unfold strip_by.
  destruct (L_lstrip p s) as (w & Hw & Hh).
  set (u := lstrip_by p s) in *.
  destruct (L_lstrip p (String.rev u)) as (w' & Hw' & Hh').
  set (v := lstrip_by p (String.rev u)) in *.
  rewrite L_rev in Hw'. rewrite !L_rev.
  split; [|split].
  - exists w, (reverse w'). rewrite Hw. f_equal.
    rewrite <- (reverse_involutive (list_ascii_of_string u)), Hw', reverse_app. reflexivity.
  - intros c r Hc. apply (f_equal reverse) in Hc. rewrite reverse_involutive, reverse_cons in Hc.
    apply (Hh c (reverse (w' ++ reverse r))).
    rewrite <- (reverse_involutive (list_ascii_of_string u)), Hw', Hc.
    rewrite app_assoc, reverse_app. reflexivity.
  - intros r c Hc. apply (f_equal reverse) in Hc.
    rewrite reverse_involutive, reverse_app in Hc. simpl in Hc.
    exact (Hh' c _ Hc).
Qed.

Lemma strip_by_id p s :
  (forall c r, list_ascii_of_string s = c :: r -> p c = false) ->
  (forall r c, list_ascii_of_string s = r ++ [c] -> p c = false) -> strip_by p s = s.
Proof.
  intros Hh Hl. unfold strip_by. rewrite (lstrip_id p s Hh).
  rewrite (lstrip_id p (String.rev s)).
  - apply L_inj. rewrite !L_rev. apply reverse_involutive.
  - rewrite L_rev. intros c r Hc. apply (Hl (reverse r)).
    rewrite <- (reverse_involutive (list_ascii_of_string s)), Hc, reverse_cons. reflexivity.
Qed.

Lemma lower_char_idem c : lower_char (lower_char c) = lower_char c.
Proof. destruct c as [[] [] [] [] [] [] [] []]; vm_compute; reflexivity. Qed.

Lemma isspace_lower_char c : py_isspace (lower_char c) = py_isspace c.
Proof. destruct c as [[] [] [] [] [] [] [] []]; vm_compute; reflexivity. Qed.

Lemma slug_char_props c :
  slug_char c = true ->
  py_isspace c = false /\ lower_char c = c /\
  (is_alnum_ascii c = false -> c = "-"%char).
Proof.
  destruct c as [[] [] [] [] [] [] [] []]; vm_compute; intros H; try discriminate;
    (split; [reflexivity|split; [reflexivity|intros E; try discriminate; reflexivity]]).
Qed.

Lemma slug_ok_cons c t :
  slug_ok (c :: t) <->
  slug_char c = true /\ slug_ok t /\ (c = "-"%char -> forall r, t <> "-"%char :: r).
Proof.
  unfold slug_ok. rewrite Forall_cons. split.
  - intros [[Hc Ht] Hn]. split; [exact Hc|]. split; [split; [exact Ht|]|].
    + intros a b E. apply (Hn (c :: a) b). rewrite E. reflexivity.
    + intros -> r E. apply (Hn [] r). rewrite E. reflexivity.
  - intros (Hc & [Ht Hn] & Hd). split; [split; assumption|].
    intros [|x a] b E; simpl in E; injection E as E1 E2.
    + exact (Hd E1 _ E2).
    + exact (Hn a b E2).
Qed.

Lemma slug_ok_infix w1 l w2 : slug_ok (w1 ++ l ++ w2) -> slug_ok l.
Proof.
  intros [Hf Hn]. rewrite !Forall_app in Hf. split; [apply Hf|].
  intros a b E. apply (Hn (w1 ++ a) (b ++ w2)). rewrite E, <- !app_assoc. reflexivity.
Qed.

Lemma L_py_lower s : list_ascii_of_string (py_lower s) = map lower_char (list_ascii_of_string s).
Proof. induction s as [|c s IH]; simpl; [reflexivity|]. rewrite IH. reflexivity. Qed.

Lemma slug_runs_ok s b :
  Forall (fun c => lower_char c = c) (list_ascii_of_string s) ->
  slug_ok (list_ascii_of_string (slug_runs s b)) /\
  (b = true -> forall r, list_ascii_of_string (slug_runs s b) <> "-"%char :: r).
Proof.
  revert b. induction s as [|c s IH]; intros b Hl; simpl.
  - split; [split; [constructor|intros [|] ? ?; discriminate]|intros _ r; discriminate].
  - simpl in Hl. apply Forall_cons in Hl as [Hc Hl].
    destruct (is_alnum_ascii c) eqn:Ea; [|destruct b].
    + simpl. destruct (IH false Hl) as [Ho _]. split.
      * apply slug_ok_cons. split; [unfold slug_char; rewrite Ea, Hc, Ascii.eqb_refl; reflexivity|].
        split; [exact Ho|]. intros ->. discriminate.
      * intros _ r [= E _]. rewrite E in Ea. discriminate.
    + exact (IH true Hl).
    + simpl. destruct (IH true Hl) as [Ho Hd]. split; [|intros; discriminate].
      apply slug_ok_cons. split; [reflexivity|]. split; [exact Ho|]. intros _. exact (Hd eq_refl).
Qed.

Lemma slug_runs_id s b :
  slug_ok (list_ascii_of_string s) ->
  (b = true -> forall r, list_ascii_of_string s <> "-"%char :: r) ->
  slug_runs s b = s.
Proof.
  revert b. induction s as [|c s IH]; intros b Ho Hb; simpl; [reflexivity|].
  simpl in Ho. apply slug_ok_cons in Ho as (Hc & Ho & Hd).
  apply slug_char_props in Hc as (_ & _ & Hn).
  destruct (is_alnum_ascii c) eqn:Ea.
  - f_equal. apply IH; [exact Ho|discriminate].
  - specialize (Hn eq_refl). subst c. destruct b.
    + exfalso. exact (Hb eq_refl _ eq_refl).
    + f_equal. apply IH; [exact Ho|]. intros _. exact (Hd eq_refl).
Qed.

Lemma map_fixed {A} (f : A -> A) l : Forall (fun c => f c = c) l -> map f l = l.
Proof. induction 1 as [|x l Hx _ IH]; simpl; [reflexivity|]. rewrite Hx, IH. reflexivity. Qed.

Lemma py_lower_fixed s :
  Forall (fun c => lower_char c = c) (list_ascii_of_string s) -> py_lower s = s.
Proof. intros H. apply L_inj. rewrite L_py_lower. exact (map_fixed _ _ H). Qed.

(** [_slugify] maps its results to themselves. *)
Lemma slugify_idempotent v : _slugify (_slugify v) = _slugify v.
Proof.
  set (w := py_strip v). set (base := py_lower w).
  set (x := slug_runs base false). set (slug := strip_dash x).
  assert (Hlow : Forall (fun c => lower_char c = c) (list_ascii_of_string base)).
  { unfold base. rewrite L_py_lower. apply Forall_forall. intros c Hc.
    apply list_elem_of_In, in_map_iff in Hc as (c0 & <- & _). apply lower_char_idem. }
  destruct (slug_runs_ok base false Hlow) as [Hx _]. fold x in Hx.
  destruct (strip_by_props (fun c => Ascii.eqb c "-"%char) x) as ((w1 & w2 & Hw) & Hh & Hl).
  fold (strip_dash x) in Hw, Hh, Hl. fold slug in Hw, Hh, Hl.
  rewrite Hw in Hx. apply slug_ok_infix in Hx.
  assert (Eo : _slugify v = if String.eqb slug "" then base else slug) by reflexivity.
  rewrite Eo. destruct (String.eqb slug "") eqn:Es.
  - assert (Hs : py_strip base = base).
    { destruct (strip_by_props py_isspace v) as (_ & Hh' & Hl'). fold w in Hh', Hl'.
      apply strip_by_id.
      - intros c r Hc. unfold base in Hc. rewrite L_py_lower in Hc.
        apply map_eq_cons in Hc as (c0 & r0 & E0 & <- & _).
        rewrite isspace_lower_char. exact (Hh' c0 r0 E0).
      - intros r c Hc. unfold base in Hc. rewrite L_py_lower in Hc.
        apply map_eq_app in Hc as (r0 & l0 & E0 & _ & Hc).
        apply map_eq_cons in Hc as (c0 & n0 & -> & <- & Hn). destruct n0; [|discriminate].
        rewrite isspace_lower_char. exact (Hl' r0 c0 E0). }
    unfold _slugify at 1. rewrite Hs, (py_lower_fixed base Hlow). fold x. fold slug. rewrite Es.
    reflexivity.
  - assert (Hf := proj1 Hx).
    assert (Hs : py_strip slug = slug).
    { apply strip_by_id.
      - intros c r Hc. rewrite Hc in Hf. apply Forall_cons in Hf as [Hf _].
        apply slug_char_props, Hf.
      - intros r c Hc. rewrite Hc, Forall_app, Forall_singleton in Hf.
        apply slug_char_props, Hf. }
    assert (Hlw : py_lower slug = slug).
    { apply py_lower_fixed. eapply Forall_impl; [exact Hf|]. intros c Hc.
      apply slug_char_props, Hc. }
    unfold _slugify at 1. rewrite Hs, Hlw, (slug_runs_id slug false Hx); [|discriminate].
    assert (Hd : strip_dash slug = slug) by (apply strip_by_id; assumption).
    rewrite Hd, Es. reflexivity.
Qed.


(** ** Instances of the further properties *)

Lemma upsert_raw_entity_keeps_keys_unique_witness :
  exists rows' e c u,
    upsert_raw_entity [stored_fb] 7 8 1 "spell" "fireball" (fireball 3) (Some "Fireball") None None =
      Ok (rows', (e, c, u)) /\
    NoDup (map re_id rows') /\ filter (raw_scope 1 "spell" "fireball") rows' = [e].
Proof.
  destruct (upsert_raw_entity [stored_fb] 7 8 1 "spell" "fireball" (fireball 3) (Some "Fireball")
              None None) as [[rows' [[e c] u]]|err] eqn:E; [|vm_compute in E; discriminate].
  destruct (upsert_raw_entity_keeps_keys_unique [stored_fb] 7 8 1 "spell" "fireball" (fireball 3)
              (Some "Fireball") None None rows' e c u (NoDup_singleton _) (NoDup_singleton _) E)
    as (A & _ & C & _).
  exists rows', e, c, u. split; [reflexivity|]. split; [exact A|exact C].
Defined.

Lemma upsert_raw_entity_repeat_witness :
  exists rows' e c u,
    upsert_raw_entity [stored_fb] 7 8 1 "spell" "fireball" (fireball 3) (Some "Fireball") None None =
      Ok (rows', (e, c, u)) /\
    exists e', upsert_raw_entity rows' 11 12 1 "spell" "fireball" (fireball 3) None None None =
      Ok (replace_row e e' rows', (e', false, false)) /\
    re_retrieved_at e' = 11 /\ re_updated_at e' = 12.
Proof.
  destruct (upsert_raw_entity [stored_fb] 7 8 1 "spell" "fireball" (fireball 3) (Some "Fireball")
              None None) as [[rows' [[e c] u]]|err] eqn:E; [|vm_compute in E; discriminate].
  destruct (upsert_raw_entity_repeat [stored_fb] 7 8 1 "spell" "fireball" (fireball 3)
              (Some "Fireball") None None rows' e c u (NoDup_singleton _) (NoDup_singleton _) E
              11 12 None None None)
    as (e' & A & _ & _ & _ & _ & _ & _ & _ & _ & B & C).
  exists rows', e, c, u. split; [reflexivity|]. exists e'. auto.
Defined.

Lemma load_choices_appends_witness :
  exists db1 cnt, load_choices fighter_db "5e-bits" = Ok (db1, cnt) /\
    exists source ng no m,
      db1 = set_choices fighter_db (db_groups fighter_db ++ ng) (db_options fighter_db ++ no) /\
      cnt = [("choice_groups_created", Z.of_nat (length ng));
             ("choice_options_created", Z.of_nat (length no));
             ("unresolved_feature_refs", m)] /\
      Forall (new_option_ok (db_groups db1) (src_id source)) no.
Proof.
  destruct (load_choices fighter_db "5e-bits") as [[db1 cnt]|err] eqn:E;
    [|vm_compute in E; discriminate].
  destruct (load_choices_appends fighter_db "5e-bits" db1 cnt E)
    as (source & ng & no & m & _ & _ & _ & H1 & H2 & _ & H3).
  exists db1, cnt. split; [reflexivity|]. exists source, ng, no, m. auto.
Defined.

Lemma load_choices_keeps_keys_unique_witness :
  exists db1 cnt, load_choices fighter_db "5e-bits" = Ok (db1, cnt) /\
    NoDup (map option_key (db_options db1)) /\
    (forall o, In o (db_options db1) -> In (co_group_id o) (map cg_id (db_groups db1))).
Proof.
  destruct (load_choices fighter_db "5e-bits") as [[db1 cnt]|err] eqn:E;
    [|vm_compute in E; discriminate].
  destruct (load_choices_keeps_keys_unique fighter_db "5e-bits" db1 cnt
              NoDup_nil_2 NoDup_nil_2 NoDup_nil_2 NoDup_nil_2 (fun o H => match H with end) E)
    as (_ & _ & _ & H1 & H2).
  exists db1, cnt. split; [reflexivity|]. split; [exact H1|exact H2].
Defined.

Lemma source_groups_raise_witness :
  load_choices fighter_db1 "5e-bits" = Err no_source_key_attr /\
  load_prereqs fighter_db1 "5e-bits" = Err no_source_key_attr.
Proof.
  apply (source_groups_raise fighter_db1 "5e-bits" (mkSource 1 "5e-bits")).
  - vm_compute. reflexivity.
  - vm_compute. discriminate.
Defined.

Lemma other_loaders_second_run_idle_witness :
  exists db1 c, load_grants grant_db "5e-bits" = Ok (db1, c) /\
    load_grants db1 "5e-bits" =
      Ok (db1, [("grant_proficiencies_created", 0); ("grant_spells_created", 0);
                ("grant_features_created", 0); ("missing_refs", 0)]).
Proof.
  destruct (load_grants grant_db "5e-bits") as [[db1 c]|err] eqn:E;
    [|vm_compute in E; discriminate].
  exists db1, c. split; [reflexivity|].
  exact (proj1 (other_loaders_second_run_idle grant_db "5e-bits") db1 c E).
Defined.

Lemma load_grants_appends_witness :
  exists db1 cnt, load_grants grant_db "5e-bits" = Ok (db1, cnt) /\
    NoDup (map spell_grant_key (db_grant_spells db1)).
Proof.
  destruct (load_grants grant_db "5e-bits") as [[db1 cnt]|err] eqn:E;
    [|vm_compute in E; discriminate].
  destruct (load_grants_appends grant_db "5e-bits" db1 cnt E)
    as (source & np & ns & nf & m & _ & _ & _ & _ & _ & _ & _ & _ & H & _).
  exists db1, cnt. split; [reflexivity|]. exact (H NoDup_nil_2).
Defined.

Lemma load_prereqs_appends_witness :
  exists db1 cnt, load_prereqs wizard_db "5e-bits" = Ok (db1, cnt) /\
    NoDup (map prereq_key (db_prereqs db1)).
Proof.
  destruct (load_prereqs wizard_db "5e-bits") as [[db1 cnt]|err] eqn:E;
    [|vm_compute in E; discriminate].
  destruct (load_prereqs_appends wizard_db "5e-bits" db1 cnt E)
    as (source & new & m & _ & _ & _ & _ & _ & _ & H).
  exists db1, cnt. split; [reflexivity|]. exact (H NoDup_nil_2).
Defined.

Lemma load_relationships_appends_witness :
  exists db1 cnt, load_relationships wizard_db "5e-bits" = Ok (db1, cnt) /\
    NoDup (map class_feature_key (db_class_features db1)) /\
    NoDup (map spell_class_key (db_spell_classes db1)).
Proof.
  destruct (load_relationships wizard_db "5e-bits") as [[db1 cnt]|err] eqn:E;
    [|vm_compute in E; discriminate].
  destruct (load_relationships_appends wizard_db "5e-bits" db1 cnt E)
    as (source & _ & _ & _ & _ & _ & H1 & _ & H3).
  exists db1, cnt. split; [reflexivity|]. split; [exact (H1 NoDup_nil_2)|exact (H3 NoDup_nil_2)].
Defined.

Lemma apply_level_up_ok_witness :
  exists s2 row,
    apply_level_up level_up_session 1 10 2 None (Some [defense_choice]) None = (s2, Ok row) /\
    se_character_levels s2 = se_character_levels level_up_session ++ [row] /\ cl_id row = 2.
Proof.
  destruct (apply_level_up level_up_session 1 10 2 None (Some [defense_choice]) None)
    as [s2 [row|err]] eqn:E; [|vm_compute in E; discriminate].
  destruct (apply_level_up_ok level_up_session 1 10 2 None (Some [defense_choice]) None s2 row E)
    as (_ & Hr & _ & Hl & _).
  exists s2, row. split; [reflexivity|]. split; [exact Hl|]. rewrite Hr. vm_compute. reflexivity.
Defined.

Lemma apply_level_up_keeps_keys_unique_witness :
  exists s2 r,
    apply_level_up level_up_session 1 10 2 None (Some [defense_choice]) None = (s2, r) /\
    NoDup (map cl_id (se_character_levels s2)) /\ NoDup (map cc_id (se_character_choices s2)).
Proof.
  destruct (apply_level_up level_up_session 1 10 2 None (Some [defense_choice]) None)
    as [s2 r] eqn:E.
  destruct (apply_level_up_keeps_keys_unique level_up_session 1 10 2 None (Some [defense_choice])
              None s2 r (NoDup_singleton _) (NoDup_singleton _) NoDup_nil_2 E) as (_ & H1 & H2).
  exists s2, r. split; [reflexivity|]. split; [exact H1|exact H2].
Defined.

Lemma parse_prereq_entry_shape_witness :
  exists rows, _parse_prereq_entry level_class_entry = Ok rows /\
    map prereq_row_type rows `sublist_of` ["level"; "class"; "subclass"; "ability"; "feature"].
Proof.
  destruct (_parse_prereq_entry level_class_entry) as [rows|err] eqn:E;
    [|vm_compute in E; discriminate].
  exists rows. split; [reflexivity|]. exact (proj1 (parse_prereq_entry_shape _ _ E)).
Defined.

Lemma loaders_unknown_source_witness :
  load_choices fighter_db "srd-2024" = Err "ValueError: Source not found. Run importers first." /\
  load_relationships fighter_db "srd-2024" = Err "ValueError: Run importers first: source not found.".
Proof.
  destruct (loaders_unknown_source fighter_db "srd-2024") as (H1 & _ & _ & H4).
  - intros s [<-|[]]. discriminate.
  - split; [exact H1|exact H4].
Defined.

Lemma parse_option_dict_label_witness :
  exists t k l, _parse_option (JObj [("name", JStr " ")]) "string" = (t, k, l) /\
    l <> "" /\ (k = "" -> py_strip l = "").
Proof.
  destruct (_parse_option (JObj [("name", JStr " ")]) "string") as [[t k] l] eqn:E.
  exists t, k, l. split; [reflexivity|]. exact (parse_option_dict_label _ _ _ _ _ E).
Defined.

